(** * The Hawk drive core of EtchedEmu (hawk.c): timing model and track codec

    A shallow embedding of [src/hawk.c].  C objects that the code mutates are
    threaded through a small state monad whose result says whether the call
    returned, stopped on a failed [assert], or left defined behaviour.
    Machine integers are [Z] with their wrap-around written out. *)

From Stdlib Require Import ZArith Lia List.
From stdpp Require Import base tactics option list gmap.

Local Open Scope Z_scope.

(** ** Machine integers *)

(** The value of a [w]-bit unsigned integer holding [x]. *)
Definition wrap (w x : Z) : Z := x mod 2 ^ w.

Definition u8 : Z -> Z := wrap 8.
Definition u16 : Z -> Z := wrap 16.
Definition u32 : Z -> Z := wrap 32.
Definition u64 : Z -> Z := wrap 64.

(** Conversion of a 64-bit pattern to [int64_t]. *)
Definition s64 (x : Z) : Z :=
  let y := u64 x in if y <? 2 ^ 63 then y else y - 2 ^ 64.

(** Conversion of a value to [int]. *)
Definition s32 (x : Z) : Z :=
  let y := u32 x in if y <? 2 ^ 31 then y else y - 2 ^ 32.

Definition INT_MIN : Z := - 2 ^ 31.

(** ** Outcomes and the state monad *)

Inductive outcome (A : Type) : Type :=
| Done (a : A)     (* the call returned *)
| Abort            (* an [assert] failed: the process stops *)
| Undefined.       (* the C standard gives the execution no meaning *)

Arguments Done {A} a.
Arguments Abort {A}.
Arguments Undefined {A}.

Definition M (S A : Type) : Type := S -> outcome (A * S).

#[global] Instance M_ret {S} : MRet (M S) := fun A a s => Done (a, s).

#[global] Instance M_bind {S} : MBind (M S) := fun A B f m s =>
  match m s with
  | Done (a, s') => f a s'
  | Abort => Abort
  | Undefined => Undefined
  end.

Definition get {S} : M S S := fun s => Done (s, s).
Definition put {S} (s : S) : M S () := fun _ => Done (tt, s).
Definition modify {S} (f : S -> S) : M S () := fun s => Done (tt, f s).
Definition undefined {S A} : M S A := fun _ => Undefined.
Definition abort {S A} : M S A := fun _ => Abort.

(** [assert(b)] *)
Definition assert {S} (b : bool) : M S () := if b then mret tt else abort.

(** The state in which a call returned, if it did. *)
Definition final {S A} (r : outcome (A * S)) : option S :=
  match r with Done (_, s) => Some s | _ => None end.

(** The value a call returned, if it did. *)
Definition returned {S A} (r : outcome (A * S)) : option A :=
  match r with Done (a, _) => Some a | _ => None end.

(** ** Constants of hawk.h and scheduler.h

    Neither header is part of the sources.  The macros hawk.c uses are taken
    as integer parameters; every theorem states what it needs of them. *)

Class hawk_h : Type := {
  HAWK_NUM_CYLINDERS : Z;
  HAWK_SECTS_PER_TRK : Z;
  HAWK_SECTOR_BYTES : Z;
  HAWK_GAP_BITS : Z;
  HAWK_SYNC_BITS : Z;
  HAWK_RAW_SECTOR_BITS : Z;
  HAWK_RAW_TRACK_BITS : Z;
  HAWK_ROTATION_NS : Z;
  HAWK_SECTOR_NS : Z;
  HAWK_BIT_NS : Z;
}.

(** Modelled from the spec: scheduler.h is missing; the macro is one
    millisecond counted in nanoseconds (the spec's 7.5 ms and 500 ms delays
    are [7.5 * ONE_MILISECOND_NS] and [500 * ONE_MILISECOND_NS]). *)
Definition ONE_MILISECOND_NS : Z := 1000000.

(** ** The backing store behind [unit->fd]

    A flat byte image with a file position.  Every [lseek] and [read] issued
    on it is appended to [bs_trace]. *)

Inductive syscall : Type :=
| sys_lseek (offset : Z) (ret : Z)
| sys_read (pos : Z) (nbyte : Z) (got : list Z).

Record backing_store : Type := {
  bs_open : bool;          (* the descriptor is valid *)
  bs_bytes : list Z;       (* the image *)
  bs_pos : Z;              (* file offset *)
  bs_trace : list syscall;
}.

(** lseek(fd, offset, SEEK_SET): fails with -1 on a bad descriptor or a
    negative offset, otherwise moves the file offset (past the end is fine). *)
Definition lseek (offset : Z) : M backing_store Z := fun b =>
  if bs_open b && (0 <=? offset) then
    Done (offset, {| bs_open := bs_open b; bs_bytes := bs_bytes b; bs_pos := offset;
                     bs_trace := bs_trace b ++ [sys_lseek offset offset] |})
  else
    Done (-1, {| bs_open := bs_open b; bs_bytes := bs_bytes b; bs_pos := bs_pos b;
                 bs_trace := bs_trace b ++ [sys_lseek offset (-1)] |}).

(** The bytes a read of [nbyte] at [pos] delivers: short at end of image. *)
Definition bytes_at (bytes : list Z) (pos nbyte : Z) : list Z :=
  take (Z.to_nat nbyte) (drop (Z.to_nat pos) bytes).

(** read(fd, buf, nbyte): returns the count and the bytes placed in [buf]. *)
Definition read (nbyte : Z) : M backing_store (Z * list Z) := fun b =>
  if bs_open b then
    let got := bytes_at (bs_bytes b) (bs_pos b) nbyte in
    let n := Z.of_nat (length got) in
    Done ((n, got),
          {| bs_open := true; bs_bytes := bs_bytes b; bs_pos := bs_pos b + n;
             bs_trace := bs_trace b ++ [sys_read (bs_pos b) nbyte got] |})
  else
    Done ((-1, []),
          {| bs_open := false; bs_bytes := bs_bytes b; bs_pos := bs_pos b;
             bs_trace := bs_trace b ++ [sys_read (bs_pos b) nbyte []] |}).

(** ** struct hawk_unit

    Modelled from the spec: the declaration lives in hawk.h; these are the
    fields hawk.c touches.  Integer fields hold the value assigned to them
    (the spec gives no width); [current_track_data] is the array of one-bit
    cells, [HAWK_RAW_TRACK_BITS] long in a well-formed unit. *)

Record hawk_unit : Type := {
  fd : backing_store;
  unit_num : Z;
  seeking : Z;
  on_cyl : Z;
  addr_ack : Z;
  addr_int : Z;
  seek_error : Z;
  fault : Z;
  current_track : Z;
  rotation_offset : Z;
  head_pos : Z;
  sector_addr : Z;
  data_ptr : Z;
  current_track_data : list Z;
}.

Definition set_fd (v : backing_store) (u : hawk_unit) : hawk_unit :=
  {| fd := v; unit_num := unit_num u; seeking := seeking u; on_cyl := on_cyl u;
     addr_ack := addr_ack u; addr_int := addr_int u; seek_error := seek_error u;
     fault := fault u; current_track := current_track u;
     rotation_offset := rotation_offset u; head_pos := head_pos u;
     sector_addr := sector_addr u; data_ptr := data_ptr u;
     current_track_data := current_track_data u |}.

Definition set_seeking (v : Z) (u : hawk_unit) : hawk_unit :=
  {| fd := fd u; unit_num := unit_num u; seeking := v; on_cyl := on_cyl u;
     addr_ack := addr_ack u; addr_int := addr_int u; seek_error := seek_error u;
     fault := fault u; current_track := current_track u;
     rotation_offset := rotation_offset u; head_pos := head_pos u;
     sector_addr := sector_addr u; data_ptr := data_ptr u;
     current_track_data := current_track_data u |}.

Definition set_on_cyl (v : Z) (u : hawk_unit) : hawk_unit :=
  {| fd := fd u; unit_num := unit_num u; seeking := seeking u; on_cyl := v;
     addr_ack := addr_ack u; addr_int := addr_int u; seek_error := seek_error u;
     fault := fault u; current_track := current_track u;
     rotation_offset := rotation_offset u; head_pos := head_pos u;
     sector_addr := sector_addr u; data_ptr := data_ptr u;
     current_track_data := current_track_data u |}.

Definition set_addr_ack (v : Z) (u : hawk_unit) : hawk_unit :=
  {| fd := fd u; unit_num := unit_num u; seeking := seeking u; on_cyl := on_cyl u;
     addr_ack := v; addr_int := addr_int u; seek_error := seek_error u;
     fault := fault u; current_track := current_track u;
     rotation_offset := rotation_offset u; head_pos := head_pos u;
     sector_addr := sector_addr u; data_ptr := data_ptr u;
     current_track_data := current_track_data u |}.

Definition set_addr_int (v : Z) (u : hawk_unit) : hawk_unit :=
  {| fd := fd u; unit_num := unit_num u; seeking := seeking u; on_cyl := on_cyl u;
     addr_ack := addr_ack u; addr_int := v; seek_error := seek_error u;
     fault := fault u; current_track := current_track u;
     rotation_offset := rotation_offset u; head_pos := head_pos u;
     sector_addr := sector_addr u; data_ptr := data_ptr u;
     current_track_data := current_track_data u |}.

Definition set_seek_error (v : Z) (u : hawk_unit) : hawk_unit :=
  {| fd := fd u; unit_num := unit_num u; seeking := seeking u; on_cyl := on_cyl u;
     addr_ack := addr_ack u; addr_int := addr_int u; seek_error := v;
     fault := fault u; current_track := current_track u;
     rotation_offset := rotation_offset u; head_pos := head_pos u;
     sector_addr := sector_addr u; data_ptr := data_ptr u;
     current_track_data := current_track_data u |}.

Definition set_fault (v : Z) (u : hawk_unit) : hawk_unit :=
  {| fd := fd u; unit_num := unit_num u; seeking := seeking u; on_cyl := on_cyl u;
     addr_ack := addr_ack u; addr_int := addr_int u; seek_error := seek_error u;
     fault := v; current_track := current_track u;
     rotation_offset := rotation_offset u; head_pos := head_pos u;
     sector_addr := sector_addr u; data_ptr := data_ptr u;
     current_track_data := current_track_data u |}.

Definition set_current_track (v : Z) (u : hawk_unit) : hawk_unit :=
  {| fd := fd u; unit_num := unit_num u; seeking := seeking u; on_cyl := on_cyl u;
     addr_ack := addr_ack u; addr_int := addr_int u; seek_error := seek_error u;
     fault := fault u; current_track := v;
     rotation_offset := rotation_offset u; head_pos := head_pos u;
     sector_addr := sector_addr u; data_ptr := data_ptr u;
     current_track_data := current_track_data u |}.

Definition set_rotation_offset (v : Z) (u : hawk_unit) : hawk_unit :=
  {| fd := fd u; unit_num := unit_num u; seeking := seeking u; on_cyl := on_cyl u;
     addr_ack := addr_ack u; addr_int := addr_int u; seek_error := seek_error u;
     fault := fault u; current_track := current_track u;
     rotation_offset := v; head_pos := head_pos u;
     sector_addr := sector_addr u; data_ptr := data_ptr u;
     current_track_data := current_track_data u |}.

Definition set_head_pos (v : Z) (u : hawk_unit) : hawk_unit :=
  {| fd := fd u; unit_num := unit_num u; seeking := seeking u; on_cyl := on_cyl u;
     addr_ack := addr_ack u; addr_int := addr_int u; seek_error := seek_error u;
     fault := fault u; current_track := current_track u;
     rotation_offset := rotation_offset u; head_pos := v;
     sector_addr := sector_addr u; data_ptr := data_ptr u;
     current_track_data := current_track_data u |}.

Definition set_sector_addr (v : Z) (u : hawk_unit) : hawk_unit :=
  {| fd := fd u; unit_num := unit_num u; seeking := seeking u; on_cyl := on_cyl u;
     addr_ack := addr_ack u; addr_int := addr_int u; seek_error := seek_error u;
     fault := fault u; current_track := current_track u;
     rotation_offset := rotation_offset u; head_pos := head_pos u;
     sector_addr := v; data_ptr := data_ptr u;
     current_track_data := current_track_data u |}.

Definition set_data_ptr (v : Z) (u : hawk_unit) : hawk_unit :=
  {| fd := fd u; unit_num := unit_num u; seeking := seeking u; on_cyl := on_cyl u;
     addr_ack := addr_ack u; addr_int := addr_int u; seek_error := seek_error u;
     fault := fault u; current_track := current_track u;
     rotation_offset := rotation_offset u; head_pos := head_pos u;
     sector_addr := sector_addr u; data_ptr := v;
     current_track_data := current_track_data u |}.

Definition set_current_track_data (v : list Z) (u : hawk_unit) : hawk_unit :=
  {| fd := fd u; unit_num := unit_num u; seeking := seeking u; on_cyl := on_cyl u;
     addr_ack := addr_ack u; addr_int := addr_int u; seek_error := seek_error u;
     fault := fault u; current_track := current_track u;
     rotation_offset := rotation_offset u; head_pos := head_pos u;
     sector_addr := sector_addr u; data_ptr := data_ptr u;
     current_track_data := v |}.

(** A system call on [unit->fd]. *)
Definition on_fd {A} (m : M backing_store A) : M hawk_unit A := fun u =>
  match m (fd u) with
  | Done (a, b) => Done (a, set_fd b u)
  | Abort => Abort
  | Undefined => Undefined
  end.

(** ** Track codec: the bit primitives *)

(** [unit->current_track_data[unit->data_ptr++] = val]; a store outside the
    array is undefined. *)
Definition poke (val : Z) : M hawk_unit () := fun u =>
  if (0 <=? data_ptr u) && (data_ptr u <? Z.of_nat (length (current_track_data u))) then
    Done (tt, set_data_ptr (data_ptr u + 1)
                (set_current_track_data
                   (<[Z.to_nat (data_ptr u) := val]> (current_track_data u)) u))
  else Undefined.

(** [unit->current_track_data[unit->data_ptr++]] as a value. *)
Definition peek : M hawk_unit Z := fun u =>
  if 0 <=? data_ptr u then
    match current_track_data u !! Z.to_nat (data_ptr u) with
    | Some bit => Done (bit, set_data_ptr (data_ptr u + 1) u)
    | None => Undefined
    end
  else Undefined.

(** The body of [while (count--)] run [n] times. *)
Fixpoint set_bits_loop (n : nat) (val : Z) : M hawk_unit () :=
  match n with
  | O => mret tt
  | S n' => poke val ;; set_bits_loop n' val
  end.

(** hawk_set_bits.  A negative [count] never reaches zero before the stores
    run off the array. *)
Definition hawk_set_bits (count : Z) (val : Z) : M hawk_unit () :=
  let val := Z.land val 1 in
  if count <? 0 then undefined else set_bits_loop (Z.to_nat count) val.

(** The [for (int shift = 7; shift != 0; shift--)] loop of hawk_write_bits,
    entered at [shift].  [None]: the function returned from inside the loop;
    [Some count]: the loop ran to its end with [count] left. *)
Fixpoint write_bits_for (shift : nat) (byte count : Z) : M hawk_unit (option Z) :=
  match shift with
  | O => mret (Some count)
  | S shift' =>
      if count =? INT_MIN then undefined                  (* count-- overflows *)
      else if negb (count =? 0) then mret None            (* if (count--) return; *)
      else
        let bit := Z.land (Z.shiftr byte (Z.of_nat shift)) 1 in
        poke bit ;;
        write_bits_for shift' byte (count - 1)
  end.

(** hawk_write_bits: [while (1)] takes the next byte of [data] on every
    round; running past the caller's array is undefined. *)
Fixpoint hawk_write_bits (count : Z) (data : list Z) : M hawk_unit () :=
  match data with
  | [] => undefined
  | byte :: data' =>
      r ← write_bits_for 7 byte count;
      match r with
      | None => mret tt
      | Some count' => hawk_write_bits count' data'
      end
  end.

(** The [for] loop of hawk_read_bits entered at [shift] with the byte built
    so far.  The second component is [None] when the function returned from
    inside the loop (after storing the byte), [Some count] at the loop's end. *)
Fixpoint read_bits_for (shift : nat) (byte count : Z) : M hawk_unit (Z * option Z) :=
  match shift with
  | O => mret (byte, Some count)
  | S shift' =>
      bit ← peek;
      let bit := u8 (Z.shiftl bit (Z.of_nat shift)) in
      let byte := Z.lor byte bit in
      if count =? INT_MIN then undefined                     (* --count overflows *)
      else if negb (count - 1 =? 0) then mret (byte, None)   (* if (--count) *)
      else read_bits_for shift' byte (count - 1)
  end.

(** hawk_read_bits.  [dest] is the caller's array; the result is that array
    after the stores [*dest++ = byte].  A store past its end is undefined. *)
Fixpoint hawk_read_bits (count : Z) (dest : list Z) : M hawk_unit (list Z) :=
  match dest with
  | [] => undefined
  | _ :: dest' =>
      '(byte, r) ← read_bits_for 7 0 count;
      match r with
      | None => mret (byte :: dest')
      | Some count' => rest ← hawk_read_bits count' dest'; mret (byte :: rest)
      end
  end.

(** hawk_rewind *)
Definition hawk_rewind `{hawk_h} (count : Z) : M hawk_unit () :=
  modify (fun u => set_data_ptr (data_ptr u - count) u) ;;
  u ← get;
  if data_ptr u <? 0 then modify (set_data_ptr (data_ptr u + HAWK_RAW_TRACK_BITS))
  else mret tt.

(** ** Track codec: materializing a track *)

Section track.
Context `{hawk_h}.

(** The address word of a sector and the four bytes laid out for it. *)
Definition sector_addr_word (cyl head sector : Z) : Z :=
  u16 (Z.lor (Z.lor (u32 (Z.shiftl cyl 8)) (u32 (Z.shiftl head 4))) sector).

Definition addr_data (cyl head sector : Z) : list Z :=
  let addr := sector_addr_word cyl head sector in
  let check_word := u16 (Z.lnot addr) in
  [ Z.land (Z.shiftr addr 8) 255; Z.land addr 255;
    Z.land (Z.shiftr check_word 8) 255; Z.land check_word 255 ].

(** One round of the sector loop of hawk_buffer_track.  [false]: the
    function returned 0 from inside the round. *)
Definition buffer_sector (cyl head sector : Z) : M hawk_unit bool :=
  modify (set_data_ptr (sector * HAWK_RAW_SECTOR_BITS)) ;;
  (* ~120 bit gap *)
  hawk_set_bits HAWK_GAP_BITS 0 ;;
  (* sync *)
  hawk_set_bits (HAWK_SYNC_BITS - 1) 0 ;;
  hawk_set_bits 1 1 ;;
  (* sector address *)
  hawk_write_bits 32 (addr_data cyl head sector) ;;
  (* second gap *)
  hawk_set_bits HAWK_GAP_BITS 0 ;;
  (* another sync *)
  hawk_set_bits (HAWK_SYNC_BITS - 1) 0 ;;
  hawk_set_bits 1 1 ;;
  (* sector data *)
  '(n, buffer) ← on_fd (read HAWK_SECTOR_BYTES);
  if negb (n =? HAWK_SECTOR_BYTES) then mret false
  else
    hawk_write_bits (HAWK_SECTOR_BYTES * 8) buffer ;;
    (* CRC *)
    hawk_write_bits 16 [204; 204] ;;
    (* trailer *)
    hawk_set_bits (Z.quot HAWK_GAP_BITS 2) 0 ;;
    mret true.

(** [for (int sector = ...; sector < HAWK_SECTS_PER_TRK; sector++)] with
    [n] rounds left. *)
Fixpoint buffer_track_for (n : nat) (cyl head sector : Z) : M hawk_unit Z :=
  match n with
  | O => mret 1
  | S n' =>
      go ← buffer_sector cyl head sector;
      if go : bool then buffer_track_for n' cyl head (sector + 1) else mret 0
  end.

(** The byte offset hawk_buffer_track positions the store at. *)
Definition track_offset (cyl head : Z) : Z :=
  u32 (Z.lor (u32 (Z.shiftl cyl 5)) (u32 (Z.shiftl head 4)) * HAWK_SECTOR_BYTES).

(** hawk_buffer_track *)
Definition hawk_buffer_track (cyl head : Z) : M hawk_unit Z :=
  let offset := track_offset cyl head in
  r ← on_fd (lseek offset);
  if r =? -1 then mret 0
  else buffer_track_for (Z.to_nat HAWK_SECTS_PER_TRK) cyl head 0.

(** ** Timing model: rotation *)

(** [(now + unit->rotation_offset) % (uint64_t)HAWK_ROTATION_NS] *)
Definition rotation_at (now : Z) (u : hawk_unit) : Z :=
  u64 (now + rotation_offset u) mod u64 HAWK_ROTATION_NS.

(** hawk_update *)
Definition hawk_update (now : Z) : M hawk_unit () :=
  u ← get;
  let rotation := rotation_at now u in
  modify (set_head_pos (u64 (rotation * HAWK_BIT_NS))) ;;
  modify (set_sector_addr (rotation / HAWK_SECTOR_NS)).

(** hawk_remaining_bits.  The function returns [int]: the difference is
    converted to 32 bits. *)
Definition hawk_remaining_bits (time : Z) : M hawk_unit Z :=
hawk_update time ;;
u ← get;
mret (s32 (head_pos u - data_ptr u)).
End track.

(** ** Events, the scheduler and the process state *)

(** The functions hawk.c installs in [event_t.callback]. *)
Inductive callback_fn : Type :=
| null_callback
| fn_hawk_seek_callback
| fn_hawk_rotation_event_cb.

(** Modelled from the spec: struct event_t of scheduler.h, a requested delay
    in nanoseconds and the callback to invoke. *)
Record event_t : Type := {
  delta_ns : Z;
  callback : callback_fn;
}.

(** [&seek_event.event] and [&rotation_event.event]. *)
Inductive event_ptr : Type :=
| seek_event_event
| rotation_event_event.

#[global] Instance event_ptr_eq_dec : EqDecision event_ptr.
Proof. solve_decision. Defined.

(** A [struct hawk_unit *]: the address of a unit, or NULL. *)
Abbreviation unit_ptr := (option nat).

Record seek_event_t : Type := {
  se_event : event_t;
  se_unit : unit_ptr;
  se_seek_error : Z;
}.

Record rotation_event_t : Type := {
  re_event : event_t;
  re_unit : unit_ptr;
  re_in_process : Z;
}.

(** Everything the functions of hawk.c can reach: the units in memory, the
    two static event objects, and the collaborators' side (the calls made to
    [schedule_event] with the event as it was, the clock behind
    [get_current_time], the calls made to [dsk_hawk_changed]). *)
Record world : Type := {
  units : gmap nat hawk_unit;
  seek_event : seek_event_t;
  rotation_event : rotation_event_t;
  scheduled : list (event_ptr * event_t);
  clock : Z;
  dsk_changed : list Z;
}.

Definition set_units (v : gmap nat hawk_unit) (w : world) : world :=
  {| units := v; seek_event := seek_event w; rotation_event := rotation_event w;
     scheduled := scheduled w; clock := clock w; dsk_changed := dsk_changed w |}.

Definition set_seek_event (v : seek_event_t) (w : world) : world :=
  {| units := units w; seek_event := v; rotation_event := rotation_event w;
     scheduled := scheduled w; clock := clock w; dsk_changed := dsk_changed w |}.

Definition set_rotation_event (v : rotation_event_t) (w : world) : world :=
  {| units := units w; seek_event := seek_event w; rotation_event := v;
     scheduled := scheduled w; clock := clock w; dsk_changed := dsk_changed w |}.

Definition set_scheduled (v : list (event_ptr * event_t)) (w : world) : world :=
  {| units := units w; seek_event := seek_event w; rotation_event := rotation_event w;
     scheduled := v; clock := clock w; dsk_changed := dsk_changed w |}.

Definition set_dsk_changed (v : list Z) (w : world) : world :=
  {| units := units w; seek_event := seek_event w; rotation_event := rotation_event w;
     scheduled := scheduled w; clock := clock w; dsk_changed := v |}.

(** The event object behind a pointer. *)
Definition event_at (e : event_ptr) (w : world) : event_t :=
  match e with
  | seek_event_event => se_event (seek_event w)
  | rotation_event_event => re_event (rotation_event w)
  end.

(** schedule_event(e) *)
Definition schedule_event (e : event_ptr) : M world () :=
  modify (fun w => set_scheduled (scheduled w ++ [(e, event_at e w)]) w).

(** get_current_time() *)
Definition get_current_time : M world Z := fun w => Done (clock w, w).

(** dsk_hawk_changed(unit_num) *)
Definition dsk_hawk_changed (n : Z) : M world () :=
  modify (fun w => set_dsk_changed (dsk_changed w ++ [n]) w).

(** Running code on [*unit]; a null or dangling pointer is undefined. *)
Definition at_unit {A} (unit : unit_ptr) (m : M hawk_unit A) : M world A := fun w =>
  match unit with
  | None => Undefined
  | Some a =>
      match units w !! a with
      | None => Undefined
      | Some u =>
          match m u with
          | Done (x, u') => Done (x, set_units (<[a := u']> (units w)) w)
          | Abort => Abort
          | Undefined => Undefined
          end
      end
  end.

(** The process state with the unit at address [a] replaced. *)
Definition with_unit (a : nat) (u : hawk_unit) (w : world) : world :=
  set_units (<[a := u]> (units w)) w.

(** Assignments to the members of the static event objects. *)
Definition seek_event_set_delta_ns (v : Z) : M world () :=
  modify (fun w =>
    let s := seek_event w in
    set_seek_event {| se_event := {| delta_ns := v; callback := callback (se_event s) |};
                      se_unit := se_unit s; se_seek_error := se_seek_error s |} w).

Definition seek_event_set_callback (v : callback_fn) : M world () :=
  modify (fun w =>
    let s := seek_event w in
    set_seek_event {| se_event := {| delta_ns := delta_ns (se_event s); callback := v |};
                      se_unit := se_unit s; se_seek_error := se_seek_error s |} w).

Definition seek_event_set_unit (v : unit_ptr) : M world () :=
  modify (fun w =>
    let s := seek_event w in
    set_seek_event {| se_event := se_event s; se_unit := v;
                      se_seek_error := se_seek_error s |} w).

Definition seek_event_set_seek_error (v : Z) : M world () :=
  modify (fun w =>
    let s := seek_event w in
    set_seek_event {| se_event := se_event s; se_unit := se_unit s;
                      se_seek_error := v |} w).

Definition rotation_event_set_delta_ns (v : Z) : M world () :=
  modify (fun w =>
    let r := rotation_event w in
    set_rotation_event
      {| re_event := {| delta_ns := v; callback := callback (re_event r) |};
         re_unit := re_unit r; re_in_process := re_in_process r |} w).

Definition rotation_event_set_callback (v : callback_fn) : M world () :=
  modify (fun w =>
    let r := rotation_event w in
    set_rotation_event
      {| re_event := {| delta_ns := delta_ns (re_event r); callback := v |};
         re_unit := re_unit r; re_in_process := re_in_process r |} w).

Definition rotation_event_set_unit (v : unit_ptr) : M world () :=
  modify (fun w =>
    let r := rotation_event w in
    set_rotation_event {| re_event := re_event r; re_unit := v;
                          re_in_process := re_in_process r |} w).

Definition rotation_event_set_in_process (v : Z) : M world () :=
  modify (fun w =>
    let r := rotation_event w in
    set_rotation_event {| re_event := re_event r; re_unit := re_unit r;
                          re_in_process := v |} w).

(** ** Timing model: seek, return to zero, wait for sector *)

Section timing.
Context `{hawk_h}.

(** hawk_seek_callback *)
Definition hawk_seek_callback (event : event_ptr) (late_ns : Z) : M world () :=
  assert (bool_decide (event = seek_event_event)) ;;
  w ← get;
  let unit := se_unit (seek_event w) in
  (if negb (se_seek_error (seek_event w) =? 0)
   then at_unit unit (modify (set_seek_error (se_seek_error (seek_event w))))
   else mret tt) ;;
  at_unit unit (modify (set_on_cyl 1)) ;;
  at_unit unit (modify (set_seeking 0)) ;;
  (* notify DSK emulation that something happened *)
  n ← at_unit unit (u ← get; mret (unit_num u));
  dsk_hawk_changed n.

(** hawk_seek.  [cyl] and [head] are [unsigned] values. *)
Definition hawk_seek (unit : unit_ptr) (cyl head : Z) : M world () :=
  s ← at_unit unit (u ← get; mret (seeking u));
  if negb (s =? 0) then mret tt
  else
    at_unit unit (modify (set_seeking 1)) ;;
    at_unit unit (modify (set_addr_ack 0)) ;;
    at_unit unit (modify (set_addr_int 0)) ;;
    at_unit unit (modify (set_current_track (Z.lor (u32 (Z.shiftl cyl 1)) head))) ;;
    at_unit unit (modify (set_on_cyl 0)) ;;
    (* a local that is computed and never used *)
    let offset := Z.lor (u32 (Z.shiftl cyl 5))
                        (u32 (u32 (Z.shiftl head 4) * HAWK_SECTOR_BYTES)) in
    let offset := offset * HAWK_SECTOR_BYTES in
    if HAWK_NUM_CYLINDERS <=? cyl then
      (* Tried to seek past end of disk *)
      at_unit unit (modify (set_addr_int 1))
    else
      seek_event_set_delta_ns (15 * ONE_MILISECOND_NS / 2) ;;
      seek_event_set_callback fn_hawk_seek_callback ;;
      seek_event_set_unit unit ;;
      seek_event_set_seek_error 0 ;;
      ok ← at_unit unit (hawk_buffer_track cyl head);
      (if ok =? 0 then
         seek_event_set_seek_error 1 ;;
         seek_event_set_delta_ns (500 * ONE_MILISECOND_NS)
       else mret tt) ;;
      at_unit unit (modify (set_addr_ack 1)) ;;
      schedule_event seek_event_event.

(** hawk_rtz *)
Definition hawk_rtz (unit : unit_ptr) : M world () :=
  at_unit unit (modify (set_seek_error 0)) ;;
  at_unit unit (modify (set_fault 0)) ;;
  at_unit unit (modify (set_seeking 0)) ;;
  hawk_seek unit 0 0.

(** hawk_rotation_event_cb *)
Definition hawk_rotation_event_cb (event : event_ptr) (late_ns : Z) : M world () :=
  assert (bool_decide (event = rotation_event_event)) ;;
  rotation_event_set_in_process 0 ;;
  w ← get;
  let unit := re_unit (rotation_event w) in
  now ← get_current_time;
  at_unit unit (hawk_update now) ;;
  (* Copy current head position to read/write pointer *)
  at_unit unit (u ← get; modify (set_data_ptr (head_pos u))) ;;
  n ← at_unit unit (u ← get; mret (unit_num u));
  dsk_hawk_changed n.

(** The delay hawk_wait_sector asks for. *)
Definition wait_delta (rotation sector : Z) : Z :=
  let desired_rotation := u64 (HAWK_SECTOR_NS * sector) in
  let delta := s64 (desired_rotation - rotation) in
  if delta <? 0 then delta + HAWK_ROTATION_NS else delta.

(** hawk_wait_sector *)
Definition hawk_wait_sector (unit : unit_ptr) (sector : Z) : M world () :=
  now ← get_current_time;
  rotation ← at_unit unit (u ← get; mret (rotation_at now u));
  let delta := wait_delta rotation sector in
  w ← get;
  assert (re_in_process (rotation_event w) =? 0) ;;
  rotation_event_set_unit unit ;;
  rotation_event_set_in_process 1 ;;
  rotation_event_set_delta_ns delta ;;
  rotation_event_set_callback fn_hawk_rotation_event_cb ;;
  schedule_event rotation_event_event.

(** Modelled from the spec: the scheduler is not part of the sources.  When
    an event fires, its callback is invoked with the event and the lateness. *)
Definition fire (event : event_ptr) (late_ns : Z) : M world () :=
  w ← get;
  match callback (event_at event w) with
  | null_callback => undefined
  | fn_hawk_seek_callback => hawk_seek_callback event late_ns
  | fn_hawk_rotation_event_cb => hawk_rotation_event_cb event late_ns
  end.
End timing.

(** ** Vocabulary of the statements *)

Section vocabulary.
Context `{hawk_h}.

(** The unit as hawk_seek has it once the request is accepted, before the
    range check and before the track is materialized. *)
Definition seek_begun (cyl head : Z) (u : hawk_unit) : hawk_unit :=
  set_on_cyl 0
    (set_current_track (Z.lor (u32 (Z.shiftl cyl 1)) head)
       (set_addr_int 0 (set_addr_ack 0 (set_seeking 1 u)))).

(** The unit as hawk_seek_callback leaves it, given the pending error flag
    of the seek event. *)
Definition seek_completed (pending : Z) (u : hawk_unit) : hawk_unit :=
  set_seeking 0 (set_on_cyl 1 (if pending =? 0 then u else set_seek_error pending u)).

(** A controller issuing seek requests [(cyl, head)] one after another. *)
Fixpoint seek_all (unit : unit_ptr) (requests : list (Z * Z)) : M world () :=
  match requests with
  | [] => mret tt
  | (cyl, head) :: rest => hawk_seek unit cyl head ;; seek_all unit rest
  end.

(** What the rotation query reports at time [T]: the cached
    [head_pos] and [sector_addr] after hawk_update. *)
Definition position (T : Z) (u : hawk_unit) : option (Z * Z) :=
  u' ← final (hawk_update T u); Some (head_pos u', sector_addr u').

(** Requirements on the timing macros: a positive period that fits the
    64-bit arithmetic, sectors that tile at most one turn. *)
Record timing_ok : Prop := {
  rotation_ns_range : 0 < HAWK_ROTATION_NS < 2 ^ 63;
  sector_ns_pos : 0 < HAWK_SECTOR_NS;
  sectors_in_turn : HAWK_SECTOR_NS * HAWK_SECTS_PER_TRK <= HAWK_ROTATION_NS;
  bit_ns_range : 0 <= HAWK_BIT_NS /\ HAWK_ROTATION_NS * HAWK_BIT_NS <= 2 ^ 64;
}.
End vocabulary.

(** The run of cells [bits] laid down at the cursor, which moves past it. *)
Definition emit (bits : list Z) (u : hawk_unit) : hawk_unit :=
  set_data_ptr (data_ptr u + Z.of_nat (length bits))
    (set_current_track_data
       (list_inserts (Z.to_nat (data_ptr u)) bits (current_track_data u)) u).

Section layout.
Context `{hawk_h}.

(** A gap followed by a sync field. *)
Definition gap_sync : list Z :=
  replicate (Z.to_nat HAWK_GAP_BITS) 0
  ++ replicate (Z.to_nat (HAWK_SYNC_BITS - 1)) 0 ++ [1].

(** The cells hawk_buffer_track lays down in the slot of one sector: up to
    the read of the sector's bytes, and in a completed round. *)
Definition sector_header : list Z := gap_sync ++ gap_sync.

Definition sector_frame : list Z :=
  sector_header ++ replicate (Z.to_nat (HAWK_GAP_BITS / 2)) 0.

(** Requirements on the format macros: the fields of an encoded sector fit
    the sector's slot, the slots fit the track buffer, and the byte offsets
    of an in-range track fit the 32-bit arithmetic of the offset. *)
Record geometry_ok : Prop := {
  cylinders_range : 0 < HAWK_NUM_CYLINDERS;
  sectors_range : 0 < HAWK_SECTS_PER_TRK <= 16;
  sector_bytes_range : 0 < HAWK_SECTOR_BYTES < 2 ^ 28;
  offsets_fit : HAWK_NUM_CYLINDERS * 32 * HAWK_SECTOR_BYTES < 2 ^ 32;
  gap_range : 0 <= HAWK_GAP_BITS;
  sync_range : 1 <= HAWK_SYNC_BITS;
  sector_fits :
    HAWK_GAP_BITS + HAWK_SYNC_BITS + 32 + HAWK_GAP_BITS + HAWK_SYNC_BITS
      + HAWK_SECTOR_BYTES * 8 + 16 + HAWK_GAP_BITS / 2 <= HAWK_RAW_SECTOR_BITS;
  track_fits : HAWK_SECTS_PER_TRK * HAWK_RAW_SECTOR_BITS <= HAWK_RAW_TRACK_BITS;
}.

(** [count] reads of one sector each, issued back to back from [pos] on
    the image [bytes]. *)
Fixpoint sector_reads (bytes : list Z) (pos : Z) (count : nat) : list syscall :=
  match count with
  | O => []
  | S count' =>
      sys_read pos HAWK_SECTOR_BYTES (bytes_at bytes pos HAWK_SECTOR_BYTES)
      :: sector_reads bytes (pos + HAWK_SECTOR_BYTES) count'
  end.

(** The spec's layout of the backing store: the byte offset of sector
    [(cyl, head, sector)] is [((cyl<<5) | (head<<4) | sector) * SECTOR_BYTES]. *)
Definition sector_offset (cyl head sector : Z) : Z :=
  Z.lor (Z.lor (Z.shiftl cyl 5) (Z.shiftl head 4)) sector * HAWK_SECTOR_BYTES.

(** The track buffer of a unit has its declared length. *)
Definition unit_ok (u : hawk_unit) : Prop :=
  Z.of_nat (length (current_track_data u)) = HAWK_RAW_TRACK_BITS.
End layout.

(** The clock of the process moved to [now]. *)
Definition set_clock (now : Z) (w : world) : world :=
  {| units := units w; seek_event := seek_event w; rotation_event := rotation_event w;
     scheduled := scheduled w; clock := now; dsk_changed := dsk_changed w |}.

(** ** Sample configuration

    Values in the range the comments of hawk.c describe (400-byte sectors,
    120-bit gaps, an 88-bit sync field, 16 sectors a track, 25 ms a turn),
    used to run the model on concrete inputs. *)

Definition sample_hawk_h : hawk_h := {|
  HAWK_NUM_CYLINDERS := 406;
  HAWK_SECTS_PER_TRK := 16;
  HAWK_SECTOR_BYTES := 400;
  HAWK_GAP_BITS := 120;
  HAWK_SYNC_BITS := 88;
  HAWK_RAW_SECTOR_BITS := 3724;
  HAWK_RAW_TRACK_BITS := 59584;
  HAWK_ROTATION_NS := 25000000;
  HAWK_SECTOR_NS := 1562500;
  HAWK_BIT_NS := 400;
|}.

(** A backing store holding [n] bytes of value [b]. *)
Definition sample_store (n : Z) (b : Z) : backing_store :=
  {| bs_open := true; bs_bytes := replicate (Z.to_nat n) b; bs_pos := 0;
     bs_trace := [] |}.

(** A unit at rest over [store], every cell of its track buffer set to [cell]. *)
Definition sample_unit (store : backing_store) (cell : Z) : hawk_unit :=
  {| fd := store; unit_num := 0; seeking := 0; on_cyl := 0; addr_ack := 0;
     addr_int := 0; seek_error := 0; fault := 0; current_track := 0;
     rotation_offset := 0; head_pos := 0; sector_addr := 0; data_ptr := 0;
     current_track_data := replicate (Z.to_nat (@HAWK_RAW_TRACK_BITS sample_hawk_h)) cell |}.

Definition idle_event : event_t := {| delta_ns := 0; callback := null_callback |}.

(** A process with the one unit [u] at address 0 and nothing scheduled. *)
Definition sample_world (u : hawk_unit) (now : Z) : world :=
  {| units := {[ 0%nat := u ]};
     seek_event := {| se_event := idle_event; se_unit := None; se_seek_error := 0 |};
     rotation_event := {| re_event := idle_event; re_unit := None; re_in_process := 0 |};
     scheduled := [];
     clock := now;
     dsk_changed := [] |}.

(** The same process once a seek for the unit has been scheduled with the
    pending error flag [pending]. *)
Definition sample_world_seeking (u : hawk_unit) (pending : Z) : world :=
  set_seek_event
    {| se_event := {| delta_ns := 500 * ONE_MILISECOND_NS;
                      callback := fn_hawk_seek_callback |};
       se_unit := Some 0%nat; se_seek_error := pending |}
    (sample_world (set_seeking 1 u) 0).

(** ** Vocabulary of the further properties *)

Section more_vocabulary.
Context `{hawk_h}.

(** The unit as hawk_rotation_event_cb leaves it when the clock reads [now]. *)
Definition rotation_fired (now : Z) (u : hawk_unit) : hawk_unit :=
  let rotation := rotation_at now u in
  set_data_ptr (u64 (rotation * HAWK_BIT_NS))
    (set_sector_addr (rotation / HAWK_SECTOR_NS)
       (set_head_pos (u64 (rotation * HAWK_BIT_NS)) u)).

(** The rotation event as hawk_wait_sector arms it for [unit]. *)
Definition rotation_armed (unit : unit_ptr) (delta : Z) : rotation_event_t :=
  {| re_event := {| delta_ns := delta; callback := fn_hawk_rotation_event_cb |};
     re_unit := unit; re_in_process := 1 |}.
End more_vocabulary.

(** A process with two units, at addresses 0 and 1, and nothing scheduled. *)
Definition sample_world2 (u0 u1 : hawk_unit) (now : Z) : world :=
  {| units := <[1%nat := u1]> {[ 0%nat := u0 ]};
     seek_event := {| se_event := idle_event; se_unit := None; se_seek_error := 0 |};
     rotation_event := {| re_event := idle_event; re_unit := None; re_in_process := 0 |};
     scheduled := [];
     clock := now;
     dsk_changed := [] |}.

(** A small configuration, for running whole tracks: 2 sectors of 4 bytes a
    track, 4-bit gaps, a 2-bit sync field. *)
Definition small_hawk_h : hawk_h := {|
  HAWK_NUM_CYLINDERS := 4;
  HAWK_SECTS_PER_TRK := 2;
  HAWK_SECTOR_BYTES := 4;
  HAWK_GAP_BITS := 4;
  HAWK_SYNC_BITS := 2;
  HAWK_RAW_SECTOR_BITS := 94;
  HAWK_RAW_TRACK_BITS := 188;
  HAWK_ROTATION_NS := 1000;
  HAWK_SECTOR_NS := 500;
  HAWK_BIT_NS := 1;
|}.

(** A unit at rest for the small configuration. *)
Definition small_unit (store : backing_store) (cell : Z) : hawk_unit :=
  {| fd := store; unit_num := 0; seeking := 0; on_cyl := 0; addr_ack := 0;
     addr_int := 0; seek_error := 0; fault := 0; current_track := 0;
     rotation_offset := 0; head_pos := 0; sector_addr := 0; data_ptr := 0;
     current_track_data := replicate (Z.to_nat (@HAWK_RAW_TRACK_BITS small_hawk_h)) cell |}.

(** A store whose descriptor is not valid. *)
Definition closed_store : backing_store :=
  {| bs_open := false; bs_bytes := []; bs_pos := 0; bs_trace := [] |}.

(** * Properties *)

(** ** Stepping through monadic code *)

Lemma bind_eq {S A B} (m : M S A) (k : A -> M S B) (s : S) :
  (m ≫= k) s =
  match m s with
  | Done (a, s') => k a s'
  | Abort => Abort
  | Undefined => Undefined
  end.
Proof. reflexivity. Qed.

Lemma bind_Done {S A B} (m : M S A) (k : A -> M S B) (s s' : S) (a : A) :
  m s = Done (a, s') -> (m ≫= k) s = k a s'.
Proof. intros E. rewrite bind_eq, E. reflexivity. Qed.

Lemma at_unit_eq {A} (a : nat) (m : M hawk_unit A) (w : world) (u : hawk_unit) :
  units w !! a = Some u ->
  at_unit (Some a) m w =
  match m u with
  | Done (x, u') => Done (x, with_unit a u' w)
  | Abort => Abort
  | Undefined => Undefined
  end.
Proof. intros E. unfold at_unit. rewrite E. reflexivity. Qed.

Lemma units_with_unit (a : nat) (u : hawk_unit) (w : world) :
  units (with_unit a u w) !! a = Some u.
Proof. unfold with_unit. cbn. apply lookup_insert_eq. Qed.

Lemma with_unit_with_unit (a : nat) (u u' : hawk_unit) (w : world) :
  with_unit a u' (with_unit a u w) = with_unit a u' w.
Proof. unfold with_unit, set_units. cbn. rewrite insert_insert_eq. reflexivity. Qed.

Lemma with_unit_id (a : nat) (u : hawk_unit) (w : world) :
  units w !! a = Some u -> with_unit a u w = w.
Proof.
  intros E. unfold with_unit, set_units. rewrite (insert_id _ _ _ E).
  destruct w; reflexivity.
Qed.

Ltac mred1 :=
  cbn [mret M_ret get put modify assert abort undefined
       schedule_event get_current_time dsk_hawk_changed
       seek_event_set_delta_ns seek_event_set_callback seek_event_set_unit
       seek_event_set_seek_error rotation_event_set_delta_ns
       rotation_event_set_callback rotation_event_set_unit
       rotation_event_set_in_process].

(** Running straight-line code: reduce the monad's plumbing, then execute
    the next access to [*unit] in a state where the unit is known. *)
Ltac mred :=
  repeat first [ rewrite bind_eq | progress mred1 ].

Ltac world_fields :=
  cbn [units seek_event rotation_event scheduled clock dsk_changed
       set_units set_seek_event set_rotation_event set_scheduled
       set_dsk_changed set_clock with_unit].

Ltac unit_step :=
  erewrite at_unit_eq by
    (first [ apply units_with_unit | eassumption
           | world_fields; first [ apply lookup_insert_eq | eassumption ] ]);
  mred.

(** Two process states built by the same assignments are equal. *)
Ltac world_eq :=
  unfold with_unit; world_fields; rewrite ?insert_insert_eq; reflexivity.

(** ** Seek completion *)

Lemma seek_completed_fields (pending : Z) (u : hawk_unit) :
  let u' := seek_completed pending u in
  on_cyl u' = 1 /\ seeking u' = 0 /\
  seek_error u' = (if pending =? 0 then seek_error u else pending) /\
  fault u' = fault u /\ current_track u' = current_track u /\
  current_track_data u' = current_track_data u /\ fd u' = fd u.
Proof. unfold seek_completed. cbn. destruct (pending =? 0); cbn; auto 10. Qed.

Lemma hawk_seek_callback_eq (w : world) (a : nat) (u : hawk_unit) (late_ns : Z) :
  se_unit (seek_event w) = Some a ->
  units w !! a = Some u ->
  hawk_seek_callback seek_event_event late_ns w
  = Done (tt, set_dsk_changed (dsk_changed w ++ [unit_num u])
                (with_unit a (seek_completed (se_seek_error (seek_event w)) u) w)).
Proof.
  intros Hp Hu. unfold hawk_seek_callback, seek_completed.
  rewrite bool_decide_eq_true_2 by reflexivity.
  mred. rewrite Hp.
  destruct (se_seek_error (seek_event w) =? 0) eqn:E; cbn [negb]; mred;
    repeat unit_step; rewrite ?with_unit_with_unit; reflexivity.
Qed.

(** C1: when the seek-completion callback fires, the unit the seek event
    points at ends with on_cyl = 1 and seeking = 0, whether or not an error
    is pending; the callback writes the pending error flag into the unit's
    seek_error exactly when that flag is set, and otherwise leaves
    seek_error as it was.  The controller is then notified. *)
Theorem hawk_seek_callback_completes
    (w : world) (a : nat) (u : hawk_unit) (late_ns : Z) :
  se_unit (seek_event w) = Some a ->
  units w !! a = Some u ->
  let pending := se_seek_error (seek_event w) in
  exists u' : hawk_unit,
    hawk_seek_callback seek_event_event late_ns w
      = Done (tt, set_dsk_changed (dsk_changed w ++ [unit_num u]) (with_unit a u' w))
    /\ on_cyl u' = 1 /\ seeking u' = 0
    /\ (pending <> 0 -> seek_error u' = pending)
    /\ (pending = 0 -> seek_error u' = seek_error u)
    /\ (seek_error u' <> seek_error u <-> pending <> 0 /\ pending <> seek_error u)
    /\ (seek_error u = 0 -> (seek_error u' <> 0 <-> pending <> 0)).
Proof.
  intros Hp Hu pending.
  exists (seek_completed pending u).
  split; [apply hawk_seek_callback_eq; assumption|].
  destruct (seek_completed_fields pending u) as (Hc & Hs & He & _).
  cbv zeta in Hc, Hs, He. rewrite Hc, Hs, He.
  destruct (Z.eqb_spec pending 0); intuition congruence.
Qed.

(** ** Seek requests that schedule nothing *)

Lemma hawk_seek_busy `{hawk_h} (w : world) (a : nat) (u : hawk_unit) (cyl head : Z) :
  units w !! a = Some u ->
  seeking u <> 0 ->
  hawk_seek (Some a) cyl head w = Done (tt, w).
Proof.
  intros Hu Hs. unfold hawk_seek. mred. unit_step.
  rewrite (with_unit_id _ _ _ Hu).
  destruct (Z.eqb_spec (seeking u) 0); [contradiction|]. reflexivity.
Qed.

Lemma hawk_seek_out_of_range `{hawk_h} (w : world) (a : nat) (u : hawk_unit) (cyl head : Z) :
  units w !! a = Some u ->
  seeking u = 0 ->
  HAWK_NUM_CYLINDERS <= cyl ->
  hawk_seek (Some a) cyl head w
    = Done (tt, with_unit a (set_addr_int 1 (seek_begun cyl head u)) w).
Proof.
  intros Hu Hs Hc. unfold hawk_seek. mred. unit_step.
  rewrite (with_unit_id _ _ _ Hu), Hs. cbn [Z.eqb negb].
  mred. do 5 unit_step.
  destruct (Z.leb_spec HAWK_NUM_CYLINDERS cyl); [|lia].
  unit_step. rewrite ?with_unit_with_unit. reflexivity.
Qed.

Lemma seek_all_busy `{hawk_h} (w : world) (a : nat) (u : hawk_unit)
    (requests : list (Z * Z)) :
  units w !! a = Some u ->
  seeking u <> 0 ->
  seek_all (Some a) requests w = Done (tt, w).
Proof.
  intros Hu Hs. induction requests as [|[cyl head] rest IH]; [reflexivity|].
  cbn [seek_all]. rewrite bind_eq, (hawk_seek_busy w a u cyl head Hu Hs). exact IH.
Qed.

(** C4: a seek whose target cylinder is at or past the cylinder count, on a
    unit that is not seeking, raises addr_int and returns: nothing is
    scheduled, the seek event, the backing store and the track buffer are as
    before, and seeking stays set. *)
Theorem hawk_seek_past_end_of_disk `{hawk_h}
    (w : world) (a : nat) (u : hawk_unit) (cyl head : Z) :
  units w !! a = Some u ->
  seeking u = 0 ->
  HAWK_NUM_CYLINDERS <= cyl ->
  exists (w' : world) (u' : hawk_unit),
    hawk_seek (Some a) cyl head w = Done (tt, w')
    /\ units w' !! a = Some u'
    /\ addr_int u' = 1
    /\ seeking u' = 1
    /\ scheduled w' = scheduled w
    /\ seek_event w' = seek_event w
    /\ fd u' = fd u
    /\ current_track_data u' = current_track_data u
    /\ data_ptr u' = data_ptr u.
Proof.
  intros Hu Hs Hc.
  exists (with_unit a (set_addr_int 1 (seek_begun cyl head u)) w),
         (set_addr_int 1 (seek_begun cyl head u)).
  split; [apply hawk_seek_out_of_range; assumption|].
  split; [apply units_with_unit|].
  cbn. auto 10.
Qed.

(** ** Machine arithmetic *)

Lemma u64_small (x : Z) : 0 <= x < 2 ^ 64 -> u64 x = x.
Proof. intros Hx. unfold u64, wrap. apply Z.mod_small. exact Hx. Qed.

Lemma u32_small (x : Z) : 0 <= x < 2 ^ 32 -> u32 x = x.
Proof. intros Hx. unfold u32, wrap. apply Z.mod_small. exact Hx. Qed.

Lemma u64_range (x : Z) : 0 <= u64 x < 2 ^ 64.
Proof. unfold u64, wrap. apply Z.mod_pos_bound. lia. Qed.

Lemma s64_small (x : Z) : - 2 ^ 63 <= x < 2 ^ 63 -> s64 x = x.
Proof.
  intros Hx. unfold s64, u64, wrap.
  destruct (Z.neg_nonneg_cases x) as [Hneg|Hpos].
  - replace (x mod 2 ^ 64) with (x + 2 ^ 64).
    + destruct (Z.ltb_spec (x + 2 ^ 64) (2 ^ 63)); lia.
    + rewrite <- (Z_mod_plus_full x 1 (2 ^ 64)).
      symmetry. apply Z.mod_small. lia.
  - rewrite Z.mod_small by lia.
    destruct (Z.ltb_spec x (2 ^ 63)); lia.
Qed.

(** ** Rotation *)

Section rotation.
Context `{hawk_h}.
Hypothesis timing : timing_ok.

Lemma rotation_ns_u64 : u64 HAWK_ROTATION_NS = HAWK_ROTATION_NS.
Proof. destruct timing as [[? ?] _ _ _]. apply u64_small. lia. Qed.

Lemma rotation_at_range (now : Z) (u : hawk_unit) :
  0 <= rotation_at now u < HAWK_ROTATION_NS.
Proof.
  unfold rotation_at. rewrite rotation_ns_u64.
  apply Z.mod_pos_bound. destruct timing as [[? ?] _ _ _]. lia.
Qed.

(** Without overflow of the 64-bit sum the phase is the spec's formula. *)
Lemma rotation_at_exact (now : Z) (u : hawk_unit) :
  0 <= now + rotation_offset u < 2 ^ 64 ->
  rotation_at now u = (now + rotation_offset u) mod HAWK_ROTATION_NS.
Proof.
  intros Hr. unfold rotation_at. rewrite rotation_ns_u64, u64_small by exact Hr.
  reflexivity.
Qed.

Lemma rotation_at_period (now : Z) (u : hawk_unit) :
  0 <= now + rotation_offset u ->
  now + rotation_offset u + HAWK_ROTATION_NS < 2 ^ 64 ->
  rotation_at (now + HAWK_ROTATION_NS) u = rotation_at now u.
Proof.
  intros H0 H1. destruct timing as [[? ?] _ _ _].
  rewrite !rotation_at_exact by lia.
  replace (now + HAWK_ROTATION_NS + rotation_offset u)
    with (now + rotation_offset u + 1 * HAWK_ROTATION_NS) by lia.
  apply Z_mod_plus_full.
Qed.

Lemma hawk_update_eq (now : Z) (u : hawk_unit) :
  hawk_update now u
  = Done (tt, set_sector_addr (rotation_at now u / HAWK_SECTOR_NS)
                (set_head_pos (u64 (rotation_at now u * HAWK_BIT_NS)) u)).
Proof. reflexivity. Qed.

Lemma head_pos_exact (now : Z) (u : hawk_unit) :
  u64 (rotation_at now u * HAWK_BIT_NS) = rotation_at now u * HAWK_BIT_NS.
Proof.
  pose proof (rotation_at_range now u) as Hr.
  destruct timing as [[? ?] _ _ [? ?]].
  apply u64_small. nia.
Qed.
End rotation.

(** C6, as the code has it: while the 64-bit sum of the time and the unit's
    offset does not overflow, the rotation query is the function
    rotation_phase = (T + rotation_offset) mod HAWK_ROTATION_NS,
    head_pos = rotation_phase * HAWK_BIT_NS,
    sector_addr = rotation_phase / HAWK_SECTOR_NS, and it is periodic:
    position(T) = position(T + HAWK_ROTATION_NS) for every T for which
    T + HAWK_ROTATION_NS + rotation_offset still fits 64 bits. *)
Theorem hawk_update_periodic `{hawk_h} (T : Z) (u : hawk_unit) :
  timing_ok ->
  0 <= T + rotation_offset u ->
  T + rotation_offset u + HAWK_ROTATION_NS < 2 ^ 64 ->
  let rotation_phase := (T + rotation_offset u) mod HAWK_ROTATION_NS in
  hawk_update T u
    = Done (tt, set_sector_addr (rotation_phase / HAWK_SECTOR_NS)
                  (set_head_pos (rotation_phase * HAWK_BIT_NS) u))
  /\ position T u
     = Some (rotation_phase * HAWK_BIT_NS, rotation_phase / HAWK_SECTOR_NS)
  /\ position (T + HAWK_ROTATION_NS) u = position T u.
Proof.
  intros Ht H0 H1 phase.
  assert (Hpos : 0 < HAWK_ROTATION_NS) by (destruct Ht as [[? ?] _ _ _]; lia).
  assert (Hphase : rotation_at T u = phase)
    by (apply rotation_at_exact; [exact Ht | lia]).
  assert (Hupd : hawk_update T u
    = Done (tt, set_sector_addr (phase / HAWK_SECTOR_NS)
                  (set_head_pos (phase * HAWK_BIT_NS) u))).
  { rewrite hawk_update_eq, (head_pos_exact Ht), Hphase. reflexivity. }
  split; [exact Hupd|]. split.
  - unfold position. rewrite Hupd. reflexivity.
  - unfold position. rewrite !hawk_update_eq.
    rewrite (rotation_at_period Ht) by assumption. reflexivity.
Qed.

(** C6 as stated fails where the 64-bit sum wraps: with rotation_offset = 1
    and T = 2^64 - 1 - HAWK_ROTATION_NS the query at T sees phase
    2^64 mod 25000000 = 9551616 (sector 6), the query one period later sees
    the sum wrapped to 0 (sector 0). *)
Lemma hawk_update_not_periodic_at_wrap :
  let u := set_rotation_offset 1 (sample_unit (sample_store 0 0) 0) in
  let T := 2 ^ 64 - 1 - @HAWK_ROTATION_NS sample_hawk_h in
  (0 <= T < 2 ^ 64 /\ 0 <= T + @HAWK_ROTATION_NS sample_hawk_h < 2 ^ 64) /\
  @position sample_hawk_h T u = Some (9551616 * 400, 6) /\
  @position sample_hawk_h (T + @HAWK_ROTATION_NS sample_hawk_h) u = Some (0, 0) /\
  @position sample_hawk_h (T + @HAWK_ROTATION_NS sample_hawk_h) u
    <> @position sample_hawk_h T u.
Proof.
  cbv zeta. split; [cbn; lia|].
  split; [vm_compute; reflexivity|].
  split; [vm_compute; reflexivity|].
  vm_compute. discriminate.
Qed.

(** ** Waiting for a sector *)

Section wait.
Context `{hawk_h}.
Hypothesis timing : timing_ok.

Lemma wait_delta_eq (rotation sector : Z) :
  0 <= sector < HAWK_SECTS_PER_TRK ->
  0 <= rotation < HAWK_ROTATION_NS ->
  let target := HAWK_SECTOR_NS * sector in
  wait_delta rotation sector
    = (if target - rotation <? 0 then target - rotation + HAWK_ROTATION_NS
       else target - rotation)
  /\ 0 <= wait_delta rotation sector < HAWK_ROTATION_NS
  /\ (wait_delta rotation sector = 0 <-> rotation = target).
Proof.
  intros Hs Hr target.
  destruct timing as [[? ?] ? ? _].
  assert (Ht : 0 <= target < HAWK_ROTATION_NS) by (unfold target; nia).
  unfold wait_delta. fold target.
  rewrite (u64_small target) by lia.
  rewrite s64_small by lia.
  destruct (Z.ltb_spec (target - rotation) 0); (split; [reflexivity|]); lia.
Qed.
End wait.

(** C7, as the code has it: for a target sector below the sectors-per-track
    count (and no rotation event in flight), hawk_wait_sector schedules one
    rotation event whose delay is target_phase - current_phase, plus one full
    period when that difference is negative, so the delay lies in
    [0, HAWK_ROTATION_NS); it is 0 exactly when the current phase is the
    start of the target sector.  When the event fires, hawk_update runs at the
    time of firing and data_ptr is set to head_pos. *)
Theorem hawk_wait_sector_schedules `{hawk_h}
    (w : world) (a : nat) (u : hawk_unit) (sector : Z) :
  timing_ok ->
  units w !! a = Some u ->
  re_in_process (rotation_event w) = 0 ->
  0 <= sector < HAWK_SECTS_PER_TRK ->
  let current_phase := rotation_at (clock w) u in
  let target_phase := HAWK_SECTOR_NS * sector in
  let delta := if target_phase - current_phase <? 0
               then target_phase - current_phase + HAWK_ROTATION_NS
               else target_phase - current_phase in
  exists w1 : world,
    hawk_wait_sector (Some a) sector w = Done (tt, w1)
    /\ scheduled w1
       = scheduled w ++ [(rotation_event_event,
                          {| delta_ns := delta; callback := fn_hawk_rotation_event_cb |})]
    /\ 0 <= delta < HAWK_ROTATION_NS
    /\ (delta = 0 <-> current_phase = target_phase)
    /\ forall now late_ns : Z,
         exists (w2 : world) (u2 : hawk_unit),
           fire rotation_event_event late_ns (set_clock now w1) = Done (tt, w2)
           /\ units w2 !! a = Some u2
           /\ position now u = Some (head_pos u2, sector_addr u2)
           /\ data_ptr u2 = head_pos u2
           /\ re_in_process (rotation_event w2) = 0
           /\ dsk_changed w2 = dsk_changed w ++ [unit_num u].
Proof.
  intros Ht Hu Hp Hs current_phase target_phase delta.
  destruct (wait_delta_eq Ht current_phase sector Hs (rotation_at_range Ht _ _))
    as (Hd & Hrange & Hzero).
  fold target_phase in Hd, Hzero. fold delta in Hd. rewrite Hd in Hrange, Hzero.
  eexists. split; [|split; [|split; [exact Hrange|split; [exact Hzero|]]]].
  - unfold hawk_wait_sector. mred. unit_step.
    rewrite (with_unit_id _ _ _ Hu), Hp. cbn [Z.eqb]. mred.
    fold current_phase. rewrite Hd. reflexivity.
  - reflexivity.
  - intros now late_ns.
    set (u1 := set_sector_addr (rotation_at now u / HAWK_SECTOR_NS)
                 (set_head_pos (u64 (rotation_at now u * HAWK_BIT_NS)) u)).
    eexists. exists (set_data_ptr (head_pos u1) u1).
    split; [|split; [|split; [|split; [|split]]]].
    + unfold fire. mred. cbn [event_at rotation_event set_clock set_scheduled
        set_rotation_event re_event callback].
      unfold hawk_rotation_event_cb.
      rewrite bool_decide_eq_true_2 by reflexivity. mred.
      cbn [rotation_event set_rotation_event set_clock set_scheduled re_unit clock].
      unit_step. rewrite hawk_update_eq. mred. fold u1. unit_step. unit_step.
      rewrite ?with_unit_with_unit. reflexivity.
    + apply units_with_unit.
    + unfold position. rewrite hawk_update_eq. reflexivity.
    + reflexivity.
    + reflexivity.
    + reflexivity.
Qed.

(** C7 as stated: with the head over the target sector but past its start
    (phase 1 of sector 0), the delay is one period less 1 ns, not 0. *)
Lemma hawk_wait_sector_over_target_not_immediate :
  let u := sample_unit (sample_store 0 0) 0 in
  let w := sample_world u 1 in
  0 <= 0 < @HAWK_SECTS_PER_TRK sample_hawk_h /\
  @position sample_hawk_h (clock w) u = Some (400, 0) /\
  (scheduled <$> final (@hawk_wait_sector sample_hawk_h (Some 0%nat) 0 w))
    = Some [(rotation_event_event,
             {| delta_ns := 24999999; callback := fn_hawk_rotation_event_cb |})].
Proof.
  cbv zeta. split; [cbn; lia|].
  split; vm_compute; reflexivity.
Qed.

(** ** The bit primitives *)

Lemma emit_nil (u : hawk_unit) : emit [] u = u.
Proof. destruct u. unfold emit. cbn. rewrite Z.add_0_r. reflexivity. Qed.

Lemma emit_emit (k1 k2 : list Z) (u : hawk_unit) :
  0 <= data_ptr u -> emit k2 (emit k1 u) = emit (k1 ++ k2) u.
Proof.
  intros Hp. unfold emit. cbn.
  rewrite list_inserts_app_l, length_app, Nat2Z.inj_add, Z.add_assoc.
  replace (Z.to_nat (data_ptr u + Z.of_nat (length k1)))
    with (length k1 + Z.to_nat (data_ptr u))%nat by lia.
  reflexivity.
Qed.

Lemma poke_eq (val : Z) (u : hawk_unit) :
  0 <= data_ptr u < Z.of_nat (length (current_track_data u)) ->
  poke val u = Done (tt, emit [val] u).
Proof.
  intros [H0 H1]. unfold poke.
  destruct (Z.leb_spec 0 (data_ptr u)); [|lia].
  destruct (Z.ltb_spec (data_ptr u) (Z.of_nat (length (current_track_data u)))); [|lia].
  reflexivity.
Qed.

Lemma set_bits_loop_eq (n : nat) (val : Z) (u : hawk_unit) :
  0 <= data_ptr u ->
  data_ptr u + Z.of_nat n <= Z.of_nat (length (current_track_data u)) ->
  set_bits_loop n val u = Done (tt, emit (replicate n val) u).
Proof.
  revert u. induction n as [|n IH]; intros u H0 H1.
  - cbn. rewrite emit_nil. reflexivity.
  - cbn [set_bits_loop]. rewrite bind_eq, poke_eq by lia.
    rewrite IH.
    + rewrite emit_emit by lia. reflexivity.
    + cbn. lia.
    + cbn. rewrite length_insert. lia.
Qed.

Lemma hawk_set_bits_eq (count val : Z) (u : hawk_unit) :
  0 <= count ->
  0 <= data_ptr u ->
  data_ptr u + count <= Z.of_nat (length (current_track_data u)) ->
  hawk_set_bits count val u
    = Done (tt, emit (replicate (Z.to_nat count) (Z.land val 1)) u).
Proof.
  intros Hc H0 H1. unfold hawk_set_bits.
  destruct (Z.ltb_spec count 0); [lia|].
  apply set_bits_loop_eq; lia.
Qed.

Lemma write_bits_for_S (shift : nat) (byte count : Z) :
  write_bits_for (S shift) byte count
  = if count =? INT_MIN then undefined
    else if negb (count =? 0) then mret None
    else poke (Z.land (Z.shiftr byte (Z.of_nat (S shift))) 1) ;;
         write_bits_for shift byte (count - 1).
Proof. reflexivity. Qed.

(** hawk_write_bits tests [count] before it stores anything and returns when
    it is not zero: with a non-zero count it writes nothing at all. *)
Lemma hawk_write_bits_nonzero (count : Z) (data : list Z) (u : hawk_unit) :
  count <> 0 -> count <> INT_MIN -> data <> [] ->
  hawk_write_bits count data u = Done (tt, u).
Proof.
  intros Hc Hm Hd. destruct data as [|byte data]; [contradiction|].
  cbn [hawk_write_bits]. rewrite bind_eq.
  change 7%nat with (S 6). rewrite write_bits_for_S.
  destruct (Z.eqb_spec count INT_MIN); [contradiction|].
  destruct (Z.eqb_spec count 0); [contradiction|].
  reflexivity.
Qed.

(** With a zero count it stores one cell, bit 7 of the first byte. *)
Lemma hawk_write_bits_zero (byte : Z) (data : list Z) (u : hawk_unit) :
  0 <= data_ptr u < Z.of_nat (length (current_track_data u)) ->
  hawk_write_bits 0 (byte :: data) u
    = Done (tt, emit [Z.land (Z.shiftr byte 7) 1] u).
Proof.
  intros Hp. cbn [hawk_write_bits]. rewrite bind_eq.
  change 7%nat with (S 6). rewrite write_bits_for_S.
  change (0 =? INT_MIN) with false. change (negb (0 =? 0)) with false. cbv iota.
  rewrite bind_eq, poke_eq by exact Hp.
  change 6%nat with (S 5). rewrite write_bits_for_S.
  change (0 - 1 =? INT_MIN) with false. change (negb (0 - 1 =? 0)) with true.
  reflexivity.
Qed.

Lemma read_bits_for_S (shift : nat) (byte count : Z) :
  read_bits_for (S shift) byte count
  = (bit ← peek;
     let bit := u8 (Z.shiftl bit (Z.of_nat (S shift))) in
     let byte := Z.lor byte bit in
     if count =? INT_MIN then undefined
     else if negb (count - 1 =? 0) then mret (byte, None)
     else read_bits_for shift byte (count - 1)).
Proof. reflexivity. Qed.

(** hawk_read_bits returns as soon as the decremented count is not zero:
    asked for any number of bits other than one, it reads a single cell and
    stores a single byte holding that cell in bit 7. *)
Lemma hawk_read_bits_one_cell (count cell d0 : Z) (dest : list Z) (u : hawk_unit) :
  count <> 1 -> count <> INT_MIN ->
  0 <= data_ptr u ->
  current_track_data u !! Z.to_nat (data_ptr u) = Some cell ->
  hawk_read_bits count (d0 :: dest) u
    = Done (Z.lor 0 (u8 (Z.shiftl cell 7)) :: dest, set_data_ptr (data_ptr u + 1) u).
Proof.
  intros Hc Hm Hp Hcell.
  cbn [hawk_read_bits]. rewrite bind_eq.
  change 7%nat with (S 6). rewrite read_bits_for_S, bind_eq.
  unfold peek. destruct (Z.leb_spec 0 (data_ptr u)); [|lia].
  rewrite Hcell.
  destruct (Z.eqb_spec count INT_MIN); [contradiction|].
  destruct (Z.eqb_spec (count - 1) 0); [lia|].
  reflexivity.
Qed.

(** ** The backing store *)

Lemma read_eq (nbyte : Z) (b : backing_store) :
  read nbyte b
  = if bs_open b then
      let got := bytes_at (bs_bytes b) (bs_pos b) nbyte in
      Done ((Z.of_nat (length got), got),
            {| bs_open := true; bs_bytes := bs_bytes b;
               bs_pos := bs_pos b + Z.of_nat (length got);
               bs_trace := bs_trace b ++ [sys_read (bs_pos b) nbyte got] |})
    else
      Done ((-1, []),
            {| bs_open := false; bs_bytes := bs_bytes b; bs_pos := bs_pos b;
               bs_trace := bs_trace b ++ [sys_read (bs_pos b) nbyte []] |}).
Proof. reflexivity. Qed.

Lemma read_full_nonempty (nbyte n : Z) (buf : list Z) (b b' : backing_store) :
  read nbyte b = Done ((n, buf), b') -> n = nbyte -> 0 < nbyte -> buf <> [].
Proof.
  rewrite read_eq. destruct (bs_open b); intros E Hn Hpos.
  - cbv zeta in E. injection E as E1 E2 _. intros Hnil.
    rewrite E2, Hnil in E1. cbn in E1. lia.
  - injection E as E1 E2 _. lia.
Qed.

Lemma length_bytes_at (bytes : list Z) (pos nbyte : Z) :
  0 <= pos -> 0 < nbyte ->
  (Z.of_nat (length (bytes_at bytes pos nbyte)) = nbyte
   <-> pos + nbyte <= Z.of_nat (length bytes)).
Proof.
  intros Hp Hn. unfold bytes_at. rewrite length_take, length_drop. lia.
Qed.

(** ** Materializing one sector *)

Section sector.
Context `{hawk_h}.
Hypothesis geometry : geometry_ok.

Lemma length_gap_sync :
  Z.of_nat (length gap_sync) = HAWK_GAP_BITS + HAWK_SYNC_BITS.
Proof.
  destruct geometry. unfold gap_sync.
  rewrite !length_app, !length_replicate. cbn [length]. lia.
Qed.

(** The cells one round of the sector loop lays down before it reads the
    sector's bytes, and after. *)
Lemma buffer_sector_eq (cyl head sector : Z) (u : hawk_unit) :
  0 <= sector ->
  (sector + 1) * HAWK_RAW_SECTOR_BITS <= Z.of_nat (length (current_track_data u)) ->
  buffer_sector cyl head sector u
  = match read HAWK_SECTOR_BYTES (fd u) with
    | Done ((n, buffer), b) =>
        let u1 := set_fd b (emit sector_header
                              (set_data_ptr (sector * HAWK_RAW_SECTOR_BITS) u)) in
        if n =? HAWK_SECTOR_BYTES
        then Done (true, emit (replicate (Z.to_nat (HAWK_GAP_BITS / 2)) 0) u1)
        else Done (false, u1)
    | Abort => Abort
    | Undefined => Undefined
    end.
Proof.
  intros Hs Hlen.
  pose proof length_gap_sync as Hgs.
  destruct geometry as [? ? [? ?] ? ? ? ? ?].
  assert (Hq : Z.quot HAWK_GAP_BITS 2 = HAWK_GAP_BITS / 2)
    by (apply Z.quot_div_nonneg; lia).
  assert (Hh : 0 <= HAWK_GAP_BITS / 2) by (apply Z.div_pos; lia).
  assert (Hraw : 0 <= sector * HAWK_RAW_SECTOR_BITS) by nia.
  unfold buffer_sector. rewrite bind_eq. cbn [modify].
  set (u0 := set_data_ptr (sector * HAWK_RAW_SECTOR_BITS) u).
  assert (Hu0 : data_ptr u0 = sector * HAWK_RAW_SECTOR_BITS) by reflexivity.
  assert (Hl0 : current_track_data u0 = current_track_data u) by reflexivity.
  (* first gap and sync *)
  rewrite bind_eq, hawk_set_bits_eq by (rewrite ?Hu0, ?Hl0; lia).
  rewrite bind_eq, hawk_set_bits_eq
    by (cbn [emit data_ptr current_track_data set_data_ptr set_current_track_data];
        rewrite ?length_inserts, ?length_replicate, ?Hu0, ?Hl0; lia).
  rewrite emit_emit by (rewrite Hu0; lia).
  rewrite bind_eq, hawk_set_bits_eq
    by (cbn [emit data_ptr current_track_data set_data_ptr set_current_track_data];
        rewrite ?length_inserts, ?length_app, ?length_replicate, ?Hu0, ?Hl0; lia).
  rewrite emit_emit by (rewrite Hu0; lia).
  change (Z.land 0 1) with 0. change (Z.land 1 1) with 1.
  change (replicate (Z.to_nat 1) 1) with [1].
  rewrite <- app_assoc. fold gap_sync.
  (* the address field: nothing is written *)
  rewrite bind_eq, hawk_write_bits_nonzero;
    [| lia | unfold INT_MIN; lia | unfold addr_data; discriminate ].
  (* second gap and sync *)
  rewrite bind_eq, hawk_set_bits_eq
    by (cbn [emit data_ptr current_track_data set_data_ptr set_current_track_data];
        rewrite ?length_inserts, ?Hu0, ?Hl0; lia).
  rewrite emit_emit by (rewrite Hu0; lia).
  rewrite bind_eq, hawk_set_bits_eq
    by (cbn [emit data_ptr current_track_data set_data_ptr set_current_track_data];
        rewrite ?length_inserts, ?length_app, ?length_replicate, ?Hu0, ?Hl0; lia).
  rewrite emit_emit by (rewrite Hu0; lia).
  rewrite bind_eq, hawk_set_bits_eq
    by (cbn [emit data_ptr current_track_data set_data_ptr set_current_track_data];
        rewrite ?length_inserts, ?length_app, ?length_replicate, ?Hu0, ?Hl0; lia).
  rewrite emit_emit by (rewrite Hu0; lia).
  change (Z.land 0 1) with 0. change (Z.land 1 1) with 1.
  change (replicate (Z.to_nat 1) 1) with [1].
  rewrite <- !app_assoc.
  change (replicate (Z.to_nat HAWK_GAP_BITS) 0
          ++ replicate (Z.to_nat (HAWK_SYNC_BITS - 1)) 0 ++ [1]) with gap_sync.
  (* the sector's bytes *)
  rewrite bind_eq. unfold on_fd at 1.
  change (fd (emit (gap_sync ++ gap_sync) u0)) with (fd u).
  destruct (read HAWK_SECTOR_BYTES (fd u)) as [[[n buffer] b]| |] eqn:Eread;
    [|reflexivity|reflexivity].
  cbv zeta.
  destruct (Z.eqb_spec n HAWK_SECTOR_BYTES) as [Hn|Hn]; cbn [negb]; [|reflexivity].
  (* data and CRC: nothing is written; then the trailer *)
  rewrite bind_eq, hawk_write_bits_nonzero;
    [| lia | unfold INT_MIN; lia
     | exact (read_full_nonempty _ _ _ _ _ Eread Hn ltac:(lia)) ].
  rewrite bind_eq, hawk_write_bits_nonzero;
    [| lia | unfold INT_MIN; lia | discriminate ].
  rewrite bind_eq, Hq, hawk_set_bits_eq
    by (cbn [emit data_ptr current_track_data set_data_ptr set_current_track_data
             set_fd];
        rewrite ?length_inserts, ?length_app, ?Hu0, ?Hl0; lia).
  reflexivity.
Qed.
End sector.

(** ** Materializing a track: the buffer *)

Section track_buffer.
Context `{hawk_h}.
Hypothesis geometry : geometry_ok.

Lemma length_sector_header :
  Z.of_nat (length sector_header) = 2 * (HAWK_GAP_BITS + HAWK_SYNC_BITS).
Proof.
  unfold sector_header. rewrite length_app, Nat2Z.inj_add, (length_gap_sync geometry).
  lia.
Qed.

Lemma length_sector_frame :
  Z.of_nat (length sector_frame)
  = 2 * (HAWK_GAP_BITS + HAWK_SYNC_BITS) + HAWK_GAP_BITS / 2.
Proof.
  assert (0 <= HAWK_GAP_BITS / 2)
    by (apply Z.div_pos; [apply (gap_range geometry) | lia]).
  unfold sector_frame.
  rewrite length_app, Nat2Z.inj_add, length_sector_header, length_replicate. lia.
Qed.

Lemma sector_frame_fits : Z.of_nat (length sector_frame) <= HAWK_RAW_SECTOR_BITS.
Proof.
  rewrite length_sector_frame.
  destruct geometry as [? ? [? ?] ? ? ? ? ?]. lia.
Qed.

Lemma sector_header_prefix (j : nat) :
  (j < length sector_header)%nat -> sector_frame !! j = sector_header !! j.
Proof. intros Hj. unfold sector_frame. apply lookup_app_l. exact Hj. Qed.

(** The rounds of the sector loop from [sector] on: the loop returns 0 or
    1, touches only the store, the cursor and the cells of the buffer from
    the slot of [sector] on, always lays down the header of [sector], and
    when it returns 1 has laid down the frame of every sector it ran. *)
Lemma buffer_track_for_buffer (n : nat) (cyl head sector : Z) (u : hawk_unit) :
  0 <= sector ->
  (sector + Z.of_nat n) * HAWK_RAW_SECTOR_BITS
    <= Z.of_nat (length (current_track_data u)) ->
  exists (r : Z) (b : backing_store) (p : Z) (l : list Z),
    buffer_track_for n cyl head sector u
      = Done (r, set_fd b (set_data_ptr p (set_current_track_data l u)))
    /\ (r = 0 \/ r = 1)
    /\ length l = length (current_track_data u)
    /\ (forall i : nat, Z.of_nat i < sector * HAWK_RAW_SECTOR_BITS ->
          l !! i = current_track_data u !! i)
    /\ ((0 < n)%nat -> forall j : nat, (j < length sector_header)%nat ->
          l !! (Z.to_nat (sector * HAWK_RAW_SECTOR_BITS) + j)%nat
          = sector_header !! j)
    /\ (r = 1 -> forall k j : nat, (k < n)%nat -> (j < length sector_frame)%nat ->
          l !! (Z.to_nat ((sector + Z.of_nat k) * HAWK_RAW_SECTOR_BITS) + j)%nat
          = sector_frame !! j).
Proof.
  revert sector u. induction n as [|n IH]; intros sector u Hs Hlen.
  - exists 1, (fd u), (data_ptr u), (current_track_data u).
    split; [destruct u; reflexivity|].
    split; [auto|]. split; [reflexivity|]. split; [reflexivity|].
    split; intros; lia.
  - pose proof sector_frame_fits as Hfit.
    pose proof length_sector_header as Hhdr.
    pose proof length_sector_frame as Hfrm.
    assert (Hgap : 0 <= HAWK_GAP_BITS / 2)
      by (apply Z.div_pos; [apply (gap_range geometry) | lia]).
    assert (Hraw : 0 <= HAWK_RAW_SECTOR_BITS) by lia.
    assert (Hbase : 0 <= sector * HAWK_RAW_SECTOR_BITS) by nia.
    assert (Hslot : (sector + 1) * HAWK_RAW_SECTOR_BITS
                    <= Z.of_nat (length (current_track_data u))) by nia.
    cbn [buffer_track_for]. rewrite bind_eq, (buffer_sector_eq geometry) by assumption.
    destruct (read HAWK_SECTOR_BYTES (fd u)) as [[[m buffer] b]| |] eqn:Eread;
      [|rewrite read_eq in Eread; destruct (bs_open (fd u)); discriminate ..].
    cbv zeta. set (u0 := set_data_ptr (sector * HAWK_RAW_SECTOR_BITS) u).
    destruct (m =? HAWK_SECTOR_BYTES).
    + (* the round completed: the remaining rounds run on *)
      change (emit (replicate (Z.to_nat (HAWK_GAP_BITS / 2)) 0)
                (set_fd b (emit sector_header u0)))
        with (set_fd b (emit (replicate (Z.to_nat (HAWK_GAP_BITS / 2)) 0)
                         (emit sector_header u0))).
      rewrite emit_emit by exact Hbase. fold sector_frame.
      set (u1 := set_fd b (emit sector_frame u0)).
      assert (Hl1 : current_track_data u1
                    = list_inserts (Z.to_nat (sector * HAWK_RAW_SECTOR_BITS))
                        sector_frame (current_track_data u)) by reflexivity.
      destruct (IH (sector + 1) u1) as (r & b' & p' & l' & Erun & Hr & Hlen' & Hlow & _ & Hall).
      { lia. }
      { rewrite Hl1, length_inserts. lia. }
      exists r, b', p', l'.
      split; [exact Erun|]. split; [exact Hr|].
      rewrite Hl1, length_inserts in Hlen'. split; [exact Hlen'|].
      assert (Hthis : forall j : nat, (j < length sector_frame)%nat ->
                l' !! (Z.to_nat (sector * HAWK_RAW_SECTOR_BITS) + j)%nat
                = sector_frame !! j).
      { intros j Hj. rewrite Hlow by lia. rewrite Hl1.
        rewrite list_lookup_inserts by lia. f_equal. lia. }
      split; [|split].
      * intros i Hi. rewrite Hlow by lia. rewrite Hl1.
        apply list_lookup_inserts_lt. lia.
      * intros _ j Hj. rewrite <- sector_header_prefix by exact Hj.
        apply Hthis. unfold sector_frame. rewrite length_app. lia.
      * intros Hr1 k j Hk Hj. destruct k as [|k].
        -- rewrite Z.add_0_r. apply Hthis. exact Hj.
        -- replace (sector + Z.of_nat (S k)) with (sector + 1 + Z.of_nat k) by lia.
           apply Hall; [exact Hr1 | lia | exact Hj].
    + (* a short read: the loop returns 0 *)
      exists 0, b, (sector * HAWK_RAW_SECTOR_BITS + Z.of_nat (length sector_header)),
        (list_inserts (Z.to_nat (sector * HAWK_RAW_SECTOR_BITS)) sector_header
           (current_track_data u)).
      split; [reflexivity|]. split; [auto|].
      split; [apply length_inserts|].
      split; [|split].
      * intros i Hi. apply list_lookup_inserts_lt. lia.
      * intros _ j Hj. rewrite list_lookup_inserts by lia. f_equal. lia.
      * intros; lia.
Qed.
End track_buffer.

(** ** Materializing a track: the backing store *)

Lemma lor_shiftl_low (a b k : Z) :
  0 <= k -> 0 <= b < 2 ^ k -> Z.lor (Z.shiftl a k) b = Z.shiftl a k + b.
Proof.
  intros Hk Hb.
  assert (Hland : Z.land (Z.shiftl a k) b = 0).
  { destruct (Z.eq_dec b 0) as [->|Hb0]; [apply Z.land_0_r|].
    apply Z.bits_inj'. intros n Hn. rewrite Z.land_spec, Z.bits_0.
    destruct (Z.lt_ge_cases n k) as [Hlt|Hge].
    - rewrite Z.shiftl_spec_low by exact Hlt. reflexivity.
    - rewrite (Z.bits_above_log2 b n), andb_false_r; [reflexivity | lia |].
      apply Z.lt_le_trans with k; [|exact Hge].
      apply Z.log2_lt_pow2; lia. }
  rewrite <- Z.lxor_lor by exact Hland.
  symmetry. apply Z.add_nocarry_lxor. exact Hland.
Qed.

Section track_store.
Context `{hawk_h}.
Hypothesis geometry : geometry_ok.

Lemma sector_reads_lookup (bytes : list Z) (pos : Z) (count k : nat) :
  (k < count)%nat ->
  sector_reads bytes pos count !! k
  = Some (sys_read (pos + Z.of_nat k * HAWK_SECTOR_BYTES) HAWK_SECTOR_BYTES
            (bytes_at bytes (pos + Z.of_nat k * HAWK_SECTOR_BYTES) HAWK_SECTOR_BYTES)).
Proof.
  revert pos k. induction count as [|count IH]; intros pos k Hk; [lia|].
  destruct k as [|k]; cbn [sector_reads].
  - cbn. rewrite Z.add_0_r. reflexivity.
  - cbn [lookup list_lookup]. rewrite IH by lia.
    replace (pos + HAWK_SECTOR_BYTES + Z.of_nat k * HAWK_SECTOR_BYTES)
      with (pos + Z.of_nat (S k) * HAWK_SECTOR_BYTES) by lia.
    reflexivity.
Qed.

Lemma length_sector_reads (bytes : list Z) (pos : Z) (count : nat) :
  length (sector_reads bytes pos count) = count.
Proof.
  revert pos. induction count as [|count IH]; intros pos; cbn; [|rewrite IH]; reflexivity.
Qed.

(** In range, the offset hawk_buffer_track computes in 32 bits plus the
    bytes of the sectors read before is the spec's offset of the sector. *)
Lemma track_offset_sector (cyl head sector : Z) :
  0 <= cyl < HAWK_NUM_CYLINDERS ->
  0 <= head < 2 ->
  0 <= sector < 16 ->
  track_offset cyl head + sector * HAWK_SECTOR_BYTES = sector_offset cyl head sector
  /\ 0 <= track_offset cyl head.
Proof.
  intros Hc Hh Hs. destruct geometry as [? ? [? ?] ? ? ? ? ?].
  assert (Hc5 : Z.shiftl cyl 5 = cyl * 32)
    by (rewrite Z.shiftl_mul_pow2 by lia; reflexivity).
  assert (Hh4 : Z.shiftl head 4 = head * 16)
    by (rewrite Z.shiftl_mul_pow2 by lia; reflexivity).
  assert (Hl1 : Z.lor (Z.shiftl cyl 5) (Z.shiftl head 4) = cyl * 32 + head * 16).
  { rewrite lor_shiftl_low by first [lia | rewrite Hh4; change (2 ^ 5) with 32; lia]. lia. }
  assert (Hl2 : Z.lor (cyl * 32 + head * 16) sector = cyl * 32 + head * 16 + sector).
  { replace (cyl * 32 + head * 16) with (Z.shiftl (cyl * 2 + head) 4)
      by (rewrite Z.shiftl_mul_pow2 by lia; change (2 ^ 4) with 16; lia).
    apply lor_shiftl_low; [lia | change (2 ^ 4) with 16; lia]. }
  unfold track_offset, sector_offset.
  rewrite (u32_small (Z.shiftl cyl 5)) by (rewrite Hc5; nia).
  rewrite (u32_small (Z.shiftl head 4)) by (rewrite Hh4; lia).
  rewrite Hl1, Hl2.
  rewrite u32_small by nia. split; nia.
Qed.

(** The system calls of the sector loop: one read of HAWK_SECTOR_BYTES a
    round, each where the one before ended; the loop returns 1 exactly when
    the image holds all the bytes asked for. *)
Lemma buffer_track_for_reads (n : nat) (cyl head sector : Z) (u : hawk_unit)
    (r : Z) (u' : hawk_unit) :
  0 <= sector ->
  (sector + Z.of_nat n) * HAWK_RAW_SECTOR_BITS
    <= Z.of_nat (length (current_track_data u)) ->
  bs_open (fd u) = true ->
  0 <= bs_pos (fd u) ->
  buffer_track_for n cyl head sector u = Done (r, u') ->
  exists count : nat,
    (count <= n)%nat
    /\ bs_trace (fd u')
       = bs_trace (fd u) ++ sector_reads (bs_bytes (fd u)) (bs_pos (fd u)) count
    /\ bs_bytes (fd u') = bs_bytes (fd u)
    /\ bs_open (fd u') = true
    /\ (r = 1 -> count = n)
    /\ (r = 1 <->
        n = 0%nat \/
        bs_pos (fd u) + Z.of_nat n * HAWK_SECTOR_BYTES
          <= Z.of_nat (length (bs_bytes (fd u)))).
Proof.
  revert sector u. induction n as [|n IH]; intros sector u Hs Hlen Hopen Hpos Erun.
  - cbn in Erun. injection Erun as <- <-. exists 0%nat.
    split; [lia|]. split; [cbn; rewrite app_nil_r; reflexivity|].
    split; [reflexivity|]. split; [exact Hopen|]. split; [reflexivity|].
    split; auto.
  - destruct geometry as [? ? [Hsb ?] ? ? ? ? ?].
    assert (Hraw : 0 <= HAWK_RAW_SECTOR_BITS)
      by (pose proof (sector_frame_fits geometry); lia).
    assert (Hslot : (sector + 1) * HAWK_RAW_SECTOR_BITS
                    <= Z.of_nat (length (current_track_data u))) by nia.
    cbn [buffer_track_for] in Erun.
    rewrite bind_eq, (buffer_sector_eq geometry) in Erun by assumption.
    rewrite read_eq, Hopen in Erun. cbv beta iota zeta in Erun.
    set (got := bytes_at (bs_bytes (fd u)) (bs_pos (fd u)) HAWK_SECTOR_BYTES) in *.
    pose proof (length_bytes_at (bs_bytes (fd u)) (bs_pos (fd u))
                  HAWK_SECTOR_BYTES Hpos Hsb) as Hfull.
    fold got in Hfull.
    destruct (Z.eqb_spec (Z.of_nat (length got)) HAWK_SECTOR_BYTES) as [Hn|Hn].
    + apply IH in Erun; cbn [fd emit set_fd set_data_ptr set_current_track_data
                              bs_open bs_pos bs_bytes bs_trace current_track_data];
        [| lia | rewrite !length_inserts; lia | reflexivity | lia ].
      destruct Erun as (count & Hle & Htr & Hby & Hop & Hcount & Hiff).
      cbn [fd emit set_fd set_data_ptr set_current_track_data
           bs_open bs_pos bs_bytes bs_trace current_track_data] in Htr, Hby, Hiff.
      exists (S count). split; [lia|].
      split.
      { rewrite Htr, <- app_assoc. cbn [sector_reads app]. fold got.
        rewrite Hn. reflexivity. }
      split; [exact Hby|]. split; [exact Hop|].
      split; [intros Hr; rewrite (Hcount Hr); reflexivity|].
      rewrite Hiff. apply proj1 in Hfull.
      specialize (Hfull Hn). split.
      * intros [->|Hall]; right; lia.
      * intros [Hz|Hall]; [lia|]. destruct n; [left; reflexivity|right; lia].
    + injection Erun as <- <-. exists 1%nat. split; [lia|].
      split; [reflexivity|]. split; [reflexivity|]. split; [reflexivity|].
      split; [intros; lia|].
      split; [intros; lia|].
      intros [Hz|Hall]; [lia|]. exfalso. apply Hn. apply Hfull. nia.
Qed.
End track_store.

(** ** Materializing a track: the whole call *)

Section whole_track.
Context `{hawk_h}.
Hypothesis geometry : geometry_ok.

Lemma u32_nonneg (x : Z) : 0 <= u32 x.
Proof. unfold u32, wrap. apply Z.mod_pos_bound. lia. Qed.

Lemma lseek_eq (offset : Z) (b : backing_store) :
  0 <= offset ->
  lseek offset b
  = if bs_open b
    then Done (offset, {| bs_open := true; bs_bytes := bs_bytes b; bs_pos := offset;
                          bs_trace := bs_trace b ++ [sys_lseek offset offset] |})
    else Done (-1, {| bs_open := false; bs_bytes := bs_bytes b; bs_pos := bs_pos b;
                      bs_trace := bs_trace b ++ [sys_lseek offset (-1)] |}).
Proof.
  intros Ho. unfold lseek. destruct (Z.leb_spec 0 offset); [|lia].
  destruct (bs_open b); reflexivity.
Qed.

Lemma slots_fit (u : hawk_unit) :
  unit_ok u ->
  (0 + Z.of_nat (Z.to_nat HAWK_SECTS_PER_TRK)) * HAWK_RAW_SECTOR_BITS
    <= Z.of_nat (length (current_track_data u)).
Proof.
  intros Hu. unfold unit_ok in Hu. rewrite Hu.
  destruct geometry as [? [? ?] ? ? ? ? ? ?].
  rewrite Z2Nat.id by lia. lia.
Qed.

(** hawk_buffer_track always returns, with 0 or 1; it changes nothing of
    the unit but the store, the cursor and the cells of the buffer.  When
    positioning fails the buffer is as before.  When positioning succeeds
    the header of sector 0 has been laid down, whatever is returned; when 1
    is returned every sector's frame has. *)
Lemma hawk_buffer_track_buffer (cyl head : Z) (u : hawk_unit) :
  unit_ok u ->
  exists (r : Z) (b : backing_store) (p : Z) (l : list Z),
    hawk_buffer_track cyl head u
      = Done (r, set_fd b (set_data_ptr p (set_current_track_data l u)))
    /\ (r = 0 \/ r = 1)
    /\ length l = length (current_track_data u)
    /\ (bs_open (fd u) = false -> r = 0 /\ l = current_track_data u)
    /\ (bs_open (fd u) = true -> forall j : nat, (j < length sector_header)%nat ->
          l !! j = sector_header !! j)
    /\ (r = 1 -> forall k j : nat,
          Z.of_nat k < HAWK_SECTS_PER_TRK -> (j < length sector_frame)%nat ->
          l !! (Z.to_nat (Z.of_nat k * HAWK_RAW_SECTOR_BITS) + j)%nat
          = sector_frame !! j).
Proof.
  intros Hu. unfold hawk_buffer_track. cbv zeta.
  rewrite bind_eq. unfold on_fd at 1.
  rewrite lseek_eq by apply u32_nonneg.
  destruct (bs_open (fd u)) eqn:Hopen.
  - pose proof (u32_nonneg (Z.lor (u32 (Z.shiftl cyl 5)) (u32 (Z.shiftl head 4))
                              * HAWK_SECTOR_BYTES)) as Hoff.
    fold (track_offset cyl head) in Hoff |- *.
    destruct (Z.eqb_spec (track_offset cyl head) (-1)); [lia|].
    set (u1 := set_fd _ u).
    destruct (buffer_track_for_buffer geometry (Z.to_nat HAWK_SECTS_PER_TRK)
                cyl head 0 u1) as (r & b & p & l & Erun & Hr & Hlen & _ & Hhdr & Hall).
    { lia. }
    { apply (slots_fit u Hu). }
    exists r, b, p, l.
    split; [exact Erun|]. split; [exact Hr|]. split; [exact Hlen|].
    split; [discriminate|]. split.
    + intros _ j Hj. apply (Hhdr ltac:(destruct geometry as [? [? ?] ? ? ? ? ? ?]; lia) j Hj).
    + intros Hr1 k j Hk Hj. apply (Hall Hr1 k j); [lia | exact Hj].
  - cbn [Z.eqb]. eexists 0, _, (data_ptr u), (current_track_data u).
    split; [destruct u; reflexivity|].
    split; [auto|]. split; [reflexivity|]. split; [auto|].
    split; [discriminate|]. intros; lia.
Qed.

(** The system calls of hawk_buffer_track on an open store: the seek to the
    track's offset, then the reads of the sector loop. *)
Lemma hawk_buffer_track_calls (cyl head : Z) (u : hawk_unit) (r : Z) (u' : hawk_unit) :
  unit_ok u ->
  bs_open (fd u) = true ->
  hawk_buffer_track cyl head u = Done (r, u') ->
  let offset := track_offset cyl head in
  exists count : nat,
    Z.of_nat count <= HAWK_SECTS_PER_TRK
    /\ bs_trace (fd u')
       = bs_trace (fd u)
         ++ sys_lseek offset offset :: sector_reads (bs_bytes (fd u)) offset count
    /\ (r = 1 -> Z.of_nat count = HAWK_SECTS_PER_TRK)
    /\ (r = 1 <->
        offset + HAWK_SECTS_PER_TRK * HAWK_SECTOR_BYTES
          <= Z.of_nat (length (bs_bytes (fd u)))).
Proof.
  intros Hu Hopen Erun offset.
  assert (Hspt : 0 < HAWK_SECTS_PER_TRK)
    by (destruct geometry as [? [? ?] ? ? ? ? ? ?]; lia).
  unfold hawk_buffer_track in Erun. cbv zeta in Erun.
  rewrite bind_eq in Erun. unfold on_fd at 1 in Erun.
  rewrite lseek_eq, Hopen in Erun by apply u32_nonneg.
  fold (track_offset cyl head) in Erun. fold offset in Erun.
  assert (Hoff : 0 <= offset) by apply u32_nonneg.
  destruct (Z.eqb_spec offset (-1)); [lia|].
  apply (buffer_track_for_reads geometry) in Erun;
    [| lia | apply (slots_fit _ Hu) | reflexivity | exact Hoff ].
  destruct Erun as (count & Hle & Htr & _ & _ & Hcount & Hiff).
  cbn [fd set_fd bs_trace bs_bytes bs_pos] in Htr, Hiff.
  exists count. split; [lia|]. split.
  - rewrite Htr, <- app_assoc. reflexivity.
  - split; [intros Hr; rewrite (Hcount Hr); lia|].
    rewrite Hiff, Z2Nat.id by lia. split; [intros [?|?]; lia | auto].
Qed.
End whole_track.

(** ** Seek requests that are accepted *)

Section seek.
Context `{hawk_h}.

(** The event hawk_seek schedules, given what hawk_buffer_track returned. *)
Lemma hawk_seek_in_range (w : world) (a : nat) (u : hawk_unit) (cyl head : Z)
    (r : Z) (u2 : hawk_unit) :
  units w !! a = Some u ->
  seeking u = 0 ->
  cyl < HAWK_NUM_CYLINDERS ->
  hawk_buffer_track cyl head (seek_begun cyl head u) = Done (r, u2) ->
  let ev := {| delta_ns := if r =? 0 then 500 * ONE_MILISECOND_NS
                           else 15 * ONE_MILISECOND_NS / 2;
               callback := fn_hawk_seek_callback |} in
  hawk_seek (Some a) cyl head w
  = Done (tt, set_scheduled (scheduled w ++ [(seek_event_event, ev)])
                (set_seek_event {| se_event := ev; se_unit := Some a;
                                   se_seek_error := if r =? 0 then 1 else 0 |}
                   (with_unit a (set_addr_ack 1 u2) w))).
Proof.
  intros Hu Hs Hc Hbt ev. unfold seek_begun in Hbt.
  unfold hawk_seek. mred. unit_step.
  rewrite (with_unit_id _ _ _ Hu), Hs. cbn [Z.eqb negb].
  mred. do 5 unit_step. rewrite ?with_unit_with_unit.
  destruct (Z.leb_spec HAWK_NUM_CYLINDERS cyl); [lia|].
  mred. unit_step. rewrite Hbt. mred.
  subst ev. destruct (r =? 0); mred; unit_step; f_equal; f_equal; world_eq.
Qed.

(** hawk_rtz clears the three flags, then runs hawk_seek for cylinder 0,
    head 0 on the unit so cleared. *)
Lemma hawk_rtz_eq (w : world) (a : nat) (u : hawk_unit) :
  units w !! a = Some u ->
  hawk_rtz (Some a) w
  = hawk_seek (Some a) 0 0
      (with_unit a (set_seeking 0 (set_fault 0 (set_seek_error 0 u))) w).
Proof.
  intros Hu. unfold hawk_rtz. mred. do 3 unit_step.
  rewrite ?with_unit_with_unit. reflexivity.
Qed.
End seek.

(** C3: a seek to an in-range cylinder whose track materialization fails
    still schedules the seek event, with a delay of 500 ms in place of the
    nominal 7.5 ms and with the error pending; when that event fires the unit
    has seek_error set, on_cyl = 1 and seeking = 0. *)
Theorem hawk_seek_materialization_fails `{hawk_h}
    (w : world) (a : nat) (u : hawk_unit) (cyl head : Z) :
  units w !! a = Some u ->
  seeking u = 0 ->
  0 <= cyl < HAWK_NUM_CYLINDERS ->
  returned (hawk_buffer_track cyl head (seek_begun cyl head u)) = Some 0 ->
  exists w1 : world,
    hawk_seek (Some a) cyl head w = Done (tt, w1)
    /\ scheduled w1
       = scheduled w ++ [(seek_event_event,
                          {| delta_ns := 500 * ONE_MILISECOND_NS;
                             callback := fn_hawk_seek_callback |})]
    /\ 500 * ONE_MILISECOND_NS <> 15 * ONE_MILISECOND_NS / 2
    /\ se_seek_error (seek_event w1) = 1
    /\ se_unit (seek_event w1) = Some a
    /\ forall late_ns : Z,
         exists (w2 : world) (u3 : hawk_unit),
           fire seek_event_event late_ns w1 = Done (tt, w2)
           /\ units w2 !! a = Some u3
           /\ seek_error u3 = 1
           /\ on_cyl u3 = 1
           /\ seeking u3 = 0.
Proof.
  intros Hu Hs Hc Hret.
  destruct (hawk_buffer_track cyl head (seek_begun cyl head u))
    as [[r u2]| |] eqn:Hbt; [|discriminate..].
  injection Hret as ->.
  eexists. split; [apply (hawk_seek_in_range w a u cyl head 0 u2); [assumption..|lia|assumption]|].
  cbn [Z.eqb]. split; [reflexivity|]. split; [discriminate|].
  split; [reflexivity|]. split; [reflexivity|].
  intros late_ns.
  eexists. exists (seek_completed 1 (set_addr_ack 1 u2)).
  split.
  - unfold fire. mred.
    cbn [event_at se_event callback seek_event set_scheduled set_seek_event].
    erewrite hawk_seek_callback_eq;
      [| reflexivity | world_fields; apply lookup_insert_eq ].
    reflexivity.
  - split; [apply units_with_unit|]. cbn. auto.
Qed.

(** C5: whatever the state of the unit, hawk_rtz clears seek_error, fault
    and seeking and then runs the seek to cylinder 0, head 0: when it returns
    seek_error = 0 and fault = 0, the seek is under way (seeking = 1,
    on_cyl = 0, current_track = 0) and its completion event is scheduled for
    the unit. *)
Theorem hawk_rtz_clears_and_seeks `{hawk_h} (w : world) (a : nat) (u : hawk_unit) :
  geometry_ok ->
  unit_ok u ->
  units w !! a = Some u ->
  exists (w' : world) (u' : hawk_unit) (ev : event_t),
    hawk_rtz (Some a) w = Done (tt, w')
    /\ hawk_rtz (Some a) w
       = hawk_seek (Some a) 0 0
           (with_unit a (set_seeking 0 (set_fault 0 (set_seek_error 0 u))) w)
    /\ units w' !! a = Some u'
    /\ seek_error u' = 0
    /\ fault u' = 0
    /\ seeking u' = 1
    /\ on_cyl u' = 0
    /\ current_track u' = 0
    /\ addr_int u' = 0
    /\ scheduled w' = scheduled w ++ [(seek_event_event, ev)]
    /\ callback ev = fn_hawk_seek_callback
    /\ se_unit (seek_event w') = Some a.
Proof.
  intros Hg Hok Hu.
  set (u0 := set_seeking 0 (set_fault 0 (set_seek_error 0 u))).
  destruct (hawk_buffer_track_buffer Hg 0 0 (seek_begun 0 0 u0) Hok)
    as (r & b & p & l & Ebt & _).
  pose proof (hawk_seek_in_range (with_unit a u0 w) a u0 0 0 r _
                (units_with_unit a u0 w) eq_refl
                ltac:(apply (cylinders_range Hg)) Ebt) as Eseek.
  cbv zeta in Eseek. rewrite with_unit_with_unit in Eseek.
  rewrite (hawk_rtz_eq w a u Hu). fold u0.
  eexists. eexists. eexists.
  split; [exact Eseek|]. split; [reflexivity|].
  split; [apply units_with_unit|].
  cbn. auto 12.
Qed.

(** C10: a seek request on a unit whose seeking flag is set returns at once
    and changes nothing: no field of the unit, no track buffered, no event
    scheduled.  Hence, after a seek past the end of the disk has raised
    addr_int and left seeking set, every further seek request is ignored;
    hawk_rtz is not, for it clears seeking before it seeks. *)
Theorem hawk_seek_ignored_while_seeking `{hawk_h}
    (w : world) (a : nat) (u : hawk_unit) :
  units w !! a = Some u ->
  (seeking u <> 0 ->
     forall cyl head : Z, hawk_seek (Some a) cyl head w = Done (tt, w))
  /\ (seeking u = 0 ->
       forall cyl head : Z, HAWK_NUM_CYLINDERS <= cyl ->
       exists (w1 : world) (u1 : hawk_unit),
         hawk_seek (Some a) cyl head w = Done (tt, w1)
         /\ units w1 !! a = Some u1
         /\ addr_int u1 = 1
         /\ seeking u1 = 1
         /\ (forall requests : list (Z * Z),
               seek_all (Some a) requests w1 = Done (tt, w1))
         /\ hawk_rtz (Some a) w1
            = hawk_seek (Some a) 0 0
                (with_unit a (set_seeking 0 (set_fault 0 (set_seek_error 0 u1))) w1)
         /\ seeking (set_seeking 0 (set_fault 0 (set_seek_error 0 u1))) = 0).
Proof.
  intros Hu. split.
  - intros Hs cyl head. apply (hawk_seek_busy w a u); assumption.
  - intros Hs cyl head Hc.
    exists (with_unit a (set_addr_int 1 (seek_begun cyl head u)) w),
           (set_addr_int 1 (seek_begun cyl head u)).
    split; [apply hawk_seek_out_of_range; assumption|].
    split; [apply units_with_unit|].
    split; [reflexivity|]. split; [reflexivity|].
    split; [|split; [|reflexivity]].
    + intros requests. apply (seek_all_busy _ a (set_addr_int 1 (seek_begun cyl head u))).
      * apply units_with_unit.
      * cbn. discriminate.
    + apply hawk_rtz_eq. apply units_with_unit.
Qed.

(** ** The track codec against its description *)

(** X18: the reads of a materialization.  On an open store hawk_buffer_track
    for an in-range (cyl, head) seeks once to
    ((cyl<<5) | (head<<4)) * HAWK_SECTOR_BYTES and then reads
    HAWK_SECTOR_BYTES at a time, so that the read made for sector s is issued
    at byte offset ((cyl<<5) | (head<<4) | s) * HAWK_SECTOR_BYTES and delivers
    the bytes of the store found there; it returns 1, having read every
    sector of the track, exactly when the store holds the bytes of the last
    one. *)
Theorem hawk_buffer_track_sector_offsets `{hawk_h} (cyl head : Z) (u : hawk_unit) :
  geometry_ok ->
  unit_ok u ->
  bs_open (fd u) = true ->
  0 <= cyl < HAWK_NUM_CYLINDERS ->
  0 <= head < 2 ->
  exists (r : Z) (u' : hawk_unit) (reads : list syscall),
    hawk_buffer_track cyl head u = Done (r, u')
    /\ bs_trace (fd u')
       = bs_trace (fd u)
         ++ sys_lseek (sector_offset cyl head 0) (sector_offset cyl head 0) :: reads
    /\ Z.of_nat (length reads) <= HAWK_SECTS_PER_TRK
    /\ (forall (s : nat) (call : syscall),
          reads !! s = Some call ->
          call = sys_read (sector_offset cyl head (Z.of_nat s)) HAWK_SECTOR_BYTES
                   (bytes_at (bs_bytes (fd u)) (sector_offset cyl head (Z.of_nat s))
                      HAWK_SECTOR_BYTES))
    /\ (r = 1 -> Z.of_nat (length reads) = HAWK_SECTS_PER_TRK)
    /\ (r = 1 <->
        sector_offset cyl head (HAWK_SECTS_PER_TRK - 1) + HAWK_SECTOR_BYTES
          <= Z.of_nat (length (bs_bytes (fd u)))).
Proof.
  intros Hg Hok Hopen Hc Hh.
  destruct (hawk_buffer_track_buffer Hg cyl head u Hok) as (r & b & p & l & Erun & _).
  destruct (hawk_buffer_track_calls Hg cyl head u r _ Hok Hopen Erun)
    as (count & Hle & Htr & Hcount & Hiff).
  assert (Hspt : 0 < HAWK_SECTS_PER_TRK <= 16) by apply (sectors_range Hg).
  destruct (track_offset_sector Hg cyl head 0 Hc Hh ltac:(lia)) as [H0 Hnn].
  rewrite Z.add_0_r in H0.
  exists r, (set_fd b (set_data_ptr p (set_current_track_data l u))),
    (sector_reads (bs_bytes (fd u)) (track_offset cyl head) count).
  split; [exact Erun|]. split; [rewrite Htr, H0; reflexivity|].
  rewrite length_sector_reads. split; [exact Hle|]. split; [|split; [exact Hcount|]].
  - intros s call Hs.
    assert (Hlt : (s < count)%nat).
    { apply lookup_lt_Some in Hs. rewrite length_sector_reads in Hs. exact Hs. }
    rewrite (sector_reads_lookup _ _ _ _ Hlt) in Hs. injection Hs as <-.
    destruct (track_offset_sector Hg cyl head (Z.of_nat s) Hc Hh ltac:(lia)) as [-> _].
    reflexivity.
  - rewrite Hiff.
    assert (Hlast : 0 <= HAWK_SECTS_PER_TRK - 1 < 16) by lia.
    destruct (track_offset_sector Hg cyl head _ Hc Hh Hlast) as [<- _].
    replace (track_offset cyl head + (HAWK_SECTS_PER_TRK - 1) * HAWK_SECTOR_BYTES
             + HAWK_SECTOR_BYTES)
      with (track_offset cyl head + HAWK_SECTS_PER_TRK * HAWK_SECTOR_BYTES) by ring.
    reflexivity.
Qed.

Section codec_claims.
Context `{hawk_h}.
Hypothesis geometry : geometry_ok.

(** The sync mark that ends the first sync field of a sector. *)
Lemma sector_header_sync_mark :
  sector_header !! Z.to_nat (HAWK_GAP_BITS + HAWK_SYNC_BITS - 1) = Some 1.
Proof.
  destruct geometry as [? ? ? ? ? ? ? ?].
  unfold sector_header, gap_sync.
  rewrite lookup_app_l
    by (rewrite !length_app, !length_replicate; cbn [length]; lia).
  rewrite app_assoc, lookup_app_r
    by (rewrite length_app, !length_replicate; lia).
  rewrite length_app, !length_replicate.
  replace (Z.to_nat (HAWK_GAP_BITS + HAWK_SYNC_BITS - 1)
           - (Z.to_nat HAWK_GAP_BITS + Z.to_nat (HAWK_SYNC_BITS - 1)))%nat
    with 0%nat by lia.
  reflexivity.
Qed.

(** The first cell after the first sync field of a sector, where the
    address field belongs, is the first zero of the second gap. *)
Lemma sector_frame_after_sync :
  1 <= HAWK_GAP_BITS ->
  sector_frame !! Z.to_nat (HAWK_GAP_BITS + HAWK_SYNC_BITS) = Some 0.
Proof.
  intros Hgap. pose proof (length_gap_sync geometry) as Hgs.
  destruct geometry as [? ? ? ? ? ? ? ?].
  unfold sector_frame, sector_header.
  rewrite <- app_assoc, lookup_app_r by lia.
  replace (Z.to_nat (HAWK_GAP_BITS + HAWK_SYNC_BITS) - length gap_sync)%nat
    with 0%nat by lia.
  unfold gap_sync at 1.
  destruct (Z.to_nat HAWK_GAP_BITS) eqn:E; [lia|]. reflexivity.
Qed.
End codec_claims.

(** The sector loop when it returns 0 on an open store: the round [k] whose
    read came short is the first sector the image does not hold; that read is
    the last system call; the frames of the rounds before it and the header of
    round [k] have been laid down and no other cell has changed. *)
Lemma buffer_track_for_fails `{hawk_h} (n : nat) (cyl head sector : Z)
    (u u' : hawk_unit) :
  geometry_ok ->
  0 <= sector ->
  (sector + Z.of_nat n) * HAWK_RAW_SECTOR_BITS
    <= Z.of_nat (length (current_track_data u)) ->
  bs_open (fd u) = true ->
  0 <= bs_pos (fd u) ->
  buffer_track_for n cyl head sector u = Done (0, u') ->
  exists k : nat,
    (k < n)%nat
    /\ ((0 < k)%nat ->
        bs_pos (fd u) + Z.of_nat k * HAWK_SECTOR_BYTES
          <= Z.of_nat (length (bs_bytes (fd u))))
    /\ Z.of_nat (length (bs_bytes (fd u)))
       < bs_pos (fd u) + (Z.of_nat k + 1) * HAWK_SECTOR_BYTES
    /\ bs_trace (fd u')
       = bs_trace (fd u) ++ sector_reads (bs_bytes (fd u)) (bs_pos (fd u)) (S k)
    /\ data_ptr u'
       = (sector + Z.of_nat k) * HAWK_RAW_SECTOR_BITS + Z.of_nat (length sector_header)
    /\ length (current_track_data u') = length (current_track_data u)
    /\ (forall m j : nat, (m < k)%nat -> (j < length sector_frame)%nat ->
          current_track_data u'
            !! (Z.to_nat ((sector + Z.of_nat m) * HAWK_RAW_SECTOR_BITS) + j)%nat
          = sector_frame !! j)
    /\ (forall j : nat, (j < length sector_header)%nat ->
          current_track_data u'
            !! (Z.to_nat ((sector + Z.of_nat k) * HAWK_RAW_SECTOR_BITS) + j)%nat
          = sector_header !! j)
    /\ (forall i : nat,
          (forall m : nat, (m < k)%nat ->
             Z.of_nat i < (sector + Z.of_nat m) * HAWK_RAW_SECTOR_BITS
             \/ (sector + Z.of_nat m) * HAWK_RAW_SECTOR_BITS
                + Z.of_nat (length sector_frame) <= Z.of_nat i) ->
          Z.of_nat i < (sector + Z.of_nat k) * HAWK_RAW_SECTOR_BITS
          \/ (sector + Z.of_nat k) * HAWK_RAW_SECTOR_BITS
             + Z.of_nat (length sector_header) <= Z.of_nat i ->
          current_track_data u' !! i = current_track_data u !! i).
Proof.
  intros Hg. revert sector u u'.
  induction n as [|n IH]; intros sector u u' Hs Hlen Hopen Hpos Erun.
  - cbn in Erun. discriminate Erun.
  - pose proof (sector_frame_fits Hg) as Hfit.
    pose proof (length_sector_header Hg) as Hhdr.
    pose proof (length_sector_frame Hg) as Hfrm.
    assert (Hsb : 0 < HAWK_SECTOR_BYTES) by apply (sector_bytes_range Hg).
    assert (Hgap : 0 <= HAWK_GAP_BITS / 2)
      by (apply Z.div_pos; [apply (gap_range Hg) | lia]).
    assert (Hraw : 0 <= HAWK_RAW_SECTOR_BITS) by lia.
    assert (Hbase : 0 <= sector * HAWK_RAW_SECTOR_BITS) by nia.
    assert (Hslot : (sector + 1) * HAWK_RAW_SECTOR_BITS
                    <= Z.of_nat (length (current_track_data u))) by nia.
    cbn [buffer_track_for] in Erun.
    rewrite bind_eq, (buffer_sector_eq Hg) in Erun by assumption.
    rewrite read_eq, Hopen in Erun. cbv beta iota zeta in Erun.
    set (got := bytes_at (bs_bytes (fd u)) (bs_pos (fd u)) HAWK_SECTOR_BYTES) in *.
    pose proof (length_bytes_at (bs_bytes (fd u)) (bs_pos (fd u))
                  HAWK_SECTOR_BYTES Hpos Hsb) as Hfull.
    fold got in Hfull.
    set (u0 := set_data_ptr (sector * HAWK_RAW_SECTOR_BITS) u) in *.
    destruct (Z.eqb_spec (Z.of_nat (length got)) HAWK_SECTOR_BYTES) as [Hn|Hn].
    + (* the round completed; the failure is in a later round *)
      apply proj1 in Hfull. specialize (Hfull Hn).
      set (b := {| bs_open := true; bs_bytes := bs_bytes (fd u);
                   bs_pos := bs_pos (fd u) + Z.of_nat (length got);
                   bs_trace := bs_trace (fd u)
                               ++ [sys_read (bs_pos (fd u)) HAWK_SECTOR_BYTES got] |})
        in *.
      change (emit (replicate (Z.to_nat (HAWK_GAP_BITS / 2)) 0)
                (set_fd b (emit sector_header u0)))
        with (set_fd b (emit (replicate (Z.to_nat (HAWK_GAP_BITS / 2)) 0)
                         (emit sector_header u0))) in Erun.
      rewrite emit_emit in Erun by exact Hbase. fold sector_frame in Erun.
      set (u1 := set_fd b (emit sector_frame u0)) in *.
      assert (Hl1 : current_track_data u1
                    = list_inserts (Z.to_nat (sector * HAWK_RAW_SECTOR_BITS))
                        sector_frame (current_track_data u)) by reflexivity.
      apply IH in Erun;
        [| lia | rewrite Hl1, length_inserts; lia | reflexivity
         | cbn [u1 b fd set_fd bs_pos]; lia ].
      destruct Erun as (k & Hk & Hheld & Hshort & Htr & Hptr & Hlen' & Hfr & Hhd & Hun).
      cbn [u1 b fd set_fd bs_pos bs_bytes bs_trace] in Hheld, Hshort, Htr.
      rewrite Hl1, length_inserts in Hlen'.
      assert (Hkeep : forall i : nat,
                Z.of_nat i < (sector + 1) * HAWK_RAW_SECTOR_BITS ->
                current_track_data u' !! i = current_track_data u1 !! i).
      { intros i Hi. apply Hun.
        - intros m Hm. left. nia.
        - left. nia. }
      exists (S k). split; [lia|].
      split; [intros _; destruct k; [lia | specialize (Hheld ltac:(lia)); lia]|].
      split; [lia|].
      split.
      { rewrite Htr, <- app_assoc. cbn [sector_reads app]. fold got.
        rewrite Hn. reflexivity. }
      split; [rewrite Hptr; lia|]. split; [exact Hlen'|].
      split; [|split].
      * intros m j Hm Hj. destruct m as [|m].
        -- rewrite Z.add_0_r, Hkeep by lia. rewrite Hl1.
           rewrite list_lookup_inserts by lia. f_equal. lia.
        -- replace (sector + Z.of_nat (S m)) with (sector + 1 + Z.of_nat m) by lia.
           apply Hfr; [lia | exact Hj].
      * intros j Hj.
        replace (sector + Z.of_nat (S k)) with (sector + 1 + Z.of_nat k) by lia.
        apply Hhd. exact Hj.
      * intros i Hframes Hheader.
        rewrite Hun.
        -- rewrite Hl1. pose proof (Hframes 0%nat ltac:(lia)) as Hhere.
           rewrite Z.add_0_r in Hhere. destruct Hhere as [Hlo|Hhi].
           ++ apply list_lookup_inserts_lt. lia.
           ++ apply list_lookup_inserts_ge. lia.
        -- intros m Hm. specialize (Hframes (S m) ltac:(lia)).
           replace (sector + 1 + Z.of_nat m) with (sector + Z.of_nat (S m)) by lia.
           exact Hframes.
        -- replace (sector + 1 + Z.of_nat k) with (sector + Z.of_nat (S k)) by lia.
           exact Hheader.
    + (* the read of this round came short *)
      injection Erun as <-.
      assert (Hnot : ~ bs_pos (fd u) + HAWK_SECTOR_BYTES
                       <= Z.of_nat (length (bs_bytes (fd u))))
        by (intros Hle; apply Hn, Hfull, Hle).
      exists 0%nat.
      cbn [fd set_fd emit set_data_ptr set_current_track_data data_ptr
           current_track_data bs_trace u0].
      change (Z.of_nat 0) with 0.
      split; [lia|]. split; [intros; lia|]. split; [lia|].
      split; [reflexivity|]. split; [lia|]. split; [apply length_inserts|].
      split; [intros; lia|]. split.
      * intros j Hj. rewrite Z.add_0_r.
        rewrite list_lookup_inserts by lia. f_equal. lia.
      * intros i _ Hheader. rewrite Z.add_0_r in Hheader.
        destruct Hheader as [Hlo|Hhi].
        -- apply list_lookup_inserts_lt. lia.
        -- apply list_lookup_inserts_ge. lia.
Qed.

(** C8, as the code has it: when a sector's read fails (the store is open but
    ends before the last sector of the track), hawk_buffer_track reports
    failure by returning 0 at once: the read that came short, of the first
    sector [k] the store does not hold, is its last system call.  It does not
    restore the track buffer.  The frames of the sectors before [k] and the
    header (gap, sync, gap, sync) of sector [k] stay written, the cursor
    stands after that header, and every other cell of the buffer holds what
    it held before the call.  In particular the header of sector 0 is written
    over whatever the buffer held. *)
Theorem hawk_buffer_track_failure_keeps_partial_track `{hawk_h}
    (cyl head : Z) (u : hawk_unit) :
  geometry_ok ->
  unit_ok u ->
  bs_open (fd u) = true ->
  Z.of_nat (length (bs_bytes (fd u)))
    < track_offset cyl head + HAWK_SECTS_PER_TRK * HAWK_SECTOR_BYTES ->
  exists (u' : hawk_unit) (k : nat),
    hawk_buffer_track cyl head u = Done (0, u')
    /\ Z.of_nat k < HAWK_SECTS_PER_TRK
    /\ ((0 < k)%nat ->
        track_offset cyl head + Z.of_nat k * HAWK_SECTOR_BYTES
          <= Z.of_nat (length (bs_bytes (fd u))))
    /\ Z.of_nat (length (bs_bytes (fd u)))
       < track_offset cyl head + (Z.of_nat k + 1) * HAWK_SECTOR_BYTES
    /\ bs_trace (fd u')
       = bs_trace (fd u)
         ++ sys_lseek (track_offset cyl head) (track_offset cyl head)
            :: sector_reads (bs_bytes (fd u)) (track_offset cyl head) (S k)
    /\ data_ptr u'
       = Z.of_nat k * HAWK_RAW_SECTOR_BITS + Z.of_nat (length sector_header)
    /\ length (current_track_data u') = length (current_track_data u)
    /\ (forall m j : nat, (m < k)%nat -> (j < length sector_frame)%nat ->
          current_track_data u' !! (Z.to_nat (Z.of_nat m * HAWK_RAW_SECTOR_BITS) + j)%nat
          = sector_frame !! j)
    /\ (forall j : nat, (j < length sector_header)%nat ->
          current_track_data u' !! (Z.to_nat (Z.of_nat k * HAWK_RAW_SECTOR_BITS) + j)%nat
          = sector_header !! j)
    /\ (forall i : nat,
          (forall m : nat, (m < k)%nat ->
             Z.of_nat i < Z.of_nat m * HAWK_RAW_SECTOR_BITS
             \/ Z.of_nat m * HAWK_RAW_SECTOR_BITS + Z.of_nat (length sector_frame)
                <= Z.of_nat i) ->
          Z.of_nat i < Z.of_nat k * HAWK_RAW_SECTOR_BITS
          \/ Z.of_nat k * HAWK_RAW_SECTOR_BITS + Z.of_nat (length sector_header)
             <= Z.of_nat i ->
          current_track_data u' !! i = current_track_data u !! i)
    /\ (forall j : nat, (j < length sector_header)%nat ->
          current_track_data u' !! j = sector_header !! j)
    /\ current_track_data u' !! Z.to_nat (HAWK_GAP_BITS + HAWK_SYNC_BITS - 1) = Some 1.
Proof.
  intros Hg Hok Hopen Hshort.
  destruct (hawk_buffer_track_buffer Hg cyl head u Hok)
    as (r & b & p & l & Erun & Hr & Hlen & _ & Hhdr & _).
  destruct (hawk_buffer_track_calls Hg cyl head u r _ Hok Hopen Erun)
    as (_ & _ & _ & _ & Hiff).
  assert (r = 0) as -> by (destruct Hr as [?|Hr1]; [assumption | apply Hiff in Hr1; lia]).
  assert (Hspt : 0 < HAWK_SECTS_PER_TRK) by apply (sectors_range Hg).
  pose proof Erun as Eloop.
  unfold hawk_buffer_track in Eloop. cbv zeta in Eloop.
  rewrite bind_eq in Eloop. unfold on_fd at 1 in Eloop.
  rewrite lseek_eq, Hopen in Eloop by apply u32_nonneg.
  fold (track_offset cyl head) in Eloop.
  pose proof (u32_nonneg (Z.lor (u32 (Z.shiftl cyl 5)) (u32 (Z.shiftl head 4))
                            * HAWK_SECTOR_BYTES)) as Hoff.
  fold (track_offset cyl head) in Hoff.
  destruct (Z.eqb_spec (track_offset cyl head) (-1)); [lia|].
  apply (buffer_track_for_fails _ _ _ _ _ _ Hg) in Eloop;
    [| lia | apply (slots_fit Hg u Hok) | reflexivity | exact Hoff ].
  destruct Eloop as (k & Hk & Hheld & Hends & Htr & Hptr & _ & Hfr & Hhd & Hun).
  cbn [fd set_fd bs_pos bs_bytes bs_trace data_ptr set_data_ptr
       current_track_data set_current_track_data] in Hheld, Hends, Htr, Hptr, Hfr, Hhd, Hun.
  exists (set_fd b (set_data_ptr p (set_current_track_data l u))), k.
  cbn [fd set_fd bs_pos bs_bytes bs_trace data_ptr set_data_ptr
       current_track_data set_current_track_data].
  split; [exact Erun|].
  split; [lia|]. split; [exact Hheld|]. split; [exact Hends|].
  split; [rewrite Htr, <- app_assoc; reflexivity|].
  split; [exact Hptr|]. split; [exact Hlen|].
  split; [exact Hfr|]. split; [exact Hhd|]. split; [exact Hun|].
  split; [exact (Hhdr Hopen)|].
  rewrite (Hhdr Hopen); [apply (sector_header_sync_mark Hg)|].
  pose proof (length_sector_header Hg). destruct Hg as [? ? ? ? ? ? ? ?]. lia.
Qed.

Lemma lookup_final_track (o : option hawk_unit) (l : list Z) (i : nat) :
  current_track_data <$> o = Some l ->
  (o ≫= fun u' => current_track_data u' !! i) = l !! i.
Proof. destruct o as [u'|]; cbn; intros E; [injection E as <-; reflexivity | discriminate]. Qed.

(** C8 as stated fails: on a store truncated to zero bytes the read of
    sector 0 fails and 0 is returned, yet of a buffer that held ones
    throughout the cells of the first gap and sync have been zeroed while the
    cells past the header still hold the old track. *)
Lemma hawk_buffer_track_failure_not_atomic :
  let u := sample_unit (sample_store 0 0) 1 in
  let run := @hawk_buffer_track sample_hawk_h 5 1 u in
  returned run = Some 0
  /\ current_track_data u !! 0%nat = Some 1
  /\ (final run ≫= fun u' => current_track_data u' !! 0%nat) = Some 0
  /\ (final run ≫= fun u' => current_track_data u' !! 416%nat) = Some 1
  /\ (current_track_data <$> final run) <> Some (current_track_data u).
Proof.
  intros u run.
  assert (Hold : current_track_data u !! 0%nat = Some 1) by (vm_compute; reflexivity).
  assert (Hnew : (final run ≫= fun u' => current_track_data u' !! 0%nat) = Some 0)
    by (vm_compute; reflexivity).
  split; [vm_compute; reflexivity|].
  split; [exact Hold|]. split; [exact Hnew|].
  split; [vm_compute; reflexivity|].
  intros Heq. apply (lookup_final_track _ _ 0%nat) in Heq.
  rewrite Hnew, Hold in Heq. discriminate Heq.
Qed.

(** ** The sample configuration is well-formed *)

Lemma sample_geometry_ok : @geometry_ok sample_hawk_h.
Proof. split; vm_compute; repeat split; first [reflexivity | discriminate]. Qed.

Lemma sample_timing_ok : @timing_ok sample_hawk_h.
Proof. split; vm_compute; repeat split; first [reflexivity | discriminate]. Qed.

Lemma sample_unit_ok (store : backing_store) (cell : Z) :
  @unit_ok sample_hawk_h (sample_unit store cell).
Proof.
  unfold unit_ok, sample_unit. cbn [current_track_data].
  rewrite length_replicate. apply Z2Nat.id. cbn. lia.
Qed.

(** ** Reading the address field back *)

(** After a track has been materialized, hawk_read_bits asked for the 32
    bits at the address-field offset of any sector stores one byte, 0, and
    leaves the rest of the caller's array alone: the address word was never
    written (the cell there is the first zero of the second gap) and a single
    cell is read. *)
Lemma hawk_read_back_address_field `{hawk_h}
    (cyl head sector d0 : Z) (dest : list Z) (u u' : hawk_unit) :
  geometry_ok ->
  unit_ok u ->
  1 <= HAWK_GAP_BITS ->
  0 <= sector < HAWK_SECTS_PER_TRK ->
  hawk_buffer_track cyl head u = Done (1, u') ->
  let offset := sector * HAWK_RAW_SECTOR_BITS + HAWK_GAP_BITS + HAWK_SYNC_BITS in
  hawk_read_bits 32 (d0 :: dest) (set_data_ptr offset u')
  = Done (0 :: dest, set_data_ptr (offset + 1) u').
Proof.
  intros Hg Hok Hgap Hs Erun offset.
  destruct (hawk_buffer_track_buffer Hg cyl head u Hok)
    as (r & b & p & l & Erun' & _ & _ & _ & _ & Hall).
  rewrite Erun in Erun'. injection Erun' as <- ->.
  pose proof (sector_frame_fits Hg) as Hfit.
  pose proof (length_sector_frame Hg) as Hfrm.
  assert (Hdiv : 0 <= HAWK_GAP_BITS / 2) by (apply Z.div_pos; lia).
  assert (Hsync : 1 <= HAWK_SYNC_BITS) by apply (sync_range Hg).
  assert (Hraw : 0 <= sector * HAWK_RAW_SECTOR_BITS) by nia.
  assert (Hcell : l !! Z.to_nat offset = Some 0).
  { specialize (Hall eq_refl (Z.to_nat sector) (Z.to_nat (HAWK_GAP_BITS + HAWK_SYNC_BITS))).
    rewrite Z2Nat.id in Hall by lia.
    rewrite (sector_frame_after_sync Hg Hgap) in Hall.
    replace (Z.to_nat offset)
      with (Z.to_nat (sector * HAWK_RAW_SECTOR_BITS)
            + Z.to_nat (HAWK_GAP_BITS + HAWK_SYNC_BITS))%nat by (unfold offset; lia).
    apply Hall; lia. }
  rewrite (hawk_read_bits_one_cell 32 0 d0 dest); cbn [data_ptr set_data_ptr];
    [ reflexivity | lia | unfold INT_MIN; lia | unfold offset; lia | exact Hcell ].
Qed.

(** C2 on the code: the track of cylinder 1, head 1 is materialized from a
    store that holds it, and the 32 bits at the address-field offset of
    sector 1 are read back into a zeroed array.  The address bytes to find
    are 01 11 FE EE; the array comes back as 00 00 00 00 with the cursor one
    cell on. *)
Theorem hawk_address_field_not_read_back :
  let u := sample_unit (sample_store 25600 165) 0 in
  let offset := 1 * @HAWK_RAW_SECTOR_BITS sample_hawk_h
                + @HAWK_GAP_BITS sample_hawk_h + @HAWK_SYNC_BITS sample_hawk_h in
  exists u' : hawk_unit,
    @hawk_buffer_track sample_hawk_h 1 1 u = Done (1, u')
    /\ addr_data 1 1 1 = [1; 17; 254; 238]
    /\ hawk_read_bits 32 [0; 0; 0; 0] (set_data_ptr offset u')
       = Done ([0; 0; 0; 0], set_data_ptr (offset + 1) u')
    /\ [0; 0; 0; 0] <> addr_data 1 1 1.
Proof.
  intros u offset.
  pose proof sample_geometry_ok as Hg.
  pose proof (sample_unit_ok (sample_store 25600 165) 0) as Hok. fold u in Hok.
  destruct (hawk_buffer_track_buffer Hg 1 1 u Hok)
    as (r & b & p & l & Erun & Hr & _).
  assert (Hopen : bs_open (fd u) = true) by reflexivity.
  destruct (hawk_buffer_track_calls Hg 1 1 u r _ Hok Hopen Erun)
    as (_ & _ & _ & _ & Hiff).
  assert (r = 1) as ->.
  { apply Hiff. cbn [fd u sample_unit sample_store bs_bytes].
    rewrite length_replicate. vm_compute. discriminate. }
  eexists. split; [exact Erun|]. split; [reflexivity|]. split.
  - apply (hawk_read_back_address_field 1 1 1 0 [0; 0; 0] u _ Hg Hok);
      [cbn; lia | cbn; lia | exact Erun].
  - discriminate.
Qed.

(** ** The theorems at concrete inputs *)

Ltac by_computation := vm_compute; repeat split; first [reflexivity | discriminate].

(** C1 at a unit whose seek was scheduled with the error pending. *)
Lemma hawk_seek_callback_completes_witness :
  let u := set_seeking 1 (sample_unit (sample_store 0 0) 0) in
  let w := sample_world_seeking (sample_unit (sample_store 0 0) 0) 1 in
  (se_unit (seek_event w) = Some 0%nat /\ units w !! 0%nat = Some u)
  /\ exists u' : hawk_unit,
       hawk_seek_callback seek_event_event 0 w
         = Done (tt, set_dsk_changed (dsk_changed w ++ [unit_num u]) (with_unit 0 u' w))
       /\ on_cyl u' = 1 /\ seeking u' = 0 /\ seek_error u' = 1.
Proof.
  intros u w.
  assert (H1 : se_unit (seek_event w) = Some 0%nat) by reflexivity.
  assert (H2 : units w !! 0%nat = Some u) by reflexivity.
  split; [exact (conj H1 H2)|].
  destruct (hawk_seek_callback_completes w 0 u 0 H1 H2)
    as (u' & Hrun & Hc & Hs & He & _).
  exists u'. exact (conj Hrun (conj Hc (conj Hs (He ltac:(discriminate))))).
Defined.

(** C3 at a seek to cylinder 5 over a store truncated to zero bytes. *)
Lemma hawk_seek_materialization_fails_witness :
  let u := sample_unit (sample_store 0 0) 0 in
  let w := sample_world u 0 in
  (units w !! 0%nat = Some u /\ seeking u = 0
   /\ 0 <= 5 < @HAWK_NUM_CYLINDERS sample_hawk_h
   /\ returned (@hawk_buffer_track sample_hawk_h 5 0 (@seek_begun 5 0 u)) = Some 0)
  /\ exists w1 : world,
       @hawk_seek sample_hawk_h (Some 0%nat) 5 0 w = Done (tt, w1)
       /\ scheduled w1
          = [(seek_event_event,
              {| delta_ns := 500000000; callback := fn_hawk_seek_callback |})]
       /\ se_seek_error (seek_event w1) = 1.
Proof.
  intros u w.
  assert (H1 : units w !! 0%nat = Some u) by reflexivity.
  assert (H2 : seeking u = 0) by reflexivity.
  assert (H3 : 0 <= 5 < @HAWK_NUM_CYLINDERS sample_hawk_h) by (cbn; lia).
  assert (H4 : returned (@hawk_buffer_track sample_hawk_h 5 0 (@seek_begun 5 0 u)) = Some 0)
    by (vm_compute; reflexivity).
  split; [exact (conj H1 (conj H2 (conj H3 H4)))|].
  destruct (@hawk_seek_materialization_fails sample_hawk_h w 0 u 5 0 H1 H2 H3 H4)
    as (w1 & Hrun & Hsched & _ & Herr & _).
  exists w1. exact (conj Hrun (conj Hsched Herr)).
Defined.

(** C4 at a seek to cylinder 406 of a 406-cylinder disk. *)
Lemma hawk_seek_past_end_of_disk_witness :
  let u := sample_unit (sample_store 0 0) 0 in
  let w := sample_world u 0 in
  (units w !! 0%nat = Some u /\ seeking u = 0
   /\ @HAWK_NUM_CYLINDERS sample_hawk_h <= 406)
  /\ exists (w' : world) (u' : hawk_unit),
       @hawk_seek sample_hawk_h (Some 0%nat) 406 1 w = Done (tt, w')
       /\ units w' !! 0%nat = Some u'
       /\ addr_int u' = 1 /\ seeking u' = 1 /\ scheduled w' = [].
Proof.
  intros u w.
  assert (H1 : units w !! 0%nat = Some u) by reflexivity.
  assert (H2 : seeking u = 0) by reflexivity.
  assert (H3 : @HAWK_NUM_CYLINDERS sample_hawk_h <= 406) by (cbn; lia).
  split; [exact (conj H1 (conj H2 H3))|].
  destruct (@hawk_seek_past_end_of_disk sample_hawk_h w 0 u 406 1 H1 H2 H3)
    as (w' & u' & Hrun & Hu' & Hint & Hseek & Hsched & _).
  exists w', u'. exact (conj Hrun (conj Hu' (conj Hint (conj Hseek Hsched)))).
Defined.

(** C5 at a unit in seek error and fault over a healthy store. *)
Lemma hawk_rtz_clears_and_seeks_witness :
  let u := set_fault 1 (set_seek_error 1 (sample_unit (sample_store 6400 165) 0)) in
  let w := sample_world u 0 in
  (@geometry_ok sample_hawk_h /\ @unit_ok sample_hawk_h u /\ units w !! 0%nat = Some u)
  /\ exists (w' : world) (u' : hawk_unit),
       @hawk_rtz sample_hawk_h (Some 0%nat) w = Done (tt, w')
       /\ units w' !! 0%nat = Some u'
       /\ seek_error u' = 0 /\ fault u' = 0 /\ seeking u' = 1 /\ current_track u' = 0.
Proof.
  intros u w.
  assert (H1 : @geometry_ok sample_hawk_h) by (split; by_computation).
  assert (H2 : @unit_ok sample_hawk_h u) by (vm_compute; reflexivity).
  assert (H3 : units w !! 0%nat = Some u) by reflexivity.
  split; [exact (conj H1 (conj H2 H3))|].
  destruct (@hawk_rtz_clears_and_seeks sample_hawk_h w 0 u H1 H2 H3)
    as (w' & u' & ev & Hrun & _ & Hu' & He & Hf & Hs & _ & Ht & _).
  exists w', u'. exact (conj Hrun (conj Hu' (conj He (conj Hf (conj Hs Ht))))).
Defined.

(** C6 at time 1000 for a unit with no offset. *)
Lemma hawk_update_periodic_witness :
  let u := sample_unit (sample_store 0 0) 0 in
  (@timing_ok sample_hawk_h /\ 0 <= 1000 + rotation_offset u
   /\ 1000 + rotation_offset u + @HAWK_ROTATION_NS sample_hawk_h < 2 ^ 64)
  /\ @position sample_hawk_h (1000 + @HAWK_ROTATION_NS sample_hawk_h) u
     = @position sample_hawk_h 1000 u.
Proof.
  intros u.
  assert (H1 : @timing_ok sample_hawk_h) by (split; by_computation).
  assert (H2 : 0 <= 1000 + rotation_offset u) by (cbn; lia).
  assert (H3 : 1000 + rotation_offset u + @HAWK_ROTATION_NS sample_hawk_h < 2 ^ 64)
    by (cbn; lia).
  split; [exact (conj H1 (conj H2 H3))|].
  exact (proj2 (proj2 (@hawk_update_periodic sample_hawk_h 1000 u H1 H2 H3))).
Defined.

(** C7 at a wait for sector 3 issued at time 1. *)
Lemma hawk_wait_sector_schedules_witness :
  let u := sample_unit (sample_store 0 0) 0 in
  let w := sample_world u 1 in
  (@timing_ok sample_hawk_h /\ units w !! 0%nat = Some u
   /\ re_in_process (rotation_event w) = 0
   /\ 0 <= 3 < @HAWK_SECTS_PER_TRK sample_hawk_h)
  /\ exists w1 : world,
       @hawk_wait_sector sample_hawk_h (Some 0%nat) 3 w = Done (tt, w1)
       /\ scheduled w1
          = [(rotation_event_event,
              {| delta_ns := 4687499; callback := fn_hawk_rotation_event_cb |})].
Proof.
  intros u w.
  assert (H1 : @timing_ok sample_hawk_h) by (split; by_computation).
  assert (H2 : units w !! 0%nat = Some u) by reflexivity.
  assert (H3 : re_in_process (rotation_event w) = 0) by reflexivity.
  assert (H4 : 0 <= 3 < @HAWK_SECTS_PER_TRK sample_hawk_h) by (cbn; lia).
  split; [exact (conj H1 (conj H2 (conj H3 H4)))|].
  destruct (@hawk_wait_sector_schedules sample_hawk_h w 0 u 3 H1 H2 H3 H4)
    as (w1 & Hrun & Hsched & _).
  exists w1. split; [exact Hrun|]. rewrite Hsched. reflexivity.
Defined.

(** C8 at the track of cylinder 1, head 1 over a store that ends inside
    sector 1: the frame of sector 0 and the header of sector 1 are laid down
    over a buffer of ones, the cursor stands after that header, and the cell
    that follows still holds its one. *)
Lemma hawk_buffer_track_failure_keeps_partial_track_witness :
  let u := small_unit (sample_store 198 165) 1 in
  (@geometry_ok small_hawk_h /\ @unit_ok small_hawk_h u /\ bs_open (fd u) = true
   /\ Z.of_nat (length (bs_bytes (fd u)))
      < @track_offset small_hawk_h 1 1
        + @HAWK_SECTS_PER_TRK small_hawk_h * @HAWK_SECTOR_BYTES small_hawk_h)
  /\ exists u' : hawk_unit,
       @hawk_buffer_track small_hawk_h 1 1 u = Done (0, u')
       /\ data_ptr u' = 106
       /\ current_track_data u' !! 5%nat = Some 1
       /\ current_track_data u' !! 94%nat = Some 0
       /\ current_track_data u' !! 106%nat = Some 1.
Proof.
  intros u.
  assert (H1 : @geometry_ok small_hawk_h) by (split; by_computation).
  assert (H2 : @unit_ok small_hawk_h u) by (vm_compute; reflexivity).
  assert (H3 : bs_open (fd u) = true) by reflexivity.
  assert (H4 : Z.of_nat (length (bs_bytes (fd u)))
               < @track_offset small_hawk_h 1 1
                 + @HAWK_SECTS_PER_TRK small_hawk_h * @HAWK_SECTOR_BYTES small_hawk_h)
    by (vm_compute; reflexivity).
  split; [exact (conj H1 (conj H2 (conj H3 H4)))|].
  destruct (@hawk_buffer_track_failure_keeps_partial_track small_hawk_h 1 1 u H1 H2 H3 H4)
    as (u' & k & Hrun & _ & Hheld & Hends & _ & Hptr & _ & _ & Hhd & Hun & _ & Hmark).
  assert (Hlen : Z.of_nat (length (bs_bytes (fd u))) = 198) by (vm_compute; reflexivity).
  assert (Hoff : @track_offset small_hawk_h 1 1 = 192) by reflexivity.
  rewrite Hlen, Hoff in Hheld, Hends.
  cbn [HAWK_SECTOR_BYTES small_hawk_h] in Hheld, Hends.
  assert (k = 1%nat) as -> by (destruct k; [lia | specialize (Hheld ltac:(lia)); lia]).
  assert (Hhdr : (0 < length (@sector_header small_hawk_h))%nat) by (vm_compute; lia).
  exists u'. split; [exact Hrun|]. split; [rewrite Hptr; reflexivity|].
  split; [exact Hmark|]. split; [exact (Hhd 0%nat Hhdr)|].
  rewrite (Hun 106%nat); [reflexivity | |].
  - intros m Hm. assert (m = 0%nat) as -> by lia. right. vm_compute. discriminate.
  - right. vm_compute. discriminate.
Defined.

(** X18 at the track of cylinder 1, head 1 over a store that holds it. *)
Lemma hawk_buffer_track_sector_offsets_witness :
  let u := sample_unit (sample_store 25600 165) 0 in
  (@geometry_ok sample_hawk_h /\ @unit_ok sample_hawk_h u /\ bs_open (fd u) = true
   /\ 0 <= 1 < @HAWK_NUM_CYLINDERS sample_hawk_h /\ 0 <= 1 < 2)
  /\ exists (r : Z) (u' : hawk_unit) (reads : list syscall),
       @hawk_buffer_track sample_hawk_h 1 1 u = Done (r, u')
       /\ bs_trace (fd u') = sys_lseek 19200 19200 :: reads
       /\ forall (s : nat) (call : syscall),
            reads !! s = Some call ->
            call = sys_read (@sector_offset sample_hawk_h 1 1 (Z.of_nat s)) 400
                     (bytes_at (bs_bytes (fd u))
                        (@sector_offset sample_hawk_h 1 1 (Z.of_nat s)) 400).
Proof.
  intros u.
  assert (H1 : @geometry_ok sample_hawk_h) by (split; by_computation).
  assert (H2 : @unit_ok sample_hawk_h u) by (vm_compute; reflexivity).
  assert (H3 : bs_open (fd u) = true) by reflexivity.
  assert (H4 : 0 <= 1 < @HAWK_NUM_CYLINDERS sample_hawk_h) by (cbn; lia).
  assert (H5 : 0 <= 1 < 2) by lia.
  split; [exact (conj H1 (conj H2 (conj H3 (conj H4 H5))))|].
  destruct (@hawk_buffer_track_sector_offsets sample_hawk_h 1 1 u H1 H2 H3 H4 H5)
    as (r & u' & reads & Hrun & Htr & _ & Hreads & _).
  exists r, u', reads. split; [exact Hrun|]. split; [exact Htr|]. exact Hreads.
Defined.

(** C10 at a unit that is seeking. *)
Lemma hawk_seek_ignored_while_seeking_witness :
  let u := set_seeking 1 (sample_unit (sample_store 0 0) 0) in
  let w := sample_world u 0 in
  units w !! 0%nat = Some u
  /\ @hawk_seek sample_hawk_h (Some 0%nat) 7 1 w = Done (tt, w).
Proof.
  intros u w.
  assert (H1 : units w !! 0%nat = Some u) by reflexivity.
  split; [exact H1|].
  apply (proj1 (@hawk_seek_ignored_while_seeking sample_hawk_h w 0 u H1)).
  discriminate.
Defined.

(** * Further properties of the code *)

(** ** The bit primitives at the cursor *)

Lemma land_1_bit (val : Z) : Z.land val 1 = 0 \/ Z.land val 1 = 1.
Proof.
  assert (E : Z.land val 1 = val mod 2)
    by (change 1 with (Z.ones 1); rewrite Z.land_ones by lia; reflexivity).
  rewrite E. pose proof (Z.mod_pos_bound val 2). lia.
Qed.

Lemma set_bits_loop_overrun (n : nat) (val : Z) (u : hawk_unit) :
  (0 < n)%nat ->
  data_ptr u < 0 \/ Z.of_nat (length (current_track_data u)) < data_ptr u + Z.of_nat n ->
  set_bits_loop n val u = Undefined.
Proof.
  revert u. induction n as [|n IH]; intros u Hn Hout; [lia|].
  cbn [set_bits_loop]. rewrite bind_eq.
  destruct (Z.lt_ge_cases (data_ptr u) 0) as [Hneg|Hnn].
  { unfold poke. destruct (Z.leb_spec 0 (data_ptr u)); [lia|]. reflexivity. }
  destruct (Z.lt_ge_cases (data_ptr u) (Z.of_nat (length (current_track_data u))))
    as [Hin|Hpast].
  - rewrite poke_eq by lia. apply IH.
    + destruct n; [lia|lia].
    + cbn. rewrite length_insert. lia.
  - unfold poke. destruct (Z.leb_spec 0 (data_ptr u)); [|lia].
    destruct (Z.ltb_spec (data_ptr u) (Z.of_nat (length (current_track_data u)))); [lia|].
    reflexivity.
Qed.

(** X1: hawk_set_bits with the run inside the track buffer returns having
    set the [count] cells from the cursor on to [val & 1] (a single bit),
    every other cell as before, the cursor moved on by [count] and nothing
    else of the unit changed. *)
Theorem hawk_set_bits_fills (count val : Z) (u : hawk_unit) :
  0 <= count ->
  0 <= data_ptr u ->
  data_ptr u + count <= Z.of_nat (length (current_track_data u)) ->
  exists l : list Z,
    hawk_set_bits count val u
      = Done (tt, set_data_ptr (data_ptr u + count) (set_current_track_data l u))
    /\ length l = length (current_track_data u)
    /\ (forall i : nat, data_ptr u <= Z.of_nat i < data_ptr u + count ->
          l !! i = Some (Z.land val 1))
    /\ (forall i : nat, Z.of_nat i < data_ptr u \/ data_ptr u + count <= Z.of_nat i ->
          l !! i = current_track_data u !! i)
    /\ (Z.land val 1 = 0 \/ Z.land val 1 = 1).
Proof.
  intros Hc Hp Hlen.
  exists (list_inserts (Z.to_nat (data_ptr u))
            (replicate (Z.to_nat count) (Z.land val 1)) (current_track_data u)).
  split.
  { rewrite hawk_set_bits_eq by assumption. unfold emit.
    rewrite length_replicate, Z2Nat.id by lia. reflexivity. }
  split; [apply length_inserts|]. split; [|split; [|apply land_1_bit]].
  - intros i Hi. rewrite list_lookup_inserts by (rewrite ?length_replicate; lia).
    apply lookup_replicate_2. lia.
  - intros i [Hi|Hi].
    + apply list_lookup_inserts_lt. lia.
    + apply list_lookup_inserts_ge. rewrite length_replicate. lia.
Qed.

(** X2: hawk_set_bits checks no bound and does not wrap at the end of the
    track buffer.  A non-empty run that starts before the buffer or ends past
    it comes to a store outside the array, which C leaves undefined.  When
    the run starts inside the buffer, the cells up to the end of the buffer
    are filled first, the cursor then stands at the length of the buffer, and
    the store that follows is the one outside the array: it is not made at
    cell 0. *)
Theorem hawk_set_bits_runs_off_the_buffer (count val : Z) (u : hawk_unit) :
  0 < count ->
  data_ptr u < 0 \/ Z.of_nat (length (current_track_data u)) < data_ptr u + count ->
  hawk_set_bits count val u = Undefined
  /\ (0 <= data_ptr u <= Z.of_nat (length (current_track_data u)) ->
      exists u1 : hawk_unit,
        hawk_set_bits (Z.of_nat (length (current_track_data u)) - data_ptr u) val u
          = Done (tt, u1)
        /\ data_ptr u1 = Z.of_nat (length (current_track_data u))
        /\ length (current_track_data u1) = length (current_track_data u)
        /\ (forall i : nat,
              data_ptr u <= Z.of_nat i < Z.of_nat (length (current_track_data u)) ->
              current_track_data u1 !! i = Some (Z.land val 1))
        /\ (forall i : nat, Z.of_nat i < data_ptr u ->
              current_track_data u1 !! i = current_track_data u !! i)
        /\ poke (Z.land val 1) u1 = Undefined).
Proof.
  intros Hc Hout. split.
  - unfold hawk_set_bits.
    destruct (Z.ltb_spec count 0); [lia|].
    apply set_bits_loop_overrun; lia.
  - intros Hp.
    set (len := Z.of_nat (length (current_track_data u))) in *.
    set (bit := Z.land val 1).
    exists (emit (replicate (Z.to_nat (len - data_ptr u)) bit) u).
    split; [apply hawk_set_bits_eq; lia|].
    unfold emit. cbn [data_ptr current_track_data set_data_ptr set_current_track_data].
    rewrite length_replicate, length_inserts.
    split; [lia|]. split; [reflexivity|]. split; [|split].
    + intros i Hi. rewrite list_lookup_inserts by (rewrite ?length_replicate; lia).
      apply lookup_replicate_2. lia.
    + intros i Hi. apply list_lookup_inserts_lt. lia.
    + unfold poke.
      cbn [data_ptr current_track_data set_data_ptr set_current_track_data].
      rewrite length_inserts. fold len.
      destruct (Z.leb_spec 0 (data_ptr u + Z.of_nat (Z.to_nat (len - data_ptr u))));
        [|lia].
      destruct (Z.ltb_spec (data_ptr u + Z.of_nat (Z.to_nat (len - data_ptr u))) len);
        [lia|].
      reflexivity.
Qed.

(** X3: hawk_write_bits never stores more than one cell.  Asked for any
    non-zero number of bits it returns at its first test with the unit
    untouched, cursor included; asked for zero bits it stores bit 7 of the
    first byte at the cursor and moves the cursor on by one. *)
Theorem hawk_write_bits_stores_at_most_one_cell
    (count byte : Z) (data : list Z) (u : hawk_unit) :
  count <> INT_MIN ->
  0 <= data_ptr u < Z.of_nat (length (current_track_data u)) ->
  (count <> 0 -> hawk_write_bits count (byte :: data) u = Done (tt, u))
  /\ (count = 0 ->
      hawk_write_bits count (byte :: data) u
      = Done (tt, set_data_ptr (data_ptr u + 1)
                    (set_current_track_data
                       (<[Z.to_nat (data_ptr u) := Z.land (Z.shiftr byte 7) 1]>
                          (current_track_data u)) u))).
Proof.
  intros Hm Hp. split.
  - intros Hc. apply hawk_write_bits_nonzero; [assumption..|discriminate].
  - intros ->. rewrite hawk_write_bits_zero by exact Hp. reflexivity.
Qed.

Lemma peek_eq (cell : Z) (u : hawk_unit) :
  0 <= data_ptr u ->
  current_track_data u !! Z.to_nat (data_ptr u) = Some cell ->
  peek u = Done (cell, set_data_ptr (data_ptr u + 1) u).
Proof.
  intros Hp Hcell. unfold peek.
  destruct (Z.leb_spec 0 (data_ptr u)); [|lia]. rewrite Hcell. reflexivity.
Qed.

(** Asked for one bit, hawk_read_bits reads two cells. *)
Lemma hawk_read_bits_two_cells (cell0 cell1 d0 : Z) (dest : list Z) (u : hawk_unit) :
  0 <= data_ptr u ->
  current_track_data u !! Z.to_nat (data_ptr u) = Some cell0 ->
  current_track_data u !! Z.to_nat (data_ptr u + 1) = Some cell1 ->
  hawk_read_bits 1 (d0 :: dest) u
  = Done (Z.lor (Z.lor 0 (u8 (Z.shiftl cell0 7))) (u8 (Z.shiftl cell1 6)) :: dest,
          set_data_ptr (data_ptr u + 2) u).
Proof.
  intros Hp H0 H1.
  cbn [hawk_read_bits]. rewrite bind_eq.
  change 7%nat with (S 6). rewrite read_bits_for_S, bind_eq.
  rewrite (peek_eq cell0) by assumption.
  change (1 =? INT_MIN) with false. change (negb (1 - 1 =? 0)) with false.
  cbv beta iota zeta.
  change 6%nat with (S 5). rewrite read_bits_for_S, bind_eq.
  rewrite (peek_eq cell1) by (cbn [data_ptr set_data_ptr current_track_data]; first [lia | assumption]).
  change (1 - 1 =? INT_MIN) with false. change (negb (1 - 1 - 1 =? 0)) with true.
  cbv beta iota zeta. cbn [mret M_ret set_data_ptr data_ptr].
  replace (data_ptr u + 1 + 1) with (data_ptr u + 2) by lia.
  reflexivity.
Qed.

(** X4: whatever number of bits is asked for, hawk_read_bits stores exactly
    one byte in the caller's array and reads at most two cells.  For a count
    other than 1 it reads the cell at the cursor into bit 7 and moves the
    cursor on by one; for a count of 1 it reads two cells, into bits 7 and 6,
    and moves the cursor on by two. *)
Theorem hawk_read_bits_stores_one_byte
    (count cell0 cell1 d0 : Z) (dest : list Z) (u : hawk_unit) :
  count <> INT_MIN ->
  0 <= data_ptr u ->
  current_track_data u !! Z.to_nat (data_ptr u) = Some cell0 ->
  current_track_data u !! Z.to_nat (data_ptr u + 1) = Some cell1 ->
  0 <= cell0 <= 1 ->
  0 <= cell1 <= 1 ->
  (count <> 1 ->
     hawk_read_bits count (d0 :: dest) u
     = Done (128 * cell0 :: dest, set_data_ptr (data_ptr u + 1) u))
  /\ (count = 1 ->
      hawk_read_bits count (d0 :: dest) u
      = Done (128 * cell0 + 64 * cell1 :: dest, set_data_ptr (data_ptr u + 2) u)).
Proof.
  intros Hm Hp H0 H1 Hc0 Hc1.
  assert (E0 : Z.lor 0 (u8 (Z.shiftl cell0 7)) = 128 * cell0)
    by (assert (cell0 = 0 \/ cell0 = 1) as [-> | ->] by lia; reflexivity).
  assert (E1 : Z.lor (128 * cell0) (u8 (Z.shiftl cell1 6)) = 128 * cell0 + 64 * cell1).
  { assert (cell0 = 0 \/ cell0 = 1) as [-> | ->] by lia;
      assert (cell1 = 0 \/ cell1 = 1) as [-> | ->] by lia; reflexivity. }
  split.
  - intros Hc. rewrite (hawk_read_bits_one_cell count cell0) by assumption.
    rewrite E0. reflexivity.
  - intros ->. rewrite (hawk_read_bits_two_cells cell0 cell1) by assumption.
    rewrite E0, E1. reflexivity.
Qed.

(** ** Rewinding the cursor *)

Lemma hawk_rewind_eq `{hawk_h} (count : Z) (u : hawk_unit) :
  hawk_rewind count u
  = Done (tt, set_data_ptr (if data_ptr u - count <? 0
                            then data_ptr u - count + HAWK_RAW_TRACK_BITS
                            else data_ptr u - count) u).
Proof.
  unfold hawk_rewind. rewrite bind_eq. cbn [modify].
  rewrite bind_eq. cbn [get data_ptr set_data_ptr].
  destruct (data_ptr u - count <? 0); reflexivity.
Qed.

(** X5: hawk_rewind moves the cursor back by [count] and adds the length of
    the track once if the result is negative.  From a cursor inside the track
    and a count of at most one track the cursor lands inside the track, at
    (data_ptr - count) mod HAWK_RAW_TRACK_BITS; a larger count leaves it
    negative, for the wrap is applied a single time.  Nothing but the cursor
    changes. *)
Theorem hawk_rewind_wraps_once `{hawk_h} (count : Z) (u : hawk_unit) :
  0 <= data_ptr u < HAWK_RAW_TRACK_BITS ->
  0 <= count ->
  exists p : Z,
    hawk_rewind count u = Done (tt, set_data_ptr p u)
    /\ (count <= HAWK_RAW_TRACK_BITS ->
        p = (data_ptr u - count) mod HAWK_RAW_TRACK_BITS
        /\ 0 <= p < HAWK_RAW_TRACK_BITS)
    /\ (data_ptr u + HAWK_RAW_TRACK_BITS < count -> p < 0).
Proof.
  intros Hp Hc. rewrite hawk_rewind_eq. eexists. split; [reflexivity|].
  destruct (Z.ltb_spec (data_ptr u - count) 0) as [Hneg|Hnn]; split.
  - intros Hle. split; [|lia].
    rewrite <- (Z_mod_plus_full (data_ptr u - count) 1 HAWK_RAW_TRACK_BITS).
    rewrite Z.mul_1_l. symmetry. apply Z.mod_small. lia.
  - lia.
  - intros Hle. split; [|lia]. symmetry. apply Z.mod_small. lia.
  - lia.
Qed.

(** X6: the primitives composed.  After hawk_set_bits has laid down a run
    of at least one cell inside the track, hawk_rewind by the length of the
    run brings the cursor back to its start, and hawk_read_bits there (for
    any count but 1) delivers one byte whose bit 7 is the bit written,
    leaving the cursor one cell past the start of the run. *)
Theorem hawk_set_rewind_read `{hawk_h}
    (count val n d0 : Z) (dest : list Z) (u : hawk_unit) :
  1 <= count ->
  0 <= data_ptr u ->
  data_ptr u + count <= Z.of_nat (length (current_track_data u)) ->
  n <> 1 -> n <> INT_MIN ->
  exists u' : hawk_unit,
    (hawk_set_bits count val ;; hawk_rewind count ;; hawk_read_bits n (d0 :: dest)) u
      = Done (128 * Z.land val 1 :: dest, u')
    /\ data_ptr u' = data_ptr u + 1
    /\ current_track_data u' !! Z.to_nat (data_ptr u) = Some (Z.land val 1).
Proof.
  intros Hc Hp Hlen Hn Hm.
  set (bit := Z.land val 1).
  set (u1 := emit (replicate (Z.to_nat count) bit) u).
  assert (Hd1 : data_ptr u1 = data_ptr u + count)
    by (unfold u1, emit; cbn [data_ptr set_data_ptr]; rewrite length_replicate; lia).
  assert (Hcell : current_track_data u1 !! Z.to_nat (data_ptr u) = Some bit).
  { unfold u1, emit. cbn [current_track_data set_data_ptr set_current_track_data].
    rewrite list_lookup_inserts by (rewrite ?length_replicate; lia).
    apply lookup_replicate_2. lia. }
  pose proof (hawk_read_bits_one_cell n bit d0 dest (set_data_ptr (data_ptr u) u1)
                Hn Hm Hp Hcell) as Eread.
  rewrite bind_eq, hawk_set_bits_eq by lia. fold bit. fold u1.
  rewrite bind_eq, hawk_rewind_eq, Hd1.
  replace (data_ptr u + count - count) with (data_ptr u) by lia.
  destruct (Z.ltb_spec (data_ptr u) 0); [lia|].
  rewrite Eread.
  exists (set_data_ptr (data_ptr u + 1) u1).
  split; [|split; [reflexivity|exact Hcell]].
  destruct (land_1_bit val) as [E|E]; fold bit in E; rewrite E; reflexivity.
Qed.

(** ** The rotation query *)

(** X7: hawk_update caches a position inside the turn whatever the time:
    when the sectors tile the turn, 0 <= sector_addr < HAWK_SECTS_PER_TRK and
    0 <= head_pos <= (HAWK_ROTATION_NS - 1) * HAWK_BIT_NS.  It writes
    head_pos and sector_addr only, and running it again at the same time
    changes nothing. *)
Theorem hawk_update_in_range `{hawk_h} (now : Z) (u : hawk_unit) :
  timing_ok ->
  HAWK_ROTATION_NS <= HAWK_SECTOR_NS * HAWK_SECTS_PER_TRK ->
  exists (pos sec : Z),
    hawk_update now u = Done (tt, set_sector_addr sec (set_head_pos pos u))
    /\ 0 <= sec < HAWK_SECTS_PER_TRK
    /\ 0 <= pos <= (HAWK_ROTATION_NS - 1) * HAWK_BIT_NS
    /\ hawk_update now (set_sector_addr sec (set_head_pos pos u))
       = Done (tt, set_sector_addr sec (set_head_pos pos u)).
Proof.
  intros Ht Htile.
  pose proof (rotation_at_range Ht now u) as Hr.
  pose proof (head_pos_exact Ht now u) as Hpos.
  destruct Ht as [[? ?] ? ? [? ?]].
  exists (u64 (rotation_at now u * HAWK_BIT_NS)), (rotation_at now u / HAWK_SECTOR_NS).
  split; [apply hawk_update_eq|]. split; [|split].
  - split; [apply Z.div_pos; lia|]. apply Z.div_lt_upper_bound; lia.
  - rewrite Hpos. nia.
  - reflexivity.
Qed.

(** ** The rotation event *)

Lemma hawk_wait_sector_eq `{hawk_h} (w : world) (a : nat) (u : hawk_unit) (sector : Z) :
  units w !! a = Some u ->
  re_in_process (rotation_event w) = 0 ->
  let delta := wait_delta (rotation_at (clock w) u) sector in
  hawk_wait_sector (Some a) sector w
  = Done (tt, set_scheduled
                (scheduled w ++ [(rotation_event_event, re_event (rotation_armed (Some a) delta))])
                (set_rotation_event (rotation_armed (Some a) delta) w)).
Proof.
  intros Hu Hp delta. unfold hawk_wait_sector. mred. unit_step.
  rewrite (with_unit_id _ _ _ Hu), Hp. cbn [Z.eqb]. mred. reflexivity.
Qed.

Lemma hawk_wait_sector_busy `{hawk_h} (w : world) (a : nat) (u : hawk_unit) (sector : Z) :
  units w !! a = Some u ->
  re_in_process (rotation_event w) <> 0 ->
  hawk_wait_sector (Some a) sector w = Abort.
Proof.
  intros Hu Hp. unfold hawk_wait_sector. mred. unit_step.
  rewrite (with_unit_id _ _ _ Hu).
  destruct (Z.eqb_spec (re_in_process (rotation_event w)) 0); [contradiction|].
  reflexivity.
Qed.

Lemma hawk_rotation_event_cb_eq `{hawk_h} (w : world) (a : nat) (u : hawk_unit)
    (late_ns : Z) :
  re_unit (rotation_event w) = Some a ->
  units w !! a = Some u ->
  hawk_rotation_event_cb rotation_event_event late_ns w
  = Done (tt, set_dsk_changed (dsk_changed w ++ [unit_num u])
                (with_unit a (rotation_fired (clock w) u)
                   (set_rotation_event
                      {| re_event := re_event (rotation_event w);
                         re_unit := Some a; re_in_process := 0 |} w))).
Proof.
  intros Hr Hu. unfold hawk_rotation_event_cb.
  rewrite bool_decide_eq_true_2 by reflexivity. mred.
  cbn [rotation_event set_rotation_event re_unit clock]. rewrite Hr.
  unit_step. rewrite hawk_update_eq. mred. unit_step. unit_step.
  rewrite ?with_unit_with_unit. reflexivity.
Qed.

(** X8: right after the rotation event has fired, the cursor is at the
    head: hawk_remaining_bits asked for the time of firing returns 0. *)
Theorem hawk_remaining_bits_after_rotation_event `{hawk_h}
    (w : world) (a : nat) (u : hawk_unit) (late_ns : Z) :
  re_unit (rotation_event w) = Some a ->
  units w !! a = Some u ->
  exists w' : world,
    hawk_rotation_event_cb rotation_event_event late_ns w = Done (tt, w')
    /\ returned (at_unit (Some a) (hawk_remaining_bits (clock w)) w') = Some 0.
Proof.
  intros Hr Hu. eexists. split; [apply hawk_rotation_event_cb_eq; eassumption|].
  erewrite at_unit_eq by (world_fields; apply lookup_insert_eq).
  unfold hawk_remaining_bits. rewrite bind_eq, hawk_update_eq. mred.
  cbn [returned head_pos data_ptr set_sector_addr set_head_pos rotation_fired
       set_data_ptr].
  change (rotation_at (clock w) (rotation_fired (clock w) u))
    with (rotation_at (clock w) u).
  rewrite Z.sub_diag. reflexivity.
Qed.

(** X9: the wait reaches its target.  If the rotation event fires exactly
    when asked (the clock has advanced by the scheduled delay, the 64-bit
    time not wrapping), the head is at the start of the target sector:
    sector_addr is the sector waited for and the cursor and head_pos are
    HAWK_SECTOR_NS * sector * HAWK_BIT_NS. *)
Theorem hawk_wait_sector_reaches_target `{hawk_h}
    (w : world) (a : nat) (u : hawk_unit) (sector : Z) :
  timing_ok ->
  units w !! a = Some u ->
  re_in_process (rotation_event w) = 0 ->
  0 <= sector < HAWK_SECTS_PER_TRK ->
  0 <= clock w + rotation_offset u ->
  clock w + rotation_offset u + HAWK_ROTATION_NS < 2 ^ 64 ->
  exists (w1 : world) (delta : Z) (w2 : world) (u2 : hawk_unit),
    hawk_wait_sector (Some a) sector w = Done (tt, w1)
    /\ delta_ns (re_event (rotation_event w1)) = delta
    /\ fire rotation_event_event 0 (set_clock (clock w + delta) w1) = Done (tt, w2)
    /\ units w2 !! a = Some u2
    /\ sector_addr u2 = sector
    /\ head_pos u2 = HAWK_SECTOR_NS * sector * HAWK_BIT_NS
    /\ data_ptr u2 = head_pos u2.
Proof.
  intros Ht Hu Hp Hs Hlo Hhi.
  pose proof (rotation_at_range Ht (clock w) u) as Hcur.
  destruct (wait_delta_eq Ht (rotation_at (clock w) u) sector Hs Hcur)
    as (Hd & Hrange & _).
  set (delta := wait_delta (rotation_at (clock w) u) sector) in *.
  set (target := HAWK_SECTOR_NS * sector) in *.
  assert (Htarget : 0 <= target < HAWK_ROTATION_NS).
  { destruct Ht as [[? ?] ? ? _]. unfold target. nia. }
  assert (Hpos : 0 < HAWK_SECTOR_NS) by apply (sector_ns_pos Ht).
  assert (Hrot : rotation_at (clock w + delta) u = target).
  { rewrite (rotation_at_exact Ht) by lia.
    rewrite (rotation_at_exact Ht) in Hd, Hcur by lia.
    assert (Hnz : HAWK_ROTATION_NS <> 0) by lia.
    pose proof (Z.div_mod (clock w + rotation_offset u) HAWK_ROTATION_NS Hnz) as Hdm.
    set (q := (clock w + rotation_offset u) / HAWK_ROTATION_NS) in *.
    set (cur := (clock w + rotation_offset u) mod HAWK_ROTATION_NS) in *.
    destruct (Z.ltb_spec (target - cur) 0).
    - replace (clock w + delta + rotation_offset u)
        with (target + (q + 1) * HAWK_ROTATION_NS) by lia.
      rewrite Z_mod_plus_full. apply Z.mod_small. exact Htarget.
    - replace (clock w + delta + rotation_offset u)
        with (target + q * HAWK_ROTATION_NS) by lia.
      rewrite Z_mod_plus_full. apply Z.mod_small. exact Htarget. }
  exists (set_scheduled
            (scheduled w ++ [(rotation_event_event,
                              re_event (rotation_armed (Some a) delta))])
            (set_rotation_event (rotation_armed (Some a) delta) w)),
         delta.
  eexists. exists (rotation_fired (clock w + delta) u).
  split; [apply hawk_wait_sector_eq; assumption|].
  split; [reflexivity|]. split.
  { unfold fire. mred.
    cbn [event_at rotation_event set_clock set_scheduled set_rotation_event
         rotation_armed re_event callback].
    erewrite hawk_rotation_event_cb_eq; [| reflexivity | exact Hu ].
    reflexivity. }
  split; [apply units_with_unit|].
  unfold rotation_fired. cbv zeta.
  cbn [sector_addr head_pos data_ptr set_data_ptr set_sector_addr set_head_pos].
  rewrite Hrot. split; [|split; [|reflexivity]].
  - unfold target. rewrite Z.mul_comm. apply Z.div_mul. lia.
  - rewrite <- Hrot at 1. rewrite (head_pos_exact Ht), Hrot. reflexivity.
Qed.

(** X10: the rotation event is one object for the whole process.  While a
    wait is in flight, a second hawk_wait_sector stops the process on its
    assert, for whatever unit and sector it is called; once the event has
    fired, in_process is clear and a wait is accepted again. *)
Theorem hawk_wait_sector_one_in_flight `{hawk_h}
    (w : world) (a : nat) (u : hawk_unit) (sector : Z) :
  units w !! a = Some u ->
  re_in_process (rotation_event w) = 0 ->
  exists w1 : world,
    hawk_wait_sector (Some a) sector w = Done (tt, w1)
    /\ units w1 = units w
    /\ (forall (b : nat) (ub : hawk_unit) (sector' : Z),
          units w1 !! b = Some ub ->
          hawk_wait_sector (Some b) sector' w1 = Abort)
    /\ (forall late_ns sector' : Z,
          exists w2 w3 : world,
            fire rotation_event_event late_ns w1 = Done (tt, w2)
            /\ re_in_process (rotation_event w2) = 0
            /\ hawk_wait_sector (Some a) sector' w2 = Done (tt, w3)
            /\ length (scheduled w3) = S (S (length (scheduled w)))).
Proof.
  intros Hu Hp. eexists. split; [exact (hawk_wait_sector_eq w a u sector Hu Hp)|].
  split; [reflexivity|]. split.
  - intros b ub sector' Hb. apply (hawk_wait_sector_busy _ b ub); [exact Hb|].
    cbn. discriminate.
  - intros late_ns sector'. eexists. eexists. split.
    { unfold fire. mred.
      cbn [event_at rotation_event set_clock set_scheduled set_rotation_event
           rotation_armed re_event callback].
      erewrite hawk_rotation_event_cb_eq; [| reflexivity | exact Hu ].
      reflexivity. }
    split; [reflexivity|]. split.
    { apply (hawk_wait_sector_eq _ a (rotation_fired (clock w) u));
        [apply units_with_unit | reflexivity]. }
    cbn [scheduled set_scheduled set_dsk_changed with_unit set_units
         set_rotation_event].
    rewrite !length_app. cbn [length]. lia.
Qed.

(** ** Seeks that go through *)

Lemma current_track_index (cyl head : Z) :
  0 <= cyl < 2 ^ 31 -> 0 <= head < 2 ->
  Z.lor (u32 (Z.shiftl cyl 1)) head = cyl * 2 + head.
Proof.
  intros Hc Hh.
  assert (E : Z.shiftl cyl 1 = cyl * 2) by (rewrite Z.shiftl_mul_pow2 by lia; reflexivity).
  rewrite u32_small by (rewrite E; lia).
  rewrite lor_shiftl_low by (change (2 ^ 1) with 2; lia). lia.
Qed.

(** X11: a seek to an in-range track of a store that holds it.  hawk_seek
    returns with the unit seeking, off cylinder, the address acknowledged,
    current_track = cyl * 2 + head, and the seek event scheduled 7.5 ms
    ahead with no error pending; when the event fires the unit is on
    cylinder, no longer seeking, and its seek_error and fault are as they
    were before the seek. *)
Theorem hawk_seek_reaches_cylinder `{hawk_h}
    (w : world) (a : nat) (u : hawk_unit) (cyl head : Z) :
  geometry_ok ->
  unit_ok u ->
  units w !! a = Some u ->
  seeking u = 0 ->
  0 <= cyl < HAWK_NUM_CYLINDERS ->
  0 <= head < 2 ->
  bs_open (fd u) = true ->
  track_offset cyl head + HAWK_SECTS_PER_TRK * HAWK_SECTOR_BYTES
    <= Z.of_nat (length (bs_bytes (fd u))) ->
  exists (w1 : world) (u1 : hawk_unit),
    hawk_seek (Some a) cyl head w = Done (tt, w1)
    /\ scheduled w1
       = scheduled w ++ [(seek_event_event,
                          {| delta_ns := 7500000; callback := fn_hawk_seek_callback |})]
    /\ se_seek_error (seek_event w1) = 0
    /\ units w1 !! a = Some u1
    /\ (seeking u1 = 1 /\ on_cyl u1 = 0 /\ addr_ack u1 = 1 /\ addr_int u1 = 0)
    /\ current_track u1 = cyl * 2 + head
    /\ forall late_ns : Z,
         exists (w2 : world) (u2 : hawk_unit),
           fire seek_event_event late_ns w1 = Done (tt, w2)
           /\ units w2 !! a = Some u2
           /\ (on_cyl u2 = 1 /\ seeking u2 = 0)
           /\ (seek_error u2 = seek_error u /\ fault u2 = fault u)
           /\ current_track u2 = cyl * 2 + head.
Proof.
  intros Hg Hok Hu Hs Hc Hh Hopen Hfits.
  assert (Hcyl : 0 <= cyl < 2 ^ 31).
  { destruct Hg as [? ? [? ?] ? ? ? ? ?]. split; [lia|]. nia. }
  pose proof (current_track_index cyl head Hcyl Hh) as Htrack.
  destruct (hawk_buffer_track_buffer Hg cyl head (seek_begun cyl head u) Hok)
    as (r & b & p & l & Ebt & _).
  destruct (hawk_buffer_track_calls Hg cyl head (seek_begun cyl head u) r _ Hok Hopen Ebt)
    as (_ & _ & _ & _ & Hiff).
  assert (r = 1) as -> by (apply Hiff; exact Hfits).
  pose proof (hawk_seek_in_range w a u cyl head 1 _ Hu Hs (proj2 Hc) Ebt) as Eseek.
  cbv zeta in Eseek. cbn [Z.eqb] in Eseek.
  eexists. eexists. split; [exact Eseek|].
  split; [reflexivity|]. split; [reflexivity|].
  split; [apply units_with_unit|].
  split; [cbn; auto|]. split; [exact Htrack|].
  intros late_ns. eexists. eexists. split.
  { unfold fire. mred.
    cbn [event_at se_event callback seek_event set_scheduled set_seek_event].
    erewrite hawk_seek_callback_eq;
      [| reflexivity | world_fields; apply lookup_insert_eq ].
    reflexivity. }
  split; [apply units_with_unit|].
  split; [cbn; auto|]. split; [cbn; auto|]. exact Htrack.
Qed.

(** X12: seek_error and fault are latched against seeks.  Whatever the
    target and whatever the store, hawk_seek on a unit that is not seeking
    returns with seek_error and fault as they were, and when its completion
    event fires fault is still as it was and a seek_error that was set is
    still set. *)
Theorem hawk_seek_keeps_latched_errors `{hawk_h}
    (w : world) (a : nat) (u : hawk_unit) (cyl head : Z) :
  geometry_ok ->
  unit_ok u ->
  units w !! a = Some u ->
  seeking u = 0 ->
  exists (w1 : world) (u1 : hawk_unit),
    hawk_seek (Some a) cyl head w = Done (tt, w1)
    /\ units w1 !! a = Some u1
    /\ seek_error u1 = seek_error u
    /\ fault u1 = fault u
    /\ (cyl < HAWK_NUM_CYLINDERS ->
        forall late_ns : Z,
          exists (w2 : world) (u2 : hawk_unit),
            fire seek_event_event late_ns w1 = Done (tt, w2)
            /\ units w2 !! a = Some u2
            /\ fault u2 = fault u
            /\ (seek_error u <> 0 -> seek_error u2 <> 0)).
Proof.
  intros Hg Hok Hu Hs.
  destruct (Z.le_gt_cases HAWK_NUM_CYLINDERS cyl) as [Hout|Hin].
  - eexists. eexists.
    split; [apply (hawk_seek_out_of_range w a u); assumption|].
    split; [apply units_with_unit|].
    split; [reflexivity|]. split; [reflexivity|]. intros; lia.
  - destruct (hawk_buffer_track_buffer Hg cyl head (seek_begun cyl head u) Hok)
      as (r & b & p & l & Ebt & _).
    pose proof (hawk_seek_in_range w a u cyl head r _ Hu Hs Hin Ebt) as Eseek.
    cbv zeta in Eseek.
    eexists. eexists. split; [exact Eseek|].
    split; [apply units_with_unit|].
    split; [reflexivity|]. split; [reflexivity|].
    intros _ late_ns. eexists. eexists. split.
    { unfold fire. mred.
      cbn [event_at se_event callback seek_event set_scheduled set_seek_event].
      erewrite hawk_seek_callback_eq;
        [| reflexivity | world_fields; apply lookup_insert_eq ].
      reflexivity. }
    split; [apply units_with_unit|].
    cbn [seek_event set_scheduled set_seek_event se_seek_error].
    split.
    + unfold seek_completed. destruct (_ =? 0); reflexivity.
    + intros Herr. unfold seek_completed.
      destruct (r =? 0); cbn; [discriminate | exact Herr].
Qed.

(** X13: a positioning failure costs nothing but the system call.  On a
    closed descriptor hawk_buffer_track returns 0 after the failed lseek: no
    read is issued and the unit, track buffer and cursor included, is as it
    was but for the trace of the store. *)
Theorem hawk_buffer_track_position_failure `{hawk_h} (cyl head : Z) (u : hawk_unit) :
  bs_open (fd u) = false ->
  hawk_buffer_track cyl head u
  = Done (0, set_fd {| bs_open := false; bs_bytes := bs_bytes (fd u);
                       bs_pos := bs_pos (fd u);
                       bs_trace := bs_trace (fd u)
                                   ++ [sys_lseek (track_offset cyl head) (-1)] |} u).
Proof.
  intros Hclosed. unfold hawk_buffer_track. cbv zeta.
  rewrite bind_eq. unfold on_fd at 1.
  fold (track_offset cyl head).
  rewrite lseek_eq by apply u32_nonneg. rewrite Hclosed. reflexivity.
Qed.

(** ** What a materialized track holds *)

Lemma buffer_track_for_untouched `{hawk_h} (n : nat) (cyl head sector : Z)
    (u : hawk_unit) (r : Z) (u' : hawk_unit) :
  geometry_ok ->
  0 <= sector ->
  (sector + Z.of_nat n) * HAWK_RAW_SECTOR_BITS
    <= Z.of_nat (length (current_track_data u)) ->
  buffer_track_for n cyl head sector u = Done (r, u') ->
  forall i : nat,
    (forall k : nat, (k < n)%nat ->
       Z.of_nat i < (sector + Z.of_nat k) * HAWK_RAW_SECTOR_BITS
       \/ (sector + Z.of_nat k) * HAWK_RAW_SECTOR_BITS + Z.of_nat (length sector_frame)
          <= Z.of_nat i) ->
    current_track_data u' !! i = current_track_data u !! i.
Proof.
  intros Hg. revert sector u.
  induction n as [|n IH]; intros sector u Hs Hlen Erun i Hout.
  - cbn in Erun. injection Erun as _ <-. reflexivity.
  - pose proof (sector_frame_fits Hg) as Hfit.
    pose proof (length_sector_header Hg) as Hhdr.
    pose proof (length_sector_frame Hg) as Hfrm.
    assert (Hgap : 0 <= HAWK_GAP_BITS / 2)
      by (apply Z.div_pos; [apply (gap_range Hg) | lia]).
    assert (Hraw : 0 <= HAWK_RAW_SECTOR_BITS) by lia.
    assert (Hbase : 0 <= sector * HAWK_RAW_SECTOR_BITS) by nia.
    assert (Hslot : (sector + 1) * HAWK_RAW_SECTOR_BITS
                    <= Z.of_nat (length (current_track_data u))) by nia.
    pose proof (Hout 0%nat ltac:(lia)) as Hhere. rewrite Z.add_0_r in Hhere.
    cbn [buffer_track_for] in Erun.
    rewrite bind_eq, (buffer_sector_eq Hg) in Erun by assumption.
    destruct (read HAWK_SECTOR_BYTES (fd u)) as [[[m buffer] b]| |] eqn:Eread;
      [|discriminate..].
    cbv beta iota zeta in Erun.
    destruct (m =? HAWK_SECTOR_BYTES).
    + change (emit (replicate (Z.to_nat (HAWK_GAP_BITS / 2)) 0)
                (set_fd b (emit sector_header
                             (set_data_ptr (sector * HAWK_RAW_SECTOR_BITS) u))))
        with (set_fd b (emit (replicate (Z.to_nat (HAWK_GAP_BITS / 2)) 0)
                         (emit sector_header
                            (set_data_ptr (sector * HAWK_RAW_SECTOR_BITS) u)))) in Erun.
      rewrite emit_emit in Erun by exact Hbase. fold sector_frame in Erun.
      apply IH with (i := i) in Erun.
      * rewrite Erun.
        cbn [current_track_data set_fd emit set_data_ptr set_current_track_data data_ptr].
        destruct Hhere as [Hlo|Hhi].
        -- apply list_lookup_inserts_lt. lia.
        -- apply list_lookup_inserts_ge. lia.
      * lia.
      * cbn [current_track_data set_fd emit set_data_ptr set_current_track_data].
        rewrite length_inserts. lia.
      * intros k Hk. specialize (Hout (S k) ltac:(lia)).
        replace (sector + 1 + Z.of_nat k) with (sector + Z.of_nat (S k)) by lia.
        exact Hout.
    + injection Erun as _ <-.
      cbn [current_track_data set_fd emit set_data_ptr set_current_track_data data_ptr].
      destruct Hhere as [Hlo|Hhi].
      * apply list_lookup_inserts_lt. lia.
      * apply list_lookup_inserts_ge.
        assert (length sector_header <= length sector_frame)%nat
          by (unfold sector_frame; rewrite length_app; lia).
        lia.
Qed.

(** Whatever it returns, hawk_buffer_track leaves the cells outside the
    frames of the sector slots as they were. *)
Lemma hawk_buffer_track_untouched `{hawk_h} (cyl head : Z) (u : hawk_unit)
    (r : Z) (u' : hawk_unit) :
  geometry_ok ->
  unit_ok u ->
  hawk_buffer_track cyl head u = Done (r, u') ->
  forall i : nat,
    (forall k : nat, Z.of_nat k < HAWK_SECTS_PER_TRK ->
       Z.of_nat i < Z.of_nat k * HAWK_RAW_SECTOR_BITS
       \/ Z.of_nat k * HAWK_RAW_SECTOR_BITS + Z.of_nat (length sector_frame)
          <= Z.of_nat i) ->
    current_track_data u' !! i = current_track_data u !! i.
Proof.
  intros Hg Hok Erun i Hout.
  assert (Hspt : 0 < HAWK_SECTS_PER_TRK) by apply (sectors_range Hg).
  unfold hawk_buffer_track in Erun. cbv zeta in Erun.
  rewrite bind_eq in Erun. unfold on_fd at 1 in Erun.
  rewrite lseek_eq in Erun by apply u32_nonneg.
  fold (track_offset cyl head) in Erun.
  pose proof (u32_nonneg (Z.lor (u32 (Z.shiftl cyl 5)) (u32 (Z.shiftl head 4))
                            * HAWK_SECTOR_BYTES)) as Hoff.
  fold (track_offset cyl head) in Hoff.
  destruct (bs_open (fd u)).
  - destruct (Z.eqb_spec (track_offset cyl head) (-1)); [lia|].
    apply (buffer_track_for_untouched _ _ _ _ _ _ _ Hg) with (i := i) in Erun.
    + exact Erun.
    + lia.
    + apply (slots_fit Hg u Hok).
    + intros k Hk. rewrite Z.add_0_l. apply Hout. lia.
  - cbn [Z.eqb] in Erun. injection Erun as _ <-. reflexivity.
Qed.

(** C9 on the code: the track of cylinder 1, head 1 is materialized over a
    zeroed buffer from a store whose bytes are all A5.  The bytes of sector 0
    are read at the claimed offset, ((1<<5) | (1<<4) | 0) * 400 = 19200, and a
    data field made of them would begin with a one; but no data field is
    emitted: the slot of sector 0 holds the frame of gaps and sync marks, the
    same for every store, and zeros from there to its end. *)
Theorem hawk_data_field_not_emitted :
  let u := sample_unit (sample_store 25600 165) 0 in
  exists (u' : hawk_unit) (reads : list syscall),
    @hawk_buffer_track sample_hawk_h 1 1 u = Done (1, u')
    /\ bs_trace (fd u') = sys_lseek 19200 19200 :: reads
    /\ @sector_offset sample_hawk_h 1 1 0 = 19200
    /\ reads !! 0%nat = Some (sys_read 19200 400 (replicate 400 165))
    /\ Z.testbit 165 7 = true
    /\ (forall j : nat, (j < 476)%nat ->
          current_track_data u' !! j = @sector_frame sample_hawk_h !! j)
    /\ @sector_frame sample_hawk_h
       = replicate 207 0 ++ [1] ++ replicate 207 0 ++ [1] ++ replicate 60 0
    /\ (forall i : nat, (476 <= i < 3724)%nat ->
          current_track_data u' !! i = Some 0).
Proof.
  intros u.
  pose proof sample_geometry_ok as Hg.
  pose proof (sample_unit_ok (sample_store 25600 165) 0) as Hok. fold u in Hok.
  destruct (hawk_buffer_track_buffer Hg 1 1 u Hok)
    as (r & b & p & l & Erun & Hr & _ & _ & _ & Hall).
  assert (Hopen : bs_open (fd u) = true) by reflexivity.
  destruct (hawk_buffer_track_calls Hg 1 1 u r _ Hok Hopen Erun)
    as (count & _ & Htr & Hcount & Hiff).
  assert (r = 1) as ->.
  { apply Hiff. cbn [fd u sample_unit sample_store bs_bytes].
    rewrite length_replicate. vm_compute. discriminate. }
  specialize (Hcount eq_refl). specialize (Hall eq_refl).
  assert (Hoff : @track_offset sample_hawk_h 1 1 = 19200) by reflexivity.
  assert (Hfrm : length (@sector_frame sample_hawk_h) = 476%nat)
    by (vm_compute; reflexivity).
  rewrite Hoff in Htr.
  exists (set_fd b (set_data_ptr p (set_current_track_data l u))),
         (@sector_reads sample_hawk_h (bs_bytes (fd u)) 19200 count).
  split; [exact Erun|]. split; [exact Htr|]. split; [reflexivity|].
  split.
  { assert (Hlt : (0 < count)%nat) by (cbn in Hcount; lia).
    rewrite (sector_reads_lookup _ _ _ _ Hlt).
    vm_compute. reflexivity. }
  split; [reflexivity|].
  cbn [current_track_data set_fd set_data_ptr set_current_track_data].
  split; [|split].
  - intros j Hj. apply (Hall 0%nat j); [cbn; lia | rewrite Hfrm; exact Hj].
  - vm_compute. reflexivity.
  - intros i Hi.
    pose proof (hawk_buffer_track_untouched 1 1 u 1 _ Hg Hok Erun i) as Hu.
    cbn [current_track_data set_fd set_data_ptr set_current_track_data] in Hu.
    rewrite Hu.
    + unfold u, sample_unit. cbn [current_track_data].
      apply lookup_replicate_2. cbn. lia.
    + intros k Hk. rewrite Hfrm. cbn [HAWK_RAW_SECTOR_BITS sample_hawk_h].
      destruct k as [|k]; [right; lia | left; lia].
Qed.

(** X14: what a materialized track holds.  When hawk_buffer_track returns
    1, the slot of every sector begins with the same frame: gap, sync, gap,
    sync and half a gap of zeros, 2 * (HAWK_GAP_BITS + HAWK_SYNC_BITS) +
    HAWK_GAP_BITS / 2 cells in all; every other cell of the buffer, the room
    of the address, data and checksum fields included, holds what it held
    before the call. *)
Theorem hawk_buffer_track_lays_frames `{hawk_h} (cyl head : Z) (u : hawk_unit) :
  geometry_ok ->
  unit_ok u ->
  returned (hawk_buffer_track cyl head u) = Some 1 ->
  exists u' : hawk_unit,
    hawk_buffer_track cyl head u = Done (1, u')
    /\ length (current_track_data u') = length (current_track_data u)
    /\ Z.of_nat (length sector_frame)
       = 2 * (HAWK_GAP_BITS + HAWK_SYNC_BITS) + HAWK_GAP_BITS / 2
    /\ (forall k j : nat,
          Z.of_nat k < HAWK_SECTS_PER_TRK -> (j < length sector_frame)%nat ->
          current_track_data u' !! (Z.to_nat (Z.of_nat k * HAWK_RAW_SECTOR_BITS) + j)%nat
          = sector_frame !! j)
    /\ (forall i : nat,
          (forall k : nat, Z.of_nat k < HAWK_SECTS_PER_TRK ->
             Z.of_nat i < Z.of_nat k * HAWK_RAW_SECTOR_BITS
             \/ Z.of_nat k * HAWK_RAW_SECTOR_BITS + Z.of_nat (length sector_frame)
                <= Z.of_nat i) ->
          current_track_data u' !! i = current_track_data u !! i).
Proof.
  intros Hg Hok Hret.
  destruct (hawk_buffer_track_buffer Hg cyl head u Hok)
    as (r & b & p & l & Erun & _ & Hlen & Hclosed & _ & Hall).
  rewrite Erun in Hret. injection Hret as ->.
  eexists. split; [exact Erun|].
  cbn [current_track_data set_fd set_data_ptr set_current_track_data].
  split; [exact Hlen|]. split; [apply (length_sector_frame Hg)|].
  split; [exact (Hall eq_refl)|].
  intros i Hout.
  destruct (bs_open (fd u)) eqn:Hopen;
    [|destruct (Hclosed eq_refl) as [? _]; discriminate].
  assert (Hspt : 0 < HAWK_SECTS_PER_TRK) by apply (sectors_range Hg).
  unfold hawk_buffer_track in Erun. cbv zeta in Erun.
  rewrite bind_eq in Erun. unfold on_fd at 1 in Erun.
  rewrite lseek_eq, Hopen in Erun by apply u32_nonneg.
  fold (track_offset cyl head) in Erun.
  pose proof (u32_nonneg (Z.lor (u32 (Z.shiftl cyl 5)) (u32 (Z.shiftl head 4))
                            * HAWK_SECTOR_BYTES)) as Hoff.
  fold (track_offset cyl head) in Hoff.
  destruct (Z.eqb_spec (track_offset cyl head) (-1)); [lia|].
  apply (buffer_track_for_untouched _ _ _ _ _ _ _ Hg) with (i := i) in Erun.
  - exact Erun.
  - lia.
  - apply (slots_fit Hg u Hok).
  - intros k Hk. rewrite Z.add_0_l. apply Hout. lia.
Qed.

(** ** One seek event for every unit *)

Lemma units_with_unit_ne (a b : nat) (u : hawk_unit) (w : world) :
  a <> b -> units (with_unit a u w) !! b = units w !! b.
Proof. intros Hne. unfold with_unit. cbn. apply lookup_insert_ne. exact Hne. Qed.

(** X15: the seek event is one object for the whole process.  When a second
    unit seeks before the first unit's seek has completed, the event is
    re-armed for the second unit: each of the two scheduled firings completes
    the second unit, and the first unit stays seeking and off cylinder. *)
Theorem hawk_seek_event_is_shared `{hawk_h}
    (w : world) (a b : nat) (ua ub : hawk_unit) (cyl_a head_a cyl_b head_b : Z) :
  geometry_ok ->
  unit_ok ua -> unit_ok ub ->
  a <> b ->
  units w !! a = Some ua -> units w !! b = Some ub ->
  seeking ua = 0 -> seeking ub = 0 ->
  cyl_a < HAWK_NUM_CYLINDERS -> cyl_b < HAWK_NUM_CYLINDERS ->
  exists w2 : world,
    (hawk_seek (Some a) cyl_a head_a ;; hawk_seek (Some b) cyl_b head_b) w = Done (tt, w2)
    /\ length (scheduled w2) = S (S (length (scheduled w)))
    /\ se_unit (seek_event w2) = Some b
    /\ forall late_ns late_ns' : Z,
         exists (w3 w4 : world) (ua3 ub3 ua4 : hawk_unit),
           fire seek_event_event late_ns w2 = Done (tt, w3)
           /\ units w3 !! b = Some ub3 /\ seeking ub3 = 0 /\ on_cyl ub3 = 1
           /\ units w3 !! a = Some ua3 /\ seeking ua3 = 1 /\ on_cyl ua3 = 0
           /\ fire seek_event_event late_ns' w3 = Done (tt, w4)
           /\ units w4 !! a = Some ua4 /\ seeking ua4 = 1 /\ on_cyl ua4 = 0.
Proof.
  intros Hg Hoka Hokb Hne Ha Hb Hsa Hsb Hca Hcb.
  destruct (hawk_buffer_track_buffer Hg cyl_a head_a (seek_begun cyl_a head_a ua) Hoka)
    as (ra & ba & pa & la & Ea & _).
  destruct (hawk_buffer_track_buffer Hg cyl_b head_b (seek_begun cyl_b head_b ub) Hokb)
    as (rb & bb & pb & lb & Eb & _).
  pose proof (hawk_seek_in_range w a ua cyl_a head_a ra _ Ha Hsa Hca Ea) as E1.
  cbv zeta in E1.
  set (ua1 := set_addr_ack 1 _) in E1. set (w1 := set_scheduled _ _) in E1.
  assert (Hb1 : units w1 !! b = Some ub).
  { unfold w1. world_fields. rewrite lookup_insert_ne by exact Hne. exact Hb. }
  pose proof (hawk_seek_in_range w1 b ub cyl_b head_b rb _ Hb1 Hsb Hcb Eb) as E2.
  cbv zeta in E2.
  set (ub1 := set_addr_ack 1 _) in E2. set (w2 := set_scheduled _ _) in E2.
  set (pending := if rb =? 0 then 1 else 0) in *.
  assert (Hb2 : units w2 !! b = Some ub1) by apply units_with_unit.
  assert (Ha2 : units w2 !! a = Some ua1).
  { unfold w2. world_fields. rewrite lookup_insert_ne by congruence.
    unfold w1. world_fields. apply lookup_insert_eq. }
  exists w2. split; [rewrite bind_eq, E1; exact E2|].
  split.
  { unfold w2, w1. cbn [scheduled set_scheduled set_seek_event with_unit set_units].
    rewrite !length_app. cbn [length]. lia. }
  split; [reflexivity|].
  intros late_ns late_ns'.
  assert (F1 : fire seek_event_event late_ns w2
               = Done (tt, set_dsk_changed (dsk_changed w2 ++ [unit_num ub1])
                             (with_unit b (seek_completed pending ub1) w2))).
  { unfold fire. mred. change (callback (event_at seek_event_event w2))
      with fn_hawk_seek_callback. cbv iota.
    apply (hawk_seek_callback_eq w2 b ub1); [reflexivity | exact Hb2]. }
  set (ub3 := seek_completed pending ub1) in *.
  set (w3 := set_dsk_changed _ _) in F1.
  assert (Hb3 : units w3 !! b = Some ub3) by apply units_with_unit.
  assert (Ha3 : units w3 !! a = Some ua1).
  { unfold w3. cbn [units set_dsk_changed]. rewrite units_with_unit_ne by congruence.
    exact Ha2. }
  assert (F2 : fire seek_event_event late_ns' w3
               = Done (tt, set_dsk_changed (dsk_changed w3 ++ [unit_num ub3])
                             (with_unit b (seek_completed pending ub3) w3))).
  { unfold fire. mred. change (callback (event_at seek_event_event w3))
      with fn_hawk_seek_callback. cbv iota.
    apply (hawk_seek_callback_eq w3 b ub3); [reflexivity | exact Hb3]. }
  exists w3, (set_dsk_changed (dsk_changed w3 ++ [unit_num ub3])
                (with_unit b (seek_completed pending ub3) w3)), ua1, ub3, ua1.
  split; [exact F1|]. split; [exact Hb3|].
  split; [reflexivity|]. split; [reflexivity|].
  split; [exact Ha3|]. split; [reflexivity|]. split; [reflexivity|].
  split; [exact F2|]. split; [|split; reflexivity].
  cbn [units set_dsk_changed]. rewrite units_with_unit_ne by congruence. exact Ha3.
Qed.

(** ** The address word of a sector *)

Lemma land_255 (x : Z) : Z.land x 255 = x mod 256.
Proof. change 255 with (Z.ones 8). rewrite Z.land_ones by lia. reflexivity. Qed.

Lemma shiftr_8 (x : Z) : Z.shiftr x 8 = x / 256.
Proof. rewrite Z.shiftr_div_pow2 by lia. reflexivity. Qed.

Lemma sector_addr_word_eq (cyl head sector : Z) :
  0 <= cyl < 2 ^ 24 -> 0 <= head < 16 -> 0 <= sector < 16 ->
  sector_addr_word cyl head sector
  = (cyl mod 256) * 256 + head * 16 + sector.
Proof.
  intros Hc Hh Hs. unfold sector_addr_word.
  assert (E8 : Z.shiftl cyl 8 = cyl * 256)
    by (rewrite Z.shiftl_mul_pow2 by lia; reflexivity).
  assert (E4 : Z.shiftl head 4 = head * 16)
    by (rewrite Z.shiftl_mul_pow2 by lia; reflexivity).
  rewrite (u32_small (Z.shiftl cyl 8)) by (rewrite E8; lia).
  rewrite (u32_small (Z.shiftl head 4)) by (rewrite E4; lia).
  rewrite lor_shiftl_low by first [lia | rewrite E4; change (2 ^ 8) with 256; lia].
  rewrite E8, E4.
  replace (cyl * 256 + head * 16) with (Z.shiftl (cyl * 16 + head) 4)
    by (rewrite Z.shiftl_mul_pow2 by lia; change (2 ^ 4) with 16; lia).
  rewrite lor_shiftl_low by (change (2 ^ 4) with 16; lia).
  rewrite Z.shiftl_mul_pow2 by lia. change (2 ^ 4) with 16.
  unfold u16, wrap. change (2 ^ 16) with 65536.
  pose proof (Z.div_mod cyl 256 ltac:(lia)) as Hdm.
  pose proof (Z.mod_pos_bound cyl 256 ltac:(lia)) as Hm.
  symmetry. apply (Z.mod_unique _ _ (cyl / 256)); lia.
Qed.

(** X16: the four address bytes hawk_buffer_track computes for a sector are
    the low eight bits of the cylinder, then head * 16 + sector, then the
    complements of the two.  The address word is 16 bits wide, so the ninth
    cylinder bit is lost: cylinders 256 apart get the same address bytes. *)
Theorem addr_data_bytes (cyl head sector : Z) :
  0 <= cyl < 2 ^ 23 -> 0 <= head < 16 -> 0 <= sector < 16 ->
  addr_data cyl head sector
  = [ cyl mod 256; head * 16 + sector;
      255 - cyl mod 256; 255 - (head * 16 + sector) ]
  /\ addr_data (cyl + 256) head sector = addr_data cyl head sector.
Proof.
  intros Hc Hh Hs.
  assert (Hbytes : forall c, 0 <= c < 2 ^ 24 ->
            addr_data c head sector
            = [ c mod 256; head * 16 + sector;
                255 - c mod 256; 255 - (head * 16 + sector) ]).
  { intros c Hcc. unfold addr_data. cbv zeta.
    rewrite (sector_addr_word_eq c head sector Hcc Hh Hs).
    pose proof (Z.mod_pos_bound c 256 ltac:(lia)) as Hm.
    rewrite <- Z.add_assoc.
    set (hi := c mod 256) in *. set (lo := head * 16 + sector).
    assert (Hlo : 0 <= lo < 256) by (unfold lo; lia).
    assert (Hnot : u16 (Z.lnot (hi * 256 + lo)) = (255 - hi) * 256 + (255 - lo)).
    { unfold u16, wrap, Z.lnot. change (2 ^ 16) with 65536.
      symmetry. apply (Z.mod_unique _ _ (-1)); lia. }
    rewrite Hnot, !land_255, !shiftr_8.
    assert (D1 : (hi * 256 + lo) / 256 = hi)
      by (symmetry; apply (Z.div_unique _ _ _ lo); lia).
    assert (D2 : ((255 - hi) * 256 + (255 - lo)) / 256 = 255 - hi)
      by (symmetry; apply (Z.div_unique _ _ _ (255 - lo)); lia).
    assert (M1 : (hi * 256 + lo) mod 256 = lo)
      by (symmetry; apply (Z.mod_unique _ _ hi); lia).
    assert (M2 : ((255 - hi) * 256 + (255 - lo)) mod 256 = 255 - lo)
      by (symmetry; apply (Z.mod_unique _ _ (255 - hi)); lia).
    rewrite D1, D2, M1, M2.
    rewrite (Z.mod_small hi 256) by lia.
    rewrite (Z.mod_small (255 - hi) 256) by lia.
    reflexivity. }
  split.
  - apply Hbytes. lia.
  - rewrite !Hbytes by lia.
    replace (cyl + 256) with (cyl + 1 * 256) by lia.
    rewrite Z_mod_plus_full. reflexivity.
Qed.

(** ** Seeks that are refused *)

(** X17: hawk_seek checks the range after it has marked the unit.  A seek
    past the end of the disk, refused with addr_int, has already taken the
    unit off cylinder, cleared addr_ack and set current_track to the index of
    the refused target, cyl * 2 + head; no completion event will set on_cyl
    again. *)
Theorem hawk_seek_refused_moves_current_track `{hawk_h}
    (w : world) (a : nat) (u : hawk_unit) (cyl head : Z) :
  units w !! a = Some u ->
  seeking u = 0 ->
  HAWK_NUM_CYLINDERS <= cyl < 2 ^ 31 ->
  0 <= cyl ->
  0 <= head < 2 ->
  exists (w' : world) (u' : hawk_unit),
    hawk_seek (Some a) cyl head w = Done (tt, w')
    /\ units w' !! a = Some u'
    /\ addr_int u' = 1
    /\ current_track u' = cyl * 2 + head
    /\ on_cyl u' = 0
    /\ addr_ack u' = 0
    /\ scheduled w' = scheduled w.
Proof.
  intros Hu Hs Hc Hc0 Hh.
  exists (with_unit a (set_addr_int 1 (seek_begun cyl head u)) w),
         (set_addr_int 1 (seek_begun cyl head u)).
  split; [apply hawk_seek_out_of_range; [assumption..|lia]|].
  split; [apply units_with_unit|].
  split; [reflexivity|].
  split; [apply current_track_index; lia|].
  split; [reflexivity|]. split; reflexivity.
Qed.

(** ** The further properties at concrete inputs *)

(** X1 at a run of five zeros from cell 3 of a buffer of ones. *)
Lemma hawk_set_bits_fills_witness :
  let u := set_data_ptr 3 (small_unit (sample_store 0 0) 1) in
  (0 <= 5 /\ 0 <= data_ptr u
   /\ data_ptr u + 5 <= Z.of_nat (length (current_track_data u)))
  /\ exists l : list Z,
       hawk_set_bits 5 0 u = Done (tt, set_data_ptr 8 (set_current_track_data l u))
       /\ l !! 7%nat = Some 0 /\ l !! 8%nat = Some 1.
Proof.
  intros u.
  assert (H1 : 0 <= 5) by lia.
  assert (H2 : 0 <= data_ptr u) by (cbn; lia).
  assert (H3 : data_ptr u + 5 <= Z.of_nat (length (current_track_data u)))
    by (vm_compute; discriminate).
  split; [exact (conj H1 (conj H2 H3))|].
  destruct (hawk_set_bits_fills 5 0 u H1 H2 H3) as (l & Erun & _ & Hin & Hout & _).
  exists l. split; [exact Erun|]. split.
  - apply (Hin 7%nat). cbn. lia.
  - rewrite (Hout 8%nat) by (cbn; lia). reflexivity.
Defined.

(** X2 at a run of five cells from the last cell of the buffer. *)
Lemma hawk_set_bits_runs_off_the_buffer_witness :
  let u := set_data_ptr 187 (small_unit (sample_store 0 0) 1) in
  (0 < 5
   /\ (data_ptr u < 0 \/ Z.of_nat (length (current_track_data u)) < data_ptr u + 5))
  /\ hawk_set_bits 5 0 u = Undefined
  /\ exists u1 : hawk_unit,
       hawk_set_bits 1 0 u = Done (tt, u1)
       /\ data_ptr u1 = 188
       /\ current_track_data u1 !! 187%nat = Some 0
       /\ current_track_data u1 !! 0%nat = Some 1.
Proof.
  intros u.
  assert (H1 : 0 < 5) by lia.
  assert (H2 : data_ptr u < 0
               \/ Z.of_nat (length (current_track_data u)) < data_ptr u + 5)
    by (right; vm_compute; reflexivity).
  split; [exact (conj H1 H2)|].
  destruct (hawk_set_bits_runs_off_the_buffer 5 0 u H1 H2) as [Hundef Hfill].
  split; [exact Hundef|].
  destruct (Hfill ltac:(vm_compute; split; discriminate))
    as (u1 & Erun & Hptr & _ & Hin & Hlow & _).
  exists u1. split; [exact Erun|]. split; [exact Hptr|]. split.
  - apply (Hin 187%nat). vm_compute. split; [discriminate | reflexivity].
  - rewrite (Hlow 0%nat) by (vm_compute; reflexivity). reflexivity.
Defined.

(** X3 at a request to write the 32 bits of an address field. *)
Lemma hawk_write_bits_stores_at_most_one_cell_witness :
  let u := small_unit (sample_store 0 0) 0 in
  (32 <> INT_MIN /\ 0 <= data_ptr u < Z.of_nat (length (current_track_data u)))
  /\ hawk_write_bits 32 [1; 17; 254; 238] u = Done (tt, u).
Proof.
  intros u.
  assert (H1 : 32 <> INT_MIN) by discriminate.
  assert (H2 : 0 <= data_ptr u < Z.of_nat (length (current_track_data u)))
    by (vm_compute; split; [discriminate | reflexivity]).
  split; [exact (conj H1 H2)|].
  apply (proj1 (hawk_write_bits_stores_at_most_one_cell 32 1 [17; 254; 238] u H1 H2)).
  discriminate.
Defined.

(** X4 at a request to read 8 bits from a buffer of ones. *)
Lemma hawk_read_bits_stores_one_byte_witness :
  let u := small_unit (sample_store 0 0) 1 in
  (8 <> INT_MIN /\ 0 <= data_ptr u
   /\ current_track_data u !! Z.to_nat (data_ptr u) = Some 1
   /\ current_track_data u !! Z.to_nat (data_ptr u + 1) = Some 1
   /\ 0 <= 1 <= 1)
  /\ hawk_read_bits 8 [0] u = Done ([128], set_data_ptr 1 u).
Proof.
  intros u.
  assert (H1 : 8 <> INT_MIN) by discriminate.
  assert (H2 : 0 <= data_ptr u) by (cbn; lia).
  assert (H3 : current_track_data u !! Z.to_nat (data_ptr u) = Some 1) by reflexivity.
  assert (H4 : current_track_data u !! Z.to_nat (data_ptr u + 1) = Some 1) by reflexivity.
  assert (H5 : 0 <= 1 <= 1) by lia.
  split; [exact (conj H1 (conj H2 (conj H3 (conj H4 H5))))|].
  apply (proj1 (hawk_read_bits_stores_one_byte 8 1 1 0 [] u H1 H2 H3 H4 H5 H5)).
  discriminate.
Defined.

(** X5 at a rewind by 10 from cell 3 of a 188-cell track. *)
Lemma hawk_rewind_wraps_once_witness :
  let u := set_data_ptr 3 (small_unit (sample_store 0 0) 0) in
  (0 <= data_ptr u < @HAWK_RAW_TRACK_BITS small_hawk_h /\ 0 <= 10)
  /\ @hawk_rewind small_hawk_h 10 u = Done (tt, set_data_ptr 181 u).
Proof.
  intros u.
  assert (H1 : 0 <= data_ptr u < @HAWK_RAW_TRACK_BITS small_hawk_h) by (cbn; lia).
  assert (H2 : 0 <= 10) by lia.
  split; [exact (conj H1 H2)|].
  destruct (@hawk_rewind_wraps_once small_hawk_h 10 u H1 H2) as (p & Erun & Hin & _).
  rewrite Erun. destruct (Hin ltac:(cbn; lia)) as [-> _]. reflexivity.
Defined.

(** X6 at a run of three ones from cell 3. *)
Lemma hawk_set_rewind_read_witness :
  let u := set_data_ptr 3 (small_unit (sample_store 0 0) 0) in
  (1 <= 3 /\ 0 <= data_ptr u
   /\ data_ptr u + 3 <= Z.of_nat (length (current_track_data u))
   /\ 8 <> 1 /\ 8 <> INT_MIN)
  /\ returned ((hawk_set_bits 3 1 ;; @hawk_rewind small_hawk_h 3 ;;
                hawk_read_bits 8 [0]) u)
     = Some [128].
Proof.
  intros u.
  assert (H1 : 1 <= 3) by lia.
  assert (H2 : 0 <= data_ptr u) by (cbn; lia).
  assert (H3 : data_ptr u + 3 <= Z.of_nat (length (current_track_data u)))
    by (vm_compute; discriminate).
  assert (H4 : 8 <> 1) by discriminate.
  assert (H5 : 8 <> INT_MIN) by discriminate.
  split; [exact (conj H1 (conj H2 (conj H3 (conj H4 H5))))|].
  destruct (@hawk_set_rewind_read small_hawk_h 3 1 8 0 [] u H1 H2 H3 H4 H5)
    as (u' & Erun & _).
  rewrite Erun. reflexivity.
Defined.

(** X7 at a time far past the first turn. *)
Lemma hawk_update_in_range_witness :
  let u := small_unit (sample_store 0 0) 0 in
  (@timing_ok small_hawk_h
   /\ @HAWK_ROTATION_NS small_hawk_h
      <= @HAWK_SECTOR_NS small_hawk_h * @HAWK_SECTS_PER_TRK small_hawk_h)
  /\ exists pos sec : Z,
       @hawk_update small_hawk_h 123456 u
         = Done (tt, set_sector_addr sec (set_head_pos pos u))
       /\ 0 <= sec < 2.
Proof.
  intros u.
  assert (H1 : @timing_ok small_hawk_h) by (split; by_computation).
  assert (H2 : @HAWK_ROTATION_NS small_hawk_h
               <= @HAWK_SECTOR_NS small_hawk_h * @HAWK_SECTS_PER_TRK small_hawk_h)
    by (cbn; lia).
  split; [exact (conj H1 H2)|].
  destruct (@hawk_update_in_range small_hawk_h 123456 u H1 H2)
    as (pos & sec & Erun & Hsec & _).
  exists pos, sec. exact (conj Erun Hsec).
Defined.

(** X8 at a rotation event armed for the unit, firing at time 700. *)
Lemma hawk_remaining_bits_after_rotation_event_witness :
  let u := small_unit (sample_store 0 0) 0 in
  let w := set_rotation_event (@rotation_armed (Some 0%nat) 0) (sample_world u 700) in
  (re_unit (rotation_event w) = Some 0%nat /\ units w !! 0%nat = Some u)
  /\ exists w' : world,
       @hawk_rotation_event_cb small_hawk_h rotation_event_event 0 w = Done (tt, w')
       /\ returned (at_unit (Some 0%nat) (@hawk_remaining_bits small_hawk_h 700) w')
          = Some 0.
Proof.
  intros u w.
  assert (H1 : re_unit (rotation_event w) = Some 0%nat) by reflexivity.
  assert (H2 : units w !! 0%nat = Some u) by reflexivity.
  split; [exact (conj H1 H2)|].
  exact (@hawk_remaining_bits_after_rotation_event small_hawk_h w 0 u 0 H1 H2).
Defined.

(** X9 at a wait for sector 1 asked at time 700. *)
Lemma hawk_wait_sector_reaches_target_witness :
  let u := small_unit (sample_store 0 0) 0 in
  let w := sample_world u 700 in
  (@timing_ok small_hawk_h /\ units w !! 0%nat = Some u
   /\ re_in_process (rotation_event w) = 0
   /\ 0 <= 1 < @HAWK_SECTS_PER_TRK small_hawk_h
   /\ 0 <= clock w + rotation_offset u
   /\ clock w + rotation_offset u + @HAWK_ROTATION_NS small_hawk_h < 2 ^ 64)
  /\ exists (w1 : world) (delta : Z) (w2 : world) (u2 : hawk_unit),
       @hawk_wait_sector small_hawk_h (Some 0%nat) 1 w = Done (tt, w1)
       /\ @fire small_hawk_h rotation_event_event 0 (set_clock (clock w + delta) w1)
          = Done (tt, w2)
       /\ units w2 !! 0%nat = Some u2
       /\ sector_addr u2 = 1.
Proof.
  intros u w.
  assert (H1 : @timing_ok small_hawk_h) by (split; by_computation).
  assert (H2 : units w !! 0%nat = Some u) by reflexivity.
  assert (H3 : re_in_process (rotation_event w) = 0) by reflexivity.
  assert (H4 : 0 <= 1 < @HAWK_SECTS_PER_TRK small_hawk_h) by (cbn; lia).
  assert (H5 : 0 <= clock w + rotation_offset u) by (cbn; lia).
  assert (H6 : clock w + rotation_offset u + @HAWK_ROTATION_NS small_hawk_h < 2 ^ 64)
    by (cbn; lia).
  split; [exact (conj H1 (conj H2 (conj H3 (conj H4 (conj H5 H6)))))|].
  destruct (@hawk_wait_sector_reaches_target small_hawk_h w 0 u 1 H1 H2 H3 H4 H5 H6)
    as (w1 & delta & w2 & u2 & Ewait & _ & Efire & Hu2 & Hsec & _).
  exists w1, delta, w2, u2. exact (conj Ewait (conj Efire (conj Hu2 Hsec))).
Defined.

(** X10 at a first wait, for sector 1. *)
Lemma hawk_wait_sector_one_in_flight_witness :
  let u := small_unit (sample_store 0 0) 0 in
  let w := sample_world u 700 in
  (units w !! 0%nat = Some u /\ re_in_process (rotation_event w) = 0)
  /\ exists w1 : world,
       @hawk_wait_sector small_hawk_h (Some 0%nat) 1 w = Done (tt, w1)
       /\ @hawk_wait_sector small_hawk_h (Some 0%nat) 0 w1 = Abort.
Proof.
  intros u w.
  assert (H1 : units w !! 0%nat = Some u) by reflexivity.
  assert (H2 : re_in_process (rotation_event w) = 0) by reflexivity.
  split; [exact (conj H1 H2)|].
  destruct (@hawk_wait_sector_one_in_flight small_hawk_h w 0 u 1 H1 H2)
    as (w1 & Ewait & Hunits & Hbusy & _).
  exists w1. split; [exact Ewait|].
  apply (Hbusy 0%nat u 0). rewrite Hunits. exact H1.
Defined.

(** X11 at a seek to cylinder 1, head 1 of a store that holds the track. *)
Lemma hawk_seek_reaches_cylinder_witness :
  let u := small_unit (sample_store 200 165) 0 in
  let w := sample_world u 0 in
  (@geometry_ok small_hawk_h /\ @unit_ok small_hawk_h u
   /\ units w !! 0%nat = Some u /\ seeking u = 0
   /\ 0 <= 1 < @HAWK_NUM_CYLINDERS small_hawk_h /\ 0 <= 1 < 2
   /\ bs_open (fd u) = true
   /\ @track_offset small_hawk_h 1 1
      + @HAWK_SECTS_PER_TRK small_hawk_h * @HAWK_SECTOR_BYTES small_hawk_h
      <= Z.of_nat (length (bs_bytes (fd u))))
  /\ exists (w1 : world) (u1 : hawk_unit),
       @hawk_seek small_hawk_h (Some 0%nat) 1 1 w = Done (tt, w1)
       /\ scheduled w1
          = [(seek_event_event,
              {| delta_ns := 7500000; callback := fn_hawk_seek_callback |})]
       /\ units w1 !! 0%nat = Some u1
       /\ current_track u1 = 3.
Proof.
  intros u w.
  assert (H1 : @geometry_ok small_hawk_h) by (split; by_computation).
  assert (H2 : @unit_ok small_hawk_h u) by (vm_compute; reflexivity).
  assert (H3 : units w !! 0%nat = Some u) by reflexivity.
  assert (H4 : seeking u = 0) by reflexivity.
  assert (H5 : 0 <= 1 < @HAWK_NUM_CYLINDERS small_hawk_h) by (cbn; lia).
  assert (H6 : 0 <= 1 < 2) by lia.
  assert (H7 : bs_open (fd u) = true) by reflexivity.
  assert (H8 : @track_offset small_hawk_h 1 1
               + @HAWK_SECTS_PER_TRK small_hawk_h * @HAWK_SECTOR_BYTES small_hawk_h
               <= Z.of_nat (length (bs_bytes (fd u))))
    by (vm_compute; discriminate).
  split; [exact (conj H1 (conj H2 (conj H3 (conj H4 (conj H5 (conj H6 (conj H7 H8)))))))|].
  destruct (@hawk_seek_reaches_cylinder small_hawk_h w 0 u 1 1 H1 H2 H3 H4 H5 H6 H7 H8)
    as (w1 & u1 & Erun & Hsched & _ & Hu1 & _ & Htrack & _).
  exists w1, u1. exact (conj Erun (conj Hsched (conj Hu1 Htrack))).
Defined.

(** X12 at a seek by a unit in seek error, over a store that is too short. *)
Lemma hawk_seek_keeps_latched_errors_witness :
  let u := set_seek_error 1 (small_unit (sample_store 0 0) 0) in
  let w := sample_world u 0 in
  (@geometry_ok small_hawk_h /\ @unit_ok small_hawk_h u
   /\ units w !! 0%nat = Some u /\ seeking u = 0)
  /\ exists (w1 : world) (u1 : hawk_unit),
       @hawk_seek small_hawk_h (Some 0%nat) 2 0 w = Done (tt, w1)
       /\ units w1 !! 0%nat = Some u1
       /\ seek_error u1 = 1.
Proof.
  intros u w.
  assert (H1 : @geometry_ok small_hawk_h) by (split; by_computation).
  assert (H2 : @unit_ok small_hawk_h u) by (vm_compute; reflexivity).
  assert (H3 : units w !! 0%nat = Some u) by reflexivity.
  assert (H4 : seeking u = 0) by reflexivity.
  split; [exact (conj H1 (conj H2 (conj H3 H4)))|].
  destruct (@hawk_seek_keeps_latched_errors small_hawk_h w 0 u 2 0 H1 H2 H3 H4)
    as (w1 & u1 & Erun & Hu1 & Herr & _).
  exists w1, u1. exact (conj Erun (conj Hu1 Herr)).
Defined.

(** X13 at a unit whose descriptor is closed. *)
Lemma hawk_buffer_track_position_failure_witness :
  let u := small_unit closed_store 1 in
  bs_open (fd u) = false
  /\ returned (@hawk_buffer_track small_hawk_h 1 0 u) = Some 0.
Proof.
  intros u.
  assert (H1 : bs_open (fd u) = false) by reflexivity.
  split; [exact H1|].
  rewrite (@hawk_buffer_track_position_failure small_hawk_h 1 0 u H1). reflexivity.
Defined.

(** X14 at the track of cylinder 1, head 1 materialized over a buffer of
    ones. *)
Lemma hawk_buffer_track_lays_frames_witness :
  let u := small_unit (sample_store 200 165) 1 in
  (@geometry_ok small_hawk_h /\ @unit_ok small_hawk_h u
   /\ returned (@hawk_buffer_track small_hawk_h 1 1 u) = Some 1)
  /\ exists u' : hawk_unit,
       @hawk_buffer_track small_hawk_h 1 1 u = Done (1, u')
       /\ current_track_data u' !! 5%nat = Some 1
       /\ current_track_data u' !! 6%nat = Some 0
       /\ current_track_data u' !! 14%nat = Some 1.
Proof.
  intros u.
  assert (H1 : @geometry_ok small_hawk_h) by (split; by_computation).
  assert (H2 : @unit_ok small_hawk_h u) by (vm_compute; reflexivity).
  assert (H3 : returned (@hawk_buffer_track small_hawk_h 1 1 u) = Some 1)
    by (vm_compute; reflexivity).
  split; [exact (conj H1 (conj H2 H3))|].
  destruct (@hawk_buffer_track_lays_frames small_hawk_h 1 1 u H1 H2 H3)
    as (u' & Erun & _ & _ & Hframe & Hstale).
  exists u'. split; [exact Erun|]. split; [|split].
  - apply (Hframe 0%nat 5%nat); [cbn; lia | vm_compute; lia].
  - apply (Hframe 0%nat 6%nat); [cbn; lia | vm_compute; lia].
  - rewrite (Hstale 14%nat); [reflexivity|].
    intros k Hk. assert (k = 0 \/ k = 1)%nat as [-> | ->] by (cbn in Hk; lia).
    + right. vm_compute. discriminate.
    + left. vm_compute. reflexivity.
Defined.

(** X15 at two units that seek one after the other. *)
Lemma hawk_seek_event_is_shared_witness :
  let u0 := small_unit (sample_store 200 165) 0 in
  let u1 := small_unit (sample_store 200 165) 0 in
  let w := sample_world2 u0 u1 0 in
  (@geometry_ok small_hawk_h /\ @unit_ok small_hawk_h u0 /\ @unit_ok small_hawk_h u1
   /\ 0%nat <> 1%nat
   /\ units w !! 0%nat = Some u0 /\ units w !! 1%nat = Some u1
   /\ seeking u0 = 0 /\ seeking u1 = 0
   /\ 1 < @HAWK_NUM_CYLINDERS small_hawk_h /\ 0 < @HAWK_NUM_CYLINDERS small_hawk_h)
  /\ exists w2 : world,
       (@hawk_seek small_hawk_h (Some 0%nat) 1 1 ;;
        @hawk_seek small_hawk_h (Some 1%nat) 0 0) w = Done (tt, w2)
       /\ se_unit (seek_event w2) = Some 1%nat.
Proof.
  intros u0 u1 w.
  assert (H1 : @geometry_ok small_hawk_h) by (split; by_computation).
  assert (H2 : @unit_ok small_hawk_h u0) by (vm_compute; reflexivity).
  assert (H3 : 0%nat <> 1%nat) by discriminate.
  assert (H4 : units w !! 0%nat = Some u0) by reflexivity.
  assert (H5 : units w !! 1%nat = Some u1) by reflexivity.
  assert (H6 : seeking u0 = 0) by reflexivity.
  assert (H7 : 1 < @HAWK_NUM_CYLINDERS small_hawk_h) by (cbn; lia).
  assert (H8 : 0 < @HAWK_NUM_CYLINDERS small_hawk_h) by (cbn; lia).
  split; [exact (conj H1 (conj H2 (conj H2 (conj H3 (conj H4 (conj H5
                   (conj H6 (conj H6 (conj H7 H8)))))))))|].
  destruct (@hawk_seek_event_is_shared small_hawk_h w 0 1 u0 u1 1 1 0 0
              H1 H2 H2 H3 H4 H5 H6 H6 H7 H8)
    as (w2 & Erun & _ & Hunit & _).
  exists w2. exact (conj Erun Hunit).
Defined.

(** X16 at cylinder 5, head 1, sector 3 and at cylinder 261. *)
Lemma addr_data_bytes_witness :
  (0 <= 5 < 2 ^ 23 /\ 0 <= 1 < 16 /\ 0 <= 3 < 16)
  /\ addr_data 5 1 3 = [5; 19; 250; 236]
  /\ addr_data 261 1 3 = addr_data 5 1 3.
Proof.
  assert (H1 : 0 <= 5 < 2 ^ 23) by lia.
  assert (H2 : 0 <= 1 < 16) by lia.
  assert (H3 : 0 <= 3 < 16) by lia.
  split; [exact (conj H1 (conj H2 H3))|].
  destruct (addr_data_bytes 5 1 3 H1 H2 H3) as [Hbytes Hwrap].
  split; [rewrite Hbytes; reflexivity | exact Hwrap].
Defined.

(** X17 at a seek to cylinder 406, head 1 of a 406-cylinder disk. *)
Lemma hawk_seek_refused_moves_current_track_witness :
  let u := set_on_cyl 1 (sample_unit (sample_store 0 0) 0) in
  let w := sample_world u 0 in
  (units w !! 0%nat = Some u /\ seeking u = 0
   /\ @HAWK_NUM_CYLINDERS sample_hawk_h <= 406 < 2 ^ 31 /\ 0 <= 406 /\ 0 <= 1 < 2)
  /\ exists (w' : world) (u' : hawk_unit),
       @hawk_seek sample_hawk_h (Some 0%nat) 406 1 w = Done (tt, w')
       /\ units w' !! 0%nat = Some u'
       /\ current_track u' = 813 /\ on_cyl u' = 0.
Proof.
  intros u w.
  assert (H1 : units w !! 0%nat = Some u) by reflexivity.
  assert (H2 : seeking u = 0) by reflexivity.
  assert (H3 : @HAWK_NUM_CYLINDERS sample_hawk_h <= 406 < 2 ^ 31) by (cbn; lia).
  assert (H4 : 0 <= 406) by lia.
  assert (H5 : 0 <= 1 < 2) by lia.
  split; [exact (conj H1 (conj H2 (conj H3 (conj H4 H5))))|].
  destruct (@hawk_seek_refused_moves_current_track sample_hawk_h w 0 u 406 1
              H1 H2 H3 H4 H5)
    as (w' & u' & Erun & Hu' & _ & Htrack & Hcyl & _).
  exists w', u'. exact (conj Erun (conj Hu' (conj Htrack Hcyl))).
Defined.
